(** * cctailpipe: the tail-and-dispatch engine

    A shallow embedding of the three core classes of the repository,

    - [ProcessingPipelineManager] (global filters, pipelines, outputs),
    - [JsonlStreamProcessor]      (offset table and the two read paths),
    - [JsonlStreamServer] with its [FileWatcher] (start/stop life cycle),

    followed by the properties of the specification that concern them.

    Asynchronous methods are modelled by what they do once every [await]
    has settled: a value of type [M A] is the list of observable actions
    the method performed, in order, together with the way it ended (a
    returned value or a thrown one).  Calls into code that is not part of
    the engine (plugins, [JSON.parse], the file system, the console) are
    recorded in that list, so that "was invoked" and "was not invoked" are
    statements about it. *)

From Stdlib.Strings Require Import Byte.
From stdpp Require Import gmap strings list fin_maps.

(** ** Results of JavaScript calls *)

(** What a [catch (error)] clause can receive: an [Error] object with its
    [message], or any other thrown value. *)
Inductive Thrown : Type :=
| ErrorObj (message : string)
| NonError.

Inductive Outcome (A : Type) : Type :=
| Ok (a : A)
| Throw (t : Thrown).
Arguments Ok {A} a.
Arguments Throw {A} t.

(** [error instanceof Error ? error.message : 'Unknown error'] *)
Definition error_text (t : Thrown) : string :=
  match t with
  | ErrorObj message => message
  | NonError => "Unknown error"
  end.

(** ** The action/exception monad *)

Module Act.
Section Act.
Context {E : Type}.

Definition M (A : Type) : Type := list E * Outcome A.

Definition ret {A} (a : A) : M A := ([], Ok a).
Definition throw {A} (t : Thrown) : M A := ([], Throw t).
Definition tell (e : E) : M unit := ([e], Ok tt).

Definition bind {A B} (m : M A) (k : A -> M B) : M B :=
  match m with
  | (tr, Ok a) => let '(tr', o) := k a in (tr ++ tr', o)
  | (tr, Throw t) => (tr, Throw t)
  end.

(** [try { m } catch (error) { h error }] *)
Definition try_catch {A} (m : M A) (h : Thrown -> M A) : M A :=
  match m with
  | (tr, Throw t) => let '(tr', o) := h t in (tr ++ tr', o)
  | (tr, Ok a) => (tr, Ok a)
  end.

Definition trace {A} (m : M A) : list E := fst m.
Definition outcome {A} (m : M A) : Outcome A := snd m.
End Act.
Arguments M : clear implicits.
End Act.

Notation "x <- m ;; k" := (Act.bind m (fun x => k))
  (at level 100, m at next level, right associativity).
Notation "m ;;; k" := (Act.bind m (fun _ => k))
  (at level 100, right associativity).

(** ** ProcessingPipelineManager *)

Module Pipeline.
Section Manager.
(** [JsonlRecord]: the decoded JSON value of one line. *)
Variable JsonlRecord : Type.

(** A plugin is known to the engine through one method.  [filter] and
    [output] give the way a call of that method ends for a record: the
    value it resolves with, or what it throws or rejects with.  What a
    plugin keeps or writes of its own (a file, a request, a buffer) is not
    part of the engine and not described here; every call the engine makes
    is recorded in the trace. *)
Record FilterPlugin : Type := {
  f_name : string;
  filter : JsonlRecord -> Outcome bool
}.

Record OutputPlugin : Type := {
  o_name : string;
  output : JsonlRecord -> Outcome unit
}.

(** [ProcessingPipeline] of [types/index.ts]: the optional [filter], the
    optional list [filters] and the [outputs]. *)
Record ProcessingPipeline : Type := {
  pl_name : string;
  pl_filter : option string;
  pl_filters : option (list string);
  pl_outputs : list string
}.

Record OutputResult : Type := {
  outputName : string;
  o_success : bool;
  o_error : option string
}.

Record PipelineResult : Type := {
  pipelineName : string;
  success : bool;
  filtered : option bool;
  error : option string;
  outputResults : list OutputResult
}.

(** The caller on whose behalf a plugin is invoked. *)
Inductive Scope : Type :=
| Global
| InPipeline (pipeline : string).

Inductive Console : Type :=
| GlobalFilterNotFound (filterName : string)
| GlobalFilterError (filterName : string) (t : Thrown)
| PipelineError (pipeline : string) (t : Thrown)
| OutputNotFound (outputName : string)
| PipelineOutputError (pipeline outputName : string) (t : Thrown)
| GlobalOutputNotFound (outputName : string)
| GlobalOutputError (outputName : string) (t : Thrown)
| ProcessRecordError (t : Thrown).

(** Observable actions of the manager.  [Emit_*] are the events of its
    [EventEmitter], [Warn]/[Error] the console, [CallFilter] and
    [CallOutput] the invocations [plugin.filter(record)] and
    [plugin.output(record)]. *)
Inductive Event : Type :=
| Warn (w : Console)
| Error (w : Console)
| CallFilter (sc : Scope) (filterName : string) (record : JsonlRecord)
| CallOutput (sc : Scope) (outputName : string) (record : JsonlRecord)
| Emit_record_filtered_global (record : JsonlRecord) (filePath : string) (lineNumber : nat)
| Emit_record_filtered_pipeline (record : JsonlRecord) (pipeline : string) (filterName : string)
    (filePath : string) (lineNumber : nat)
| Emit_record_output_pipeline (record : JsonlRecord) (pipeline : string) (outputName : string)
    (filePath : string) (lineNumber : nat)
| Emit_record_output_global (record : JsonlRecord) (outputName : string)
    (filePath : string) (lineNumber : nat)
| Emit_pipeline_results (record : JsonlRecord) (filePath : string) (lineNumber : nat)
    (results : list PipelineResult)
| Emit_pipeline_error (record : JsonlRecord) (t : Thrown) (filePath : string) (lineNumber : nat).

Record ProcessingPipelineManager : Type := {
  filters : gmap string FilterPlugin;
  outputs : gmap string OutputPlugin;
  pipelines : list ProcessingPipeline;
  globalFilters : list string;
  globalOutputs : list string
}.

Definition empty_manager : ProcessingPipelineManager :=
  {| filters := ∅; outputs := ∅; pipelines := []; globalFilters := []; globalOutputs := [] |}.

Definition addFilter (f : FilterPlugin) (m : ProcessingPipelineManager) : ProcessingPipelineManager :=
  {| filters := <[f_name f := f]> (filters m); outputs := outputs m;
     pipelines := pipelines m; globalFilters := globalFilters m; globalOutputs := globalOutputs m |}.

Definition addOutput (o : OutputPlugin) (m : ProcessingPipelineManager) : ProcessingPipelineManager :=
  {| filters := filters m; outputs := <[o_name o := o]> (outputs m);
     pipelines := pipelines m; globalFilters := globalFilters m; globalOutputs := globalOutputs m |}.

Definition setPipelines (ps : list ProcessingPipeline) (m : ProcessingPipelineManager) :=
  {| filters := filters m; outputs := outputs m;
     pipelines := ps; globalFilters := globalFilters m; globalOutputs := globalOutputs m |}.

Definition setGlobalFilters (ns : list string) (m : ProcessingPipelineManager) :=
  {| filters := filters m; outputs := outputs m;
     pipelines := pipelines m; globalFilters := ns; globalOutputs := globalOutputs m |}.

Definition setGlobalOutputs (ns : list string) (m : ProcessingPipelineManager) :=
  {| filters := filters m; outputs := outputs m;
     pipelines := pipelines m; globalFilters := globalFilters m; globalOutputs := ns |}.

Local Abbreviation M := (Act.M Event).

(** [await filter.filter(record)] *)
Definition call_filter (sc : Scope) (n : string) (f : FilterPlugin) (record : JsonlRecord) : M bool :=
  (Act.tell (CallFilter sc n record) ;;; ([], filter f record)).

(** [await output.output(record)] *)
Definition call_output (sc : Scope) (n : string) (o : OutputPlugin) (record : JsonlRecord) : M unit :=
  (Act.tell (CallOutput sc n record) ;;; ([], output o record)).

Variable m : ProcessingPipelineManager.

(** The loop of [applyGlobalFilters] over the remaining names. *)
Fixpoint applyGlobalFilters_from (names : list string) (record : JsonlRecord) : M bool :=
  match names with
  | [] => Act.ret true
  | filterName :: rest =>
      match filters m !! filterName with
      | None =>
          Act.tell (Warn (GlobalFilterNotFound filterName)) ;;;
          applyGlobalFilters_from rest record
      | Some f =>
          go_on <- Act.try_catch
                     (shouldProcess <- call_filter Global filterName f record ;;
                      Act.ret shouldProcess)
                     (fun t => Act.tell (Error (GlobalFilterError filterName t)) ;;;
                               Act.ret false) ;;
          if go_on then applyGlobalFilters_from rest record else Act.ret false
      end
  end.

Definition applyGlobalFilters (record : JsonlRecord) : M bool :=
  applyGlobalFilters_from (globalFilters m) record.

(** [if (pipeline.filter)]: an absent name and the empty string are both
    falsy. *)
Definition truthy (s : option string) : option string :=
  match s with
  | Some EmptyString => None
  | other => other
  end.

(** The body of the [for (const outputName of pipeline.outputs)] loop of
    [processPipeline]; its value is the entry pushed to [outputResults]. *)
Definition pipelineOutput_step (pipeline : ProcessingPipeline) (outputName : string)
    (record : JsonlRecord) (filePath : string) (lineNumber : nat) : M OutputResult :=
  match outputs m !! outputName with
  | None =>
      Act.tell (Warn (OutputNotFound outputName)) ;;;
      Act.ret {| outputName := outputName; o_success := false;
                 o_error := Some "Output plugin not found" |}
  | Some o =>
      Act.try_catch
        (call_output (InPipeline (pl_name pipeline)) outputName o record ;;;
         Act.tell (Emit_record_output_pipeline record (pl_name pipeline) outputName
                     filePath lineNumber) ;;;
         Act.ret {| outputName := outputName; o_success := true; o_error := None |})
        (fun t =>
           Act.tell (Error (PipelineOutputError (pl_name pipeline) outputName t)) ;;;
           Act.ret {| outputName := outputName; o_success := false;
                      o_error := Some (error_text t) |})
  end.

(** The loop itself, from the names still to visit. *)
Fixpoint pipelineOutputs_from (pipeline : ProcessingPipeline) (names : list string)
    (record : JsonlRecord) (filePath : string) (lineNumber : nat) : M (list OutputResult) :=
  match names with
  | [] => Act.ret []
  | outputName :: rest =>
      r <- pipelineOutput_step pipeline outputName record filePath lineNumber ;;
      rs <- pipelineOutputs_from pipeline rest record filePath lineNumber ;;
      Act.ret (r :: rs)
  end.

(** The second half of [processPipeline]: output fan-out and the final
    [return]. *)
Definition pipelineOutputs (pipeline : ProcessingPipeline)
    (record : JsonlRecord) (filePath : string) (lineNumber : nat) : M PipelineResult :=
  outputResults <- pipelineOutputs_from pipeline (pl_outputs pipeline) record filePath lineNumber ;;
  Act.ret {| pipelineName := pl_name pipeline; success := true; filtered := Some false;
             error := None; outputResults := outputResults |}.

Definition processPipeline (pipeline : ProcessingPipeline)
    (record : JsonlRecord) (filePath : string) (lineNumber : nat) : M PipelineResult :=
  match truthy (pl_filter pipeline) with
  | Some filterName =>
      match filters m !! filterName with
      | None => Act.throw (ErrorObj ("フィルターが見つかりません: " +:+ filterName))
      | Some f =>
          shouldProcess <- call_filter (InPipeline (pl_name pipeline)) filterName f record ;;
          if negb shouldProcess then
            Act.tell (Emit_record_filtered_pipeline record (pl_name pipeline) filterName
                        filePath lineNumber) ;;;
            Act.ret {| pipelineName := pl_name pipeline; success := true; filtered := Some true;
                       error := None; outputResults := [] |}
          else pipelineOutputs pipeline record filePath lineNumber
      end
  | None => pipelineOutputs pipeline record filePath lineNumber
  end.

(** The body of the loop of [processPipelines]; its value is the entry
    pushed to [results]. *)
Definition processPipelines_step (pipeline : ProcessingPipeline)
    (record : JsonlRecord) (filePath : string) (lineNumber : nat) : M PipelineResult :=
  Act.try_catch
    (processPipeline pipeline record filePath lineNumber)
    (fun t =>
       Act.tell (Error (PipelineError (pl_name pipeline) t)) ;;;
       Act.ret {| pipelineName := pl_name pipeline; success := false;
                  filtered := None; error := Some (error_text t);
                  outputResults := [] |}).

(** The loop itself, over the pipelines still to run. *)
Fixpoint processPipelines_from (ps : list ProcessingPipeline)
    (record : JsonlRecord) (filePath : string) (lineNumber : nat) : M (list PipelineResult) :=
  match ps with
  | [] => Act.ret []
  | pipeline :: rest =>
      result <- processPipelines_step pipeline record filePath lineNumber ;;
      results <- processPipelines_from rest record filePath lineNumber ;;
      Act.ret (result :: results)
  end.

Definition processPipelines (record : JsonlRecord) (filePath : string) (lineNumber : nat)
    : M (list PipelineResult) :=
  processPipelines_from (pipelines m) record filePath lineNumber.

(** The loop of [applyGlobalOutputs]. *)
Fixpoint applyGlobalOutputs_from (names : list string)
    (record : JsonlRecord) (filePath : string) (lineNumber : nat) : M unit :=
  match names with
  | [] => Act.ret tt
  | outputName :: rest =>
      match outputs m !! outputName with
      | None =>
          Act.tell (Warn (GlobalOutputNotFound outputName)) ;;;
          applyGlobalOutputs_from rest record filePath lineNumber
      | Some o =>
          Act.try_catch
            (call_output Global outputName o record ;;;
             Act.tell (Emit_record_output_global record outputName filePath lineNumber))
            (fun t => Act.tell (Error (GlobalOutputError outputName t))) ;;;
          applyGlobalOutputs_from rest record filePath lineNumber
      end
  end.

Definition applyGlobalOutputs (record : JsonlRecord) (filePath : string) (lineNumber : nat)
    : M unit :=
  applyGlobalOutputs_from (globalOutputs m) record filePath lineNumber.

Definition processRecord (record : JsonlRecord) (filePath : string) (lineNumber : nat) : M unit :=
  Act.try_catch
    (passedGlobalFilters <- applyGlobalFilters record ;;
     if negb passedGlobalFilters then
       Act.tell (Emit_record_filtered_global record filePath lineNumber)
     else
       pipelineResults <- processPipelines record filePath lineNumber ;;
       (if 0 <? length (globalOutputs m)
        then applyGlobalOutputs record filePath lineNumber
        else Act.ret tt) ;;;
       Act.tell (Emit_pipeline_results record filePath lineNumber pipelineResults))
    (fun t =>
       Act.tell (Error (ProcessRecordError t)) ;;;
       Act.tell (Emit_pipeline_error record t filePath lineNumber)).

End Manager.

Arguments Warn {JsonlRecord} w.
Arguments Error {JsonlRecord} w.
Arguments CallFilter {JsonlRecord} sc filterName record.
Arguments CallOutput {JsonlRecord} sc outputName record.
Arguments Emit_record_filtered_global {JsonlRecord}.
Arguments Emit_record_filtered_pipeline {JsonlRecord}.
Arguments Emit_record_output_pipeline {JsonlRecord}.
Arguments Emit_record_output_global {JsonlRecord}.
Arguments Emit_pipeline_results {JsonlRecord}.
Arguments Emit_pipeline_error {JsonlRecord}.
Arguments Build_FilterPlugin {JsonlRecord}.
Arguments Build_OutputPlugin {JsonlRecord}.
Arguments Build_ProcessingPipelineManager {JsonlRecord}.
Arguments f_name {JsonlRecord}.
Arguments filter {JsonlRecord}.
Arguments o_name {JsonlRecord}.
Arguments output {JsonlRecord}.
Arguments filters {JsonlRecord}.
Arguments outputs {JsonlRecord}.
Arguments pipelines {JsonlRecord}.
Arguments globalFilters {JsonlRecord}.
Arguments globalOutputs {JsonlRecord}.
Arguments empty_manager {JsonlRecord}.
Arguments addFilter {JsonlRecord}.
Arguments addOutput {JsonlRecord}.
Arguments setPipelines {JsonlRecord}.
Arguments setGlobalFilters {JsonlRecord}.
Arguments setGlobalOutputs {JsonlRecord}.
Arguments call_filter {JsonlRecord}.
Arguments call_output {JsonlRecord}.
Arguments applyGlobalFilters_from {JsonlRecord}.
Arguments applyGlobalFilters {JsonlRecord}.
Arguments pipelineOutput_step {JsonlRecord}.
Arguments pipelineOutputs_from {JsonlRecord}.
Arguments pipelineOutputs {JsonlRecord}.
Arguments processPipeline {JsonlRecord}.
Arguments processPipelines_step {JsonlRecord}.
Arguments processPipelines_from {JsonlRecord}.
Arguments processPipelines {JsonlRecord}.
Arguments applyGlobalOutputs_from {JsonlRecord}.
Arguments applyGlobalOutputs {JsonlRecord}.
Arguments processRecord {JsonlRecord}.

End Pipeline.

(** ** Node's [readline] over a byte stream *)

(** [for await (const line of rl)] with [crlfDelay: Infinity]: a line ends
    at LF, at CR, or at CR LF taken as one terminator; the terminator is
    not part of the line.  When the stream ends, text after the last
    terminator is delivered as a final line if it is not empty.
    [sawReturn] tells that the previous byte was a CR. *)
Fixpoint readline_from (sawReturn : bool) (s : list byte) : list (list byte) :=
  match s with
  | [] => []
  | c :: rest =>
      if Byte.eqb c x0a then
        if sawReturn then readline_from false rest
        else [] :: readline_from false rest
      else if Byte.eqb c x0d then [] :: readline_from true rest
      else
        match readline_from false rest with
        | [] => [[c]]
        | l :: ls => (c :: l) :: ls
        end
  end.

Definition readline (s : list byte) : list (list byte) := readline_from false s.

(** ** JsonlStreamProcessor *)

Module Processor.
Section Processor.
Variable JsonlRecord : Type.
(** [JSON.parse(line)]: the decoded value, or the thrown [SyntaxError]. *)
Variable JSON_parse : list byte -> Outcome JsonlRecord.
(** [line.trim() === ''] *)
Variable trim_is_empty : list byte -> bool.

Inductive Console : Type :=
| AlreadyProcessing (filePath : string)
| FileProcessingError (filePath : string) (t : Thrown)
| JsonParseError (lineNumber : nat) (filePath : string) (t : Thrown)
| FileTruncated (filePath : string)
| NoNewData (filePath : string)
| BufferedRead (filePath : string) (lastPosition size : nat)
| RecordProcessingError (t : Thrown).

(** Observable actions of the processor.  [Stat] and [ReadStream] are the
    file-system calls ([ReadStream path start data]: a stream opened at
    byte [start] and read to the end of the file, delivering [data]);
    [JsonParse line] is the call [JSON.parse(line)];
    [Dispatch record path n inner] is the call
    [pipelineManager.processRecord(record, path, n)] together with
    everything the manager did during it (each of its events is
    re-emitted by the processor, see [setupPipelineEventHandlers]). *)
Inductive Event : Type :=
| Log (w : Console)
| Warn (w : Console)
| Error (w : Console)
| Stat (filePath : string)
| ReadStream (filePath : string) (start : nat) (data : list byte)
| JsonParse (line : list byte)
| Dispatch (record : JsonlRecord) (filePath : string) (lineNumber : nat)
    (inner : list (Pipeline.Event JsonlRecord))
| Emit_processing_start (filePath : string)
| Emit_processing_complete (filePath : string)
| Emit_processing_error (filePath : string) (t : Thrown)
| Emit_parse_error (filePath : string) (lineNumber : nat) (line : list byte) (t : Thrown)
| Emit_record_error (record : JsonlRecord) (t : Thrown) (filePath : string) (lineNumber : nat).

Local Abbreviation M := (Act.M Event).

Record JsonlStreamProcessor : Type := {
  pipelineManager : Pipeline.ProcessingPipelineManager JsonlRecord;
  isProcessing : bool;
  filePositions : gmap string nat;
  enableBuffering : bool
}.

(** [new JsonlStreamProcessor(pipelineManager, enableBuffering = true)] *)
Definition new (pm : Pipeline.ProcessingPipelineManager JsonlRecord) (buffering : bool) :=
  {| pipelineManager := pm; isProcessing := false; filePositions := ∅;
     enableBuffering := buffering |}.

Definition set_isProcessing (b : bool) (p : JsonlStreamProcessor) :=
  {| pipelineManager := pipelineManager p; isProcessing := b;
     filePositions := filePositions p; enableBuffering := enableBuffering p |}.

Definition set_filePosition (filePath : string) (pos : nat) (p : JsonlStreamProcessor) :=
  {| pipelineManager := pipelineManager p; isProcessing := isProcessing p;
     filePositions := <[filePath := pos]> (filePositions p);
     enableBuffering := enableBuffering p |}.

Definition resetFilePosition (filePath : string) (p : JsonlStreamProcessor) :=
  {| pipelineManager := pipelineManager p; isProcessing := isProcessing p;
     filePositions := delete filePath (filePositions p);
     enableBuffering := enableBuffering p |}.

Definition setBuffering (enabled : bool) (p : JsonlStreamProcessor) :=
  {| pipelineManager := pipelineManager p; isProcessing := isProcessing p;
     filePositions := filePositions p; enableBuffering := enabled |}.

(** [this.filePositions.get(filePath) || 0] *)
Definition getFilePosition (p : JsonlStreamProcessor) (filePath : string) : nat :=
  default 0 (filePositions p !! filePath).

Definition getLineNumberFromPosition (filePath : string) (position : nat) : nat :=
  if position =? 0 then 0 else position / 100.

(** The file system at one moment: the bytes of every existing file. *)
Local Abbreviation FS := (gmap string (list byte)).

(** The error of the file-system call [syscall] on a path that does not
    exist, with the message Node gives it. *)
Definition ENOENT (syscall filePath : string) : Thrown :=
  ErrorObj ("ENOENT: no such file or directory, " +:+ syscall +:+ " '" +:+ filePath +:+ "'").

Definition processRecord (p : JsonlStreamProcessor)
    (record : JsonlRecord) (filePath : string) (lineNumber : nat) : M unit :=
  Act.try_catch
    (let '(inner, o) := Pipeline.processRecord (pipelineManager p) record filePath lineNumber in
     ([Dispatch record filePath lineNumber inner], o))
    (fun t =>
       Act.tell (Error (RecordProcessingError t)) ;;;
       Act.tell (Emit_record_error record t filePath lineNumber)).

(** The body shared by the two [for await (const line of rl)] loops;
    [lineNumber] is the counter before the line is taken. *)
Fixpoint processLines (p : JsonlStreamProcessor) (filePath : string)
    (lines : list (list byte)) (lineNumber : nat) : M unit :=
  match lines with
  | [] => Act.ret tt
  | line :: rest =>
      let lineNumber := S lineNumber in
      if trim_is_empty line then processLines p filePath rest lineNumber
      else
        Act.try_catch
          (Act.tell (JsonParse line) ;;;
           record <- ([], JSON_parse line) ;;
           processRecord p record filePath lineNumber)
          (fun t =>
             Act.tell (Error (JsonParseError lineNumber filePath t)) ;;;
             Act.tell (Emit_parse_error filePath lineNumber line t)) ;;;
        processLines p filePath rest lineNumber
  end.

Definition processFileComplete (p : JsonlStreamProcessor) (fs : FS) (filePath : string) : M unit :=
  match fs !! filePath with
  | None => Act.throw (ENOENT "open" filePath)
  | Some content =>
      Act.tell (ReadStream filePath 0 content) ;;;
      processLines p filePath (readline content) 0
  end.

(** [processFileWithBuffering] for a file that may be written while the
    pass runs: [at_stat] is the file system that [stat] finds and
    [at_read] the one that the stream, opened afterwards at the stored
    offset and without an [end], reads to its end.  The offset stored at
    the end is the size that [stat] found. *)
Definition processFileWithBuffering_during (p : JsonlStreamProcessor) (at_stat at_read : FS)
    (filePath : string) : JsonlStreamProcessor * M unit :=
  match at_stat !! filePath with
  | None => (p, Act.tell (Stat filePath) ;;; Act.throw (ENOENT "stat" filePath))
  | Some seen =>
      let size := length seen in
      let lastPosition := getFilePosition p filePath in
      if size <? lastPosition then
        let p' := set_filePosition filePath 0 p in
        (p', Act.tell (Stat filePath) ;;;
             Act.tell (Log (FileTruncated filePath)) ;;;
             processFileComplete p' at_read filePath)
      else if size =? lastPosition then
        (p, Act.tell (Stat filePath) ;;; Act.tell (Log (NoNewData filePath)))
      else
        match at_read !! filePath with
        | None =>
            (p, Act.tell (Stat filePath) ;;;
                Act.tell (Log (BufferedRead filePath lastPosition size)) ;;;
                Act.throw (ENOENT "open" filePath))
        | Some content =>
            let data := drop lastPosition content in
            let reading :=
              Act.tell (Stat filePath) ;;;
              Act.tell (Log (BufferedRead filePath lastPosition size)) ;;;
              Act.tell (ReadStream filePath lastPosition data) ;;;
              processLines p filePath (readline data)
                (getLineNumberFromPosition filePath lastPosition) in
            match Act.outcome reading with
            | Ok _ => (set_filePosition filePath size p, reading)
            | Throw _ => (p, reading)
            end
        end
  end.

(** [processFileWithBuffering] for a file that nobody writes while the
    pass runs: [stat] and the stream find the same file system. *)
Definition processFileWithBuffering (p : JsonlStreamProcessor) (fs : FS) (filePath : string)
    : JsonlStreamProcessor * M unit :=
  processFileWithBuffering_during p fs fs filePath.

(** [processFile] up to its first suspension: the guard, the flag and the
    [processing-start] event.  [None]: the call was turned away. *)
Definition processFile_begin (p : JsonlStreamProcessor) (filePath : string)
    : option JsonlStreamProcessor * list Event :=
  if isProcessing p then (None, [Warn (AlreadyProcessing filePath)])
  else (Some (set_isProcessing true p), [Emit_processing_start filePath]).

(** The rest of [processFile], the [try] / [catch] / [finally] block, for
    a file that may be written while the pass runs. *)
Definition processFile_finish_during (p : JsonlStreamProcessor) (at_stat at_read : FS)
    (filePath : string) : JsonlStreamProcessor * M unit :=
  let '(p1, reading) :=
    if enableBuffering p then processFileWithBuffering_during p at_stat at_read filePath
    else (p, processFileComplete p at_read filePath) in
  (set_isProcessing false p1,
   Act.try_catch
     (reading ;;; Act.tell (Emit_processing_complete filePath))
     (fun t =>
        Act.tell (Error (FileProcessingError filePath t)) ;;;
        Act.tell (Emit_processing_error filePath t))).

(** The same for a file that nobody writes while the pass runs. *)
Definition processFile_finish (p : JsonlStreamProcessor) (fs : FS) (filePath : string)
    : JsonlStreamProcessor * M unit :=
  processFile_finish_during p fs fs filePath.

(** A call of [processFile] that runs to completion with no other call in
    between, for a file that may be written while the pass runs. *)
Definition processFile_during (p : JsonlStreamProcessor) (at_stat at_read : FS)
    (filePath : string) : JsonlStreamProcessor * M unit :=
  match processFile_begin p filePath with
  | (None, tr) => (p, (tr, Ok tt))
  | (Some p1, tr) =>
      let '(p2, (tr', o)) := processFile_finish_during p1 at_stat at_read filePath in
      (p2, (tr ++ tr', o))
  end.

(** The same for a file that nobody writes while the pass runs. *)
Definition processFile (p : JsonlStreamProcessor) (fs : FS) (filePath : string)
    : JsonlStreamProcessor * M unit :=
  processFile_during p fs fs filePath.

End Processor.

Arguments Log {JsonlRecord}.
Arguments Warn {JsonlRecord}.
Arguments Error {JsonlRecord}.
Arguments Stat {JsonlRecord}.
Arguments ReadStream {JsonlRecord}.
Arguments JsonParse {JsonlRecord}.
Arguments Dispatch {JsonlRecord}.
Arguments Emit_processing_start {JsonlRecord}.
Arguments Emit_processing_complete {JsonlRecord}.
Arguments Emit_processing_error {JsonlRecord}.
Arguments Emit_parse_error {JsonlRecord}.
Arguments Emit_record_error {JsonlRecord}.
Arguments pipelineManager {JsonlRecord}.
Arguments isProcessing {JsonlRecord}.
Arguments filePositions {JsonlRecord}.
Arguments enableBuffering {JsonlRecord}.
Arguments new {JsonlRecord}.
Arguments set_isProcessing {JsonlRecord}.
Arguments set_filePosition {JsonlRecord}.
Arguments resetFilePosition {JsonlRecord}.
Arguments setBuffering {JsonlRecord}.
Arguments getFilePosition {JsonlRecord}.
Arguments processRecord {JsonlRecord}.
Arguments processLines {JsonlRecord}.
Arguments processFileComplete {JsonlRecord}.
Arguments processFileWithBuffering_during {JsonlRecord}.
Arguments processFileWithBuffering {JsonlRecord}.
Arguments processFile_finish_during {JsonlRecord}.
Arguments processFile_during {JsonlRecord}.
Arguments processFile_begin {JsonlRecord}.
Arguments processFile_finish {JsonlRecord}.
Arguments processFile {JsonlRecord}.

End Processor.

(** ** FileWatcher and JsonlStreamServer: the life cycle *)

Module Server.
Section Server.
(** [existsSync] on the disk as it is when [start] runs, and [resolve]
    of module [path]. *)
Variable existsSync : string -> bool.
Variable resolve : string -> string.

Inductive Console : Type :=
| WatcherAlreadyStarted
| WatchStarting (dir : string)
| WatchDirectory (dir : string)
| WatchDirectoryMissing (dir : string)
| WatcherStopping
| ServerAlreadyRunning
| ServerStarting
| ServerNotRunning
| ServerStopping.

Inductive Event : Type :=
| Log (w : Console)
| Warn (w : Console)
| Error (w : Console)
| ChokidarWatch (dir : string)
| WatcherClose
| ClearTimeout (path : string)
| Emit_watcher_started (dir : string)
| Emit_watcher_stopped
| Emit_started
| Emit_stopped.

Local Abbreviation M := (Act.M Event).

(** [watcher]: whether [this.watcher] holds a chokidar instance ([true])
    or [null]; [debounceTimers]: the paths with a pending timer. *)
Record FileWatcher : Type := {
  watcher : bool;
  watchDirectory : string;
  debounceTimers : list string
}.

Definition new_FileWatcher (dir : string) : FileWatcher :=
  {| watcher := false; watchDirectory := resolve dir; debounceTimers := [] |}.

Definition FileWatcher_start (w : FileWatcher) : FileWatcher * list Event :=
  if watcher w then (w, [Warn WatcherAlreadyStarted])
  else if negb (existsSync (watchDirectory w)) then
    (w, [Log (WatchStarting (watchDirectory w)); Log (WatchDirectory (watchDirectory w));
         Error (WatchDirectoryMissing (watchDirectory w))])
  else
    ({| watcher := true; watchDirectory := watchDirectory w;
        debounceTimers := debounceTimers w |},
     [Log (WatchStarting (watchDirectory w)); Log (WatchDirectory (watchDirectory w));
      ChokidarWatch (watchDirectory w); Emit_watcher_started (watchDirectory w)]).

Definition FileWatcher_stop (w : FileWatcher) : FileWatcher * list Event :=
  if watcher w then
    ({| watcher := false; watchDirectory := watchDirectory w; debounceTimers := [] |},
     [Log WatcherStopping; WatcherClose] ++ map ClearTimeout (debounceTimers w)
       ++ [Emit_watcher_stopped])
  else (w, []).

(** The part of the server that [start] and [stop] read or write:
    [config.watchDirectory], the watcher and the [isRunning] flag. *)
Record JsonlStreamServer : Type := {
  config_watchDirectory : string;
  fileWatcher : FileWatcher;
  isRunning : bool
}.

Definition new (dir : string) : JsonlStreamServer :=
  {| config_watchDirectory := dir; fileWatcher := new_FileWatcher dir; isRunning := false |}.

Definition start (s : JsonlStreamServer) : JsonlStreamServer * M unit :=
  if isRunning s then (s, Act.tell (Warn ServerAlreadyRunning))
  else if negb (existsSync (config_watchDirectory s)) then
    (s, Act.tell (Log ServerStarting) ;;;
        Act.tell (Log (WatchDirectory (config_watchDirectory s))) ;;;
        Act.throw (ErrorObj ("監視ディレクトリが存在しません: " +:+ config_watchDirectory s)))
  else
    let '(w, tr) := FileWatcher_start (fileWatcher s) in
    ({| config_watchDirectory := config_watchDirectory s; fileWatcher := w; isRunning := true |},
     ([Log ServerStarting; Log (WatchDirectory (config_watchDirectory s))] ++ tr
        ++ [Emit_started], Ok tt)).

Definition stop (s : JsonlStreamServer) : JsonlStreamServer * M unit :=
  if negb (isRunning s) then (s, Act.tell (Warn ServerNotRunning))
  else
    let '(w, tr) := FileWatcher_stop (fileWatcher s) in
    ({| config_watchDirectory := config_watchDirectory s; fileWatcher := w; isRunning := false |},
     ([Log ServerStopping] ++ tr ++ [Emit_stopped], Ok tt)).

Definition isServerRunning (s : JsonlStreamServer) : bool := isRunning s.

(** The two states of the specification's state machine. *)
Inductive Lifecycle : Type := Stopped | Running.

Definition lifecycle (s : JsonlStreamServer) : Lifecycle :=
  if isServerRunning s then Running else Stopped.

End Server.
End Server.

(** ** Vocabulary for the statements *)

Module Observe.
Section Observe.
Context {JsonlRecord : Type}.

(** Actions the manager can take while it is still applying the global
    filters: warnings for unknown names, the filter calls themselves and
    the report of a filter that threw. *)
Definition global_filter_action (e : Pipeline.Event JsonlRecord) : bool :=
  match e with
  | Pipeline.Warn (Pipeline.GlobalFilterNotFound _) => true
  | Pipeline.Error (Pipeline.GlobalFilterError _ _) => true
  | Pipeline.CallFilter Pipeline.Global _ _ => true
  | _ => false
  end.

(** Everything that lies behind the gate: pipeline filters, outputs of
    either kind, the events raised for a pipeline or an output, and the
    [pipeline-results] report. *)
Definition behind_gate (e : Pipeline.Event JsonlRecord) : bool :=
  match e with
  | Pipeline.CallFilter (Pipeline.InPipeline _) _ _ => true
  | Pipeline.CallOutput _ _ _ => true
  | Pipeline.Emit_record_filtered_pipeline _ _ _ _ _ => true
  | Pipeline.Emit_record_output_pipeline _ _ _ _ _ => true
  | Pipeline.Emit_record_output_global _ _ _ _ => true
  | Pipeline.Emit_pipeline_results _ _ _ _ => true
  | Pipeline.Emit_pipeline_error _ _ _ _ => true
  | _ => false
  end.

(** What [processPipeline] does before it reaches its outputs when the
    pipeline's own filter lets the record through. *)
Definition filter_stage (pipeline : Pipeline.ProcessingPipeline) (record : JsonlRecord)
    : list (Pipeline.Event JsonlRecord) :=
  match Pipeline.truthy (Pipeline.pl_filter pipeline) with
  | Some filterName =>
      [Pipeline.CallFilter (Pipeline.InPipeline (Pipeline.pl_name pipeline)) filterName record]
  | None => []
  end.

(** The pipeline's own filter lets the record through: there is none, or
    it is registered and answers [true]. *)
Definition filter_passes (m : Pipeline.ProcessingPipelineManager JsonlRecord)
    (pipeline : Pipeline.ProcessingPipeline) (record : JsonlRecord) : Prop :=
  match Pipeline.truthy (Pipeline.pl_filter pipeline) with
  | Some filterName =>
      exists f, Pipeline.filters m !! filterName = Some f /\ Pipeline.filter f record = Ok true
  | None => True
  end.

(** The lines handed to [JSON.parse], in order. *)
Definition parsed_lines (tr : list (Processor.Event JsonlRecord)) : list (list byte) :=
  flat_map (fun e => match e with Processor.JsonParse line => [line] | _ => [] end) tr.

(** The byte ranges streamed from disk, in order: start offset and data. *)
Definition stream_reads (tr : list (Processor.Event JsonlRecord)) : list (nat * list byte) :=
  flat_map (fun e => match e with Processor.ReadStream _ start data => [(start, data)] | _ => [] end) tr.

Definition touches_file (e : Processor.Event JsonlRecord) : bool :=
  match e with
  | Processor.Stat _ | Processor.ReadStream _ _ _ => true
  | _ => false
  end.
End Observe.

(** [tiles a reads]: the ranges in [reads] are non-empty, the first starts
    at byte [a] and each next one starts where the one before it ends, so
    that no byte lies in two of them. *)
Fixpoint tiles (a : nat) (reads : list (nat * list byte)) : Prop :=
  match reads with
  | [] => True
  | (start, data) :: rest => start = a /\ data <> [] /\ tiles (a + length data) rest
  end.
End Observe.

(** ** A file that only grows, read after every append *)

Module Tail.
Section Tail.
Variable JsonlRecord : Type.
Variable JSON_parse : list byte -> Outcome JsonlRecord.
Variable trim_is_empty : list byte -> bool.

(** What one read pass showed: the file size it found, the stored offset
    before and after, and its actions. *)
Record ReadObs : Type := {
  size_at_read : nat;
  offset_before : nat;
  offset_after : nat;
  actions : list (Processor.Event JsonlRecord)
}.

(** The file [filePath] holds [content]; each element of [appends] is
    appended in turn and [processFile] runs after each append, with nothing
    written to the file while it runs. *)
Fixpoint reads_after_appends (p : Processor.JsonlStreamProcessor JsonlRecord)
    (fs : gmap string (list byte)) (filePath : string) (content : list byte)
    (appends : list (list byte)) : list ReadObs :=
  match appends with
  | [] => []
  | chunk :: rest =>
      let content' := content ++ chunk in
      let fs' := <[filePath := content']> fs in
      let '(p', (tr, _)) := Processor.processFile JSON_parse trim_is_empty p fs' filePath in
      {| size_at_read := length content';
         offset_before := Processor.getFilePosition p filePath;
         offset_after := Processor.getFilePosition p' filePath;
         actions := tr |}
      :: reads_after_appends p' fs' filePath content' rest
  end.

(** [chained a obs]: the first pass found the stored offset [a], and every
    later pass found the offset its predecessor left. *)
Fixpoint chained (a : nat) (obs : list ReadObs) : Prop :=
  match obs with
  | [] => True
  | o :: rest => offset_before o = a /\ chained (offset_after o) rest
  end.
End Tail.
Arguments size_at_read {JsonlRecord}.
Arguments offset_before {JsonlRecord}.
Arguments offset_after {JsonlRecord}.
Arguments actions {JsonlRecord}.
Arguments reads_after_appends {JsonlRecord}.
Arguments chained {JsonlRecord}.
End Tail.

(** ** Calls of [processFile] that overlap in time *)

Module Guard.
Section Guard.
Variable JsonlRecord : Type.
Variable JSON_parse : list byte -> Outcome JsonlRecord.
Variable trim_is_empty : list byte -> bool.

(** The processor together with the passes that were admitted by the
    guard and have not finished yet (oldest first). *)
Record System : Type := {
  proc : Processor.JsonlStreamProcessor JsonlRecord;
  inflight : list string
}.

(** [Arrive path]: [processFile(path)] is called and runs up to its first
    suspension.  [Settle fs]: the oldest pass in flight runs to its end,
    seeing the file system [fs]. *)
Inductive Label : Type :=
| Arrive (filePath : string)
| Settle (fs : gmap string (list byte)).

Definition sys_step (s : System) (l : Label) : System * list (Processor.Event JsonlRecord) :=
  match l with
  | Arrive filePath =>
      match Processor.processFile_begin (proc s) filePath with
      | (None, tr) => (s, tr)
      | (Some p1, tr) => ({| proc := p1; inflight := inflight s ++ [filePath] |}, tr)
      end
  | Settle fs =>
      match inflight s with
      | [] => (s, [])
      | filePath :: rest =>
          let '(p2, (tr, _)) :=
            Processor.processFile_finish JSON_parse trim_is_empty (proc s) fs filePath in
          ({| proc := p2; inflight := rest |}, tr)
      end
  end.

Fixpoint sys_run (s : System) (ls : list Label) : System :=
  match ls with
  | [] => s
  | l :: rest => sys_run (fst (sys_step s l)) rest
  end.

Definition idle (p : Processor.JsonlStreamProcessor JsonlRecord) : System :=
  {| proc := p; inflight := [] |}.

(** The flag [isProcessing] counts the passes in flight. *)
Definition flag_counts (s : System) : Prop :=
  length (inflight s) = if Processor.isProcessing (proc s) then 1 else 0.
End Guard.
Arguments proc {JsonlRecord}.
Arguments inflight {JsonlRecord}.
Arguments sys_step {JsonlRecord}.
Arguments sys_run {JsonlRecord}.
Arguments idle {JsonlRecord}.
Arguments flag_counts {JsonlRecord}.
End Guard.

(** ** Concrete plugins, files and parsers for the worked examples *)

Module Fixtures.
Definition bytes (s : string) : list byte := String.list_byte_of_string s.
Definition LF : byte := x0a.

Definition is_space (b : byte) : bool :=
  let n := Byte.to_nat b in ((9 <=? n) && (n <=? 13)) || (n =? 32).

(** [trim() === ''] on ASCII text. *)
Definition ascii_blank (line : list byte) : bool := forallb is_space line.

Fixpoint decimal (acc : nat) (l : list byte) : option nat :=
  match l with
  | [] => Some acc
  | b :: r =>
      let n := Byte.to_nat b in
      if (48 <=? n) && (n <=? 57) then decimal (10 * acc + (n - 48)) r else None
  end.

(** [JSON.parse] on the lines used below: an unsigned decimal literal is
    decoded to its value, anything else is a syntax error. *)
Definition parse_number (line : list byte) : Outcome nat :=
  match line with
  | [] => Throw (ErrorObj "Unexpected end of JSON input")
  | _ =>
      match decimal 0 line with
      | Some n => Ok n
      | None => Throw (ErrorObj "Unexpected token")
      end
  end.

Definition reject_all (n : string) : Pipeline.FilterPlugin nat :=
  {| Pipeline.f_name := n; Pipeline.filter := fun _ => Ok false |}.
Definition accept_all (n : string) : Pipeline.FilterPlugin nat :=
  {| Pipeline.f_name := n; Pipeline.filter := fun _ => Ok true |}.
Definition failing_filter (n : string) : Pipeline.FilterPlugin nat :=
  {| Pipeline.f_name := n; Pipeline.filter := fun _ => Throw (ErrorObj "filter failed") |}.
Definition sink (n : string) : Pipeline.OutputPlugin nat :=
  {| Pipeline.o_name := n; Pipeline.output := fun _ => Ok tt |}.
Definition broken (n : string) : Pipeline.OutputPlugin nat :=
  {| Pipeline.o_name := n; Pipeline.output := fun _ => Throw (ErrorObj "write failed") |}.

(** A pipeline that declares the filter list [["A"; "B"]] and the output
    ["X"], in a manager where ["A"] rejects every record. *)
Definition conjunction_pipeline : Pipeline.ProcessingPipeline :=
  {| Pipeline.pl_name := "p"; Pipeline.pl_filter := None;
     Pipeline.pl_filters := Some ["A"; "B"]; Pipeline.pl_outputs := ["X"] |}.

Definition conjunction_manager : Pipeline.ProcessingPipelineManager nat :=
  Pipeline.setPipelines [conjunction_pipeline]
    (Pipeline.addOutput (sink "X")
       (Pipeline.addFilter (accept_all "B")
          (Pipeline.addFilter (reject_all "A") Pipeline.empty_manager))).

(** Two pipelines; the first sends to ["X"], which throws, then to ["Y"]. *)
Definition isolation_pipeline : Pipeline.ProcessingPipeline :=
  {| Pipeline.pl_name := "first"; Pipeline.pl_filter := None;
     Pipeline.pl_filters := None; Pipeline.pl_outputs := ["X"; "Y"] |}.
Definition second_pipeline : Pipeline.ProcessingPipeline :=
  {| Pipeline.pl_name := "second"; Pipeline.pl_filter := Some "B";
     Pipeline.pl_filters := None; Pipeline.pl_outputs := ["Y"] |}.

Definition isolation_manager : Pipeline.ProcessingPipelineManager nat :=
  Pipeline.setPipelines [isolation_pipeline; second_pipeline]
    (Pipeline.addOutput (sink "Y")
       (Pipeline.addOutput (broken "X")
          (Pipeline.addFilter (accept_all "B") Pipeline.empty_manager))).

(** A pipeline whose filter ["nowhere"] is not registered, followed by a
    pipeline with an unregistered output between two registered ones. *)
Definition orphan_pipeline : Pipeline.ProcessingPipeline :=
  {| Pipeline.pl_name := "orphan"; Pipeline.pl_filter := Some "nowhere";
     Pipeline.pl_filters := None; Pipeline.pl_outputs := ["Y"] |}.
Definition gap_pipeline : Pipeline.ProcessingPipeline :=
  {| Pipeline.pl_name := "gap"; Pipeline.pl_filter := Some "B";
     Pipeline.pl_filters := None; Pipeline.pl_outputs := ["Y"; "missing"; "Y"] |}.

Definition lookup_manager : Pipeline.ProcessingPipelineManager nat :=
  Pipeline.setPipelines [orphan_pipeline; gap_pipeline]
    (Pipeline.addOutput (sink "Y")
       (Pipeline.addFilter (accept_all "B") Pipeline.empty_manager)).

(** Global filters ["B"] (accepts) then ["A"] (rejects), resp. ["F"]
    (throws), in front of a pipeline and a global output. *)
Definition gated_manager (gate : Pipeline.FilterPlugin nat) : Pipeline.ProcessingPipelineManager nat :=
  Pipeline.setGlobalOutputs ["Y"]
    (Pipeline.setGlobalFilters ["B"; Pipeline.f_name gate]
       (Pipeline.setPipelines [second_pipeline]
          (Pipeline.addOutput (sink "Y")
             (Pipeline.addFilter gate
                (Pipeline.addFilter (accept_all "B") Pipeline.empty_manager))))).

Definition quiet_manager : Pipeline.ProcessingPipelineManager nat := Pipeline.empty_manager.

Definition log_file : string := "a.jsonl".

(** A processor with buffering enabled and nothing read yet. *)
Definition fresh : Processor.JsonlStreamProcessor nat := Processor.new quiet_manager true.

(** The same processor after it has read [log_file] up to byte 20. *)
Definition at_20 : Processor.JsonlStreamProcessor nat :=
  Processor.set_filePosition log_file 20 fresh.

(** ["1" LF "23"]: one complete line and a line the writer has not
    finished. *)
Definition torn_content : list byte := bytes "1" ++ [LF] ++ bytes "23".

(** ["1" LF "2" LF]: the file after it was cut down and rewritten. *)
Definition rewritten_content : list byte := bytes "1" ++ [LF] ++ bytes "2" ++ [LF].

(** ["1" LF]: a file that holds one record. *)
Definition first_record : list byte := bytes "1" ++ [LF].

(** A pipeline that declares the filter list [["nowhere"]], a name that
    is not registered, followed by a second pipeline. *)
Definition unlisted_pipeline : Pipeline.ProcessingPipeline :=
  {| Pipeline.pl_name := "unlisted"; Pipeline.pl_filter := None;
     Pipeline.pl_filters := Some ["nowhere"]; Pipeline.pl_outputs := ["Y"] |}.

Definition unlisted_manager : Pipeline.ProcessingPipelineManager nat :=
  Pipeline.setPipelines [unlisted_pipeline; second_pipeline]
    (Pipeline.addOutput (sink "Y")
       (Pipeline.addFilter (accept_all "B") Pipeline.empty_manager)).
End Fixtures.

(** ** Further vocabulary: which plugins were called *)

Module Calls.
Section Calls.
Context {JsonlRecord : Type}.

(** The filter calls of a run, in order: on whose behalf and by which name. *)
Definition filter_calls (tr : list (Pipeline.Event JsonlRecord))
    : list (Pipeline.Scope * string) :=
  flat_map (fun e => match e with
                     | Pipeline.CallFilter sc n _ => [(sc, n)]
                     | _ => []
                     end) tr.

(** The output calls of a run, in order. *)
Definition output_calls (tr : list (Pipeline.Event JsonlRecord))
    : list (Pipeline.Scope * string) :=
  flat_map (fun e => match e with
                     | Pipeline.CallOutput sc n _ => [(sc, n)]
                     | _ => []
                     end) tr.

(** The names of the global outputs called in a run, in order. *)
Definition global_output_calls (tr : list (Pipeline.Event JsonlRecord)) : list string :=
  flat_map (fun e => match e with
                     | Pipeline.CallOutput Pipeline.Global n _ => [n]
                     | _ => []
                     end) tr.

(** The two events that close the processing of a record. *)
Definition is_report (e : Pipeline.Event JsonlRecord) : bool :=
  match e with
  | Pipeline.Emit_record_filtered_global _ _ _ => true
  | Pipeline.Emit_pipeline_results _ _ _ _ => true
  | _ => false
  end.

(** The [pipeline-error] event and the console message that goes with it. *)
Definition is_pipeline_error (e : Pipeline.Event JsonlRecord) : bool :=
  match e with
  | Pipeline.Emit_pipeline_error _ _ _ _ => true
  | Pipeline.Error (Pipeline.ProcessRecordError _) => true
  | _ => false
  end.

Variable m : Pipeline.ProcessingPipelineManager JsonlRecord.

Definition filter_registered (n : string) : bool :=
  match Pipeline.filters m !! n with Some _ => true | None => false end.

Definition output_registered (n : string) : bool :=
  match Pipeline.outputs m !! n with Some _ => true | None => false end.

(** The answer of the filter registered as [n] is [true]; a name that is
    not registered counts as such an answer. *)
Definition lets_through (record : JsonlRecord) (n : string) : bool :=
  match Pipeline.filters m !! n with
  | Some f => match Pipeline.filter f record with Ok true => true | _ => false end
  | None => true
  end.
End Calls.
End Calls.

(** ** JsonlStreamProcessor: the methods that manage the offset table *)

Module Offsets.
Section Offsets.
Variable JsonlRecord : Type.

Inductive Console : Type :=
| PositionInitialized (filePath : string) (size : nat)
| PositionInitError (filePath : string) (t : Thrown)
| PositionReset (filePath : string).

Inductive Event : Type :=
| Log (w : Console)
| Error (w : Console)
| Stat (filePath : string).

(** [initializeFilePosition]: record the current size of the file as its
    offset; a failing [stat] is logged and changes nothing. *)
Definition initializeFilePosition (p : Processor.JsonlStreamProcessor JsonlRecord)
    (fs : gmap string (list byte)) (filePath : string)
    : Processor.JsonlStreamProcessor JsonlRecord * list Event :=
  match fs !! filePath with
  | Some content =>
      (Processor.set_filePosition filePath (length content) p,
       [Stat filePath; Log (PositionInitialized filePath (length content))])
  | None =>
      (p, [Stat filePath; Error (PositionInitError filePath (Processor.ENOENT "stat" filePath))])
  end.

Definition resetFilePosition (p : Processor.JsonlStreamProcessor JsonlRecord) (filePath : string)
    : Processor.JsonlStreamProcessor JsonlRecord * list Event :=
  (Processor.resetFilePosition filePath p, [Log (PositionReset filePath)]).

End Offsets.
Arguments initializeFilePosition {JsonlRecord}.
Arguments resetFilePosition {JsonlRecord}.
End Offsets.

(** ** Vocabulary: what a read reports about each line *)

Module Report.
Section Report.
Context {JsonlRecord : Type}.

(** What becomes of a line that is not blank: its record is handed to the
    pipeline manager, or a [parse-error] is emitted with the line and the
    thrown value; both carry the line number. *)
Inductive LineReport : Type :=
| Dispatched (lineNumber : nat) (record : JsonlRecord)
| ParseFailed (lineNumber : nat) (line : list byte) (t : Thrown).

Definition line_reports (tr : list (Processor.Event JsonlRecord)) : list LineReport :=
  flat_map (fun e => match e with
                     | Processor.Dispatch record _ n _ => [Dispatched n record]
                     | Processor.Emit_parse_error _ n line t => [ParseFailed n line t]
                     | _ => []
                     end) tr.

Variable JSON_parse : list byte -> Outcome JsonlRecord.
Variable trim_is_empty : list byte -> bool.

(** The reports of [lines] when the line at index [i] (from 0, blank lines
    included) has the number [base + i + 1]; blank lines have no report. *)
Definition numbered_reports (base : nat) (lines : list (list byte)) : list LineReport :=
  concat (imap (fun i line =>
                  if trim_is_empty line then []
                  else match JSON_parse line with
                       | Ok record => [Dispatched (base + i + 1) record]
                       | Throw t => [ParseFailed (base + i + 1) line t]
                       end) lines).

(** The [record-error] event and the console message that goes with it. *)
Definition is_record_error (e : Processor.Event JsonlRecord) : bool :=
  match e with
  | Processor.Emit_record_error _ _ _ _ => true
  | Processor.Error (Processor.RecordProcessingError _) => true
  | _ => false
  end.
End Report.
Arguments LineReport : clear implicits.
End Report.

(** ** JsonlStreamServer: file events, plugin loading *)

Module Orchestrator.
(** [FileWatchEvent] of [types/index.ts]. *)
Inductive FileEventType : Type := add | change | unlink.

Record FileWatchEvent : Type := {
  ev_type : FileEventType;
  ev_path : string
}.

Section Orchestrator.
Variable JsonlRecord : Type.
Variable JSON_parse : list byte -> Outcome JsonlRecord.
Variable trim_is_empty : list byte -> bool.

Inductive Console : Type :=
| FileDeleted (path : string)
| FileMissing (path : string)
| FileEventError (path : string) (t : Thrown)
| FilterRegistered (n : string)
| OutputRegistered (n : string)
| PipelinesSet (count : nat)
| GlobalFiltersSet (names : list string)
| GlobalOutputsSet (names : list string).

(** Observable actions of the server while it handles a file event:
    its own console and events, and what the processor did on its behalf
    ([Offset]: a method of the offset table, [Pass]: one [processFile]). *)
Inductive Event : Type :=
| Log (w : Console)
| Warn (w : Console)
| Error (w : Console)
| Offset (inner : list Offsets.Event)
| Pass (inner : list (Processor.Event JsonlRecord))
| Emit_processing_error (filePath : string) (t : Thrown).

(** [handleFileEvent]; the file exists ([existsSync]) when the file system
    has an entry for its path. *)
Definition handleFileEvent (p : Processor.JsonlStreamProcessor JsonlRecord)
    (fs : gmap string (list byte)) (event : FileWatchEvent)
    : Processor.JsonlStreamProcessor JsonlRecord * Act.M Event unit :=
  match ev_type event with
  | unlink =>
      let '(p', tr) := Offsets.resetFilePosition p (ev_path event) in
      (p', ([Log (FileDeleted (ev_path event)); Offset tr], Ok tt))
  | _ =>
      match fs !! ev_path event with
      | None => (p, Act.tell (Warn (FileMissing (ev_path event))))
      | Some _ =>
          let '(p', (tr, o)) :=
            Processor.processFile JSON_parse trim_is_empty p fs (ev_path event) in
          (p', Act.try_catch ([Pass tr], o)
                 (fun t =>
                    Act.tell (Error (FileEventError (ev_path event) t)) ;;;
                    Act.tell (Emit_processing_error (ev_path event) t)))
      end
  end.

(** The server's own report of a failed pass: the console message and the
    [processing-error] event of its [catch] clause. *)
Definition is_failure (e : Event) : bool :=
  match e with
  | Error _ => true
  | Emit_processing_error _ _ => true
  | _ => false
  end.

(** The part of [ServerConfig] that the constructor hands to the pipeline
    manager and the processor; [None] is an absent property. *)
Record ServerConfig : Type := {
  cfg_filters : list (Pipeline.FilterPlugin JsonlRecord);
  cfg_outputs : list (Pipeline.OutputPlugin JsonlRecord);
  cfg_pipelines : list Pipeline.ProcessingPipeline;
  cfg_globalFilters : option (list string);
  cfg_globalOutputs : option (list string);
  cfg_enableBuffering : option bool
}.

(** [loadPlugins], starting from the manager the constructor created. *)
Definition loadPlugins (config : ServerConfig)
    (m : Pipeline.ProcessingPipelineManager JsonlRecord)
    : Pipeline.ProcessingPipelineManager JsonlRecord * list Event :=
  let m1 := foldl (fun acc f => Pipeline.addFilter f acc) m (cfg_filters config) in
  let m2 := foldl (fun acc o => Pipeline.addOutput o acc) m1 (cfg_outputs config) in
  let m3 := Pipeline.setPipelines (cfg_pipelines config) m2 in
  let '(m4, tr4) :=
    match cfg_globalFilters config with
    | Some names => (Pipeline.setGlobalFilters names m3, [Log (GlobalFiltersSet names)])
    | None => (m3, [])
    end in
  let '(m5, tr5) :=
    match cfg_globalOutputs config with
    | Some names => (Pipeline.setGlobalOutputs names m4, [Log (GlobalOutputsSet names)])
    | None => (m4, [])
    end in
  (m5,
   map (fun f => Log (FilterRegistered (Pipeline.f_name f))) (cfg_filters config)
   ++ map (fun o => Log (OutputRegistered (Pipeline.o_name o))) (cfg_outputs config)
   ++ [Log (PipelinesSet (length (cfg_pipelines config)))] ++ tr4 ++ tr5).

(** [config.options.enableBuffering !== false] *)
Definition buffering_of (config : ServerConfig) : bool :=
  match cfg_enableBuffering config with
  | Some false => false
  | _ => true
  end.

(** The pipeline manager and the processor as the constructor leaves
    them. *)
Definition construct (config : ServerConfig) : Processor.JsonlStreamProcessor JsonlRecord :=
  Processor.new (fst (loadPlugins config Pipeline.empty_manager)) (buffering_of config).
End Orchestrator.
Arguments Log {JsonlRecord}.
Arguments Warn {JsonlRecord}.
Arguments Error {JsonlRecord}.
Arguments Offset {JsonlRecord}.
Arguments Pass {JsonlRecord}.
Arguments Emit_processing_error {JsonlRecord}.
Arguments handleFileEvent {JsonlRecord}.
Arguments is_failure {JsonlRecord}.
Arguments cfg_filters {JsonlRecord}.
Arguments cfg_outputs {JsonlRecord}.
Arguments cfg_pipelines {JsonlRecord}.
Arguments cfg_globalFilters {JsonlRecord}.
Arguments cfg_globalOutputs {JsonlRecord}.
Arguments cfg_enableBuffering {JsonlRecord}.
Arguments Build_ServerConfig {JsonlRecord}.
Arguments loadPlugins {JsonlRecord}.
Arguments buffering_of {JsonlRecord}.
Arguments construct {JsonlRecord}.
End Orchestrator.

(** ** FileWatcher: debouncing of raw events *)

Module Debounce.
Section Debounce.
(** [extname] and [resolve] of module [path], and [toLowerCase]. *)
Variable extname : string -> string.
Variable toLowerCase : string -> string.
Variable resolve : string -> string.

Inductive Console : Type :=
| JsonlDetected (type : Orchestrator.FileEventType) (path : string)
| FileEventLog (type : Orchestrator.FileEventType) (path : string).

Inductive Event : Type :=
| Log (w : Console)
| ClearTimeout (path : string)
| SetTimeout (path : string)
| Emit_file_event (e : Orchestrator.FileWatchEvent).

(** [debounceTimers], with each pending timer represented by the event
    type its callback will deliver. *)
Local Abbreviation Timers := (gmap string Orchestrator.FileEventType).

(** [handleFileEvent(type, path)]: a raw event of the directory watcher. *)
Definition handleFileEvent (timers : Timers) (type : Orchestrator.FileEventType) (path : string)
    : Timers * list Event :=
  if negb (String.eqb (toLowerCase (extname path)) ".jsonl") then (timers, [])
  else
    (<[path := type]> timers,
     [Log (JsonlDetected type path)]
     ++ match timers !! path with
        | Some _ => [ClearTimeout path]
        | None => []
        end
     ++ [SetTimeout path]).

(** The callback of the timer pending for [path] runs. *)
Definition timeout (timers : Timers) (path : string) : Timers * list Event :=
  match timers !! path with
  | Some type =>
      (delete path timers,
       [Log (FileEventLog type path);
        Emit_file_event {| Orchestrator.ev_type := type;
                           Orchestrator.ev_path := resolve path |}])
  | None => (timers, [])
  end.

(** A run of raw events with no timer expiring in between. *)
Fixpoint raw_events (timers : Timers)
    (evs : list (Orchestrator.FileEventType * string)) : Timers * list Event :=
  match evs with
  | [] => (timers, [])
  | (type, path) :: rest =>
      let '(timers1, tr1) := handleFileEvent timers type path in
      let '(timers2, tr2) := raw_events timers1 rest in
      (timers2, tr1 ++ tr2)
  end.

Definition is_file_event (e : Event) : bool :=
  match e with
  | Emit_file_event _ => true
  | _ => false
  end.
End Debounce.
End Debounce.

(** ** cli.ts: command-line arguments *)

Module Cli.
(** [CliOptions]; [help] and [version] are either absent or [true]. *)
Record CliOptions : Type := {
  config : option string;
  help : bool;
  version : bool
}.

Definition set_config (c : option string) (o : CliOptions) : CliOptions :=
  {| config := c; help := help o; version := version o |}.

(** [arg.startsWith('-')]; the dash is character 45. *)
Definition startsWith_dash (arg : string) : bool :=
  match arg with
  | String c _ => Ascii.eqb c (Ascii.ascii_of_nat 45)
  | EmptyString => false
  end.

(** [!options.config]: absent or the empty string. *)
Definition config_unset (o : CliOptions) : bool :=
  match config o with
  | None => true
  | Some EmptyString => true
  | Some _ => false
  end.

Definition is_config_flag (arg : string) : bool := String.eqb arg "--config" || String.eqb arg "-c".
Definition is_help_flag (arg : string) : bool := String.eqb arg "--help" || String.eqb arg "-h".
Definition is_version_flag (arg : string) : bool := String.eqb arg "--version" || String.eqb arg "-v".

(** The loop of [parseArgs] from the arguments still to read; after a
    configuration flag the next argument is taken as it is, and is
    [undefined] when there is none. *)
Fixpoint parseArgs_from (options : CliOptions) (args : list string) : CliOptions :=
  match args with
  | [] => options
  | arg :: rest =>
      if is_config_flag arg then
        match rest with
        | [] => set_config None options
        | value :: rest' => parseArgs_from (set_config (Some value) options) rest'
        end
      else if is_help_flag arg then
        parseArgs_from {| config := config options; help := true; version := version options |} rest
      else if is_version_flag arg then
        parseArgs_from {| config := config options; help := help options; version := true |} rest
      else if negb (startsWith_dash arg) && config_unset options then
        parseArgs_from (set_config (Some arg) options) rest
      else parseArgs_from options rest
  end.

Definition parseArgs (args : list string) : CliOptions :=
  parseArgs_from {| config := None; help := false; version := false |} args.

(** An argument that can serve as the configuration path by position. *)
Definition positional (arg : string) : bool :=
  negb (startsWith_dash arg) && negb (String.eqb arg "").
End Cli.

(** ** Further plugins, pipelines and files for the worked examples *)

Module Fixtures2.
(** A filter registered under the empty name that rejects every record,
    and a pipeline whose [filter] is the empty string. *)
Definition unnamed_pipeline : Pipeline.ProcessingPipeline :=
  {| Pipeline.pl_name := "unnamed"; Pipeline.pl_filter := Some "";
     Pipeline.pl_filters := None; Pipeline.pl_outputs := ["Y"] |}.

Definition unnamed_manager : Pipeline.ProcessingPipelineManager nat :=
  Pipeline.setPipelines [unnamed_pipeline]
    (Pipeline.addOutput (Fixtures.sink "Y")
       (Pipeline.addFilter (Fixtures.reject_all "") Pipeline.empty_manager)).

(** Pipelines guarded by ["A"] (rejects) and by ["F"] (throws), around a
    pipeline guarded by ["B"] (accepts). *)
Definition rejected_pipeline : Pipeline.ProcessingPipeline :=
  {| Pipeline.pl_name := "rejected"; Pipeline.pl_filter := Some "A";
     Pipeline.pl_filters := None; Pipeline.pl_outputs := ["Y"] |}.
Definition faulty_pipeline : Pipeline.ProcessingPipeline :=
  {| Pipeline.pl_name := "faulty"; Pipeline.pl_filter := Some "F";
     Pipeline.pl_filters := None; Pipeline.pl_outputs := ["Y"] |}.

Definition guarded_manager : Pipeline.ProcessingPipelineManager nat :=
  Pipeline.setPipelines [Fixtures.second_pipeline; rejected_pipeline; faulty_pipeline]
    (Pipeline.addOutput (Fixtures.sink "Y")
       (Pipeline.addOutput (Fixtures.broken "X")
          (Pipeline.addFilter (Fixtures.failing_filter "F")
             (Pipeline.addFilter (Fixtures.reject_all "A")
                (Pipeline.addFilter (Fixtures.accept_all "B") Pipeline.empty_manager))))).

(** A pipeline with a registered, a failing, an unregistered and again a
    registered output. *)
Definition fanout_pipeline : Pipeline.ProcessingPipeline :=
  {| Pipeline.pl_name := "fanout"; Pipeline.pl_filter := Some "B";
     Pipeline.pl_filters := None; Pipeline.pl_outputs := ["Y"; "X"; "missing"; "Y"] |}.
End Fixtures2.

(** * Properties *)

(** ** Laws of the action monad *)

Section ActFacts.
Context {E A B : Type}.

Lemma bind_ok (tr : list E) (a : A) (k : A -> Act.M E B) :
  Act.bind (tr, Ok a) k = (tr ++ Act.trace (k a), Act.outcome (k a)).
Proof. unfold Act.bind, Act.trace, Act.outcome. by destruct (k a). Qed.

Lemma bind_throw (tr : list E) (t : Thrown) (k : A -> Act.M E B) :
  Act.bind (tr, Throw t) k = (tr, Throw t).
Proof. reflexivity. Qed.

Lemma try_catch_ok (tr : list E) (a : A) (h : Thrown -> Act.M E A) :
  Act.try_catch (tr, Ok a) h = (tr, Ok a).
Proof. reflexivity. Qed.

Lemma try_catch_throw (tr : list E) (t : Thrown) (h : Thrown -> Act.M E A) :
  Act.try_catch (tr, Throw t) h = (tr ++ Act.trace (h t), Act.outcome (h t)).
Proof. unfold Act.try_catch, Act.trace, Act.outcome. by destruct (h t). Qed.
End ActFacts.

(** ** The global filter gate *)

Section GlobalGate.
Context {JsonlRecord : Type}.
Variable m : Pipeline.ProcessingPipelineManager JsonlRecord.

Local Abbreviation quiet := (Forall (fun e => Observe.global_filter_action e = true)).

(** Applying the global filters never throws and does nothing but call
    global filters and write to the console. *)
Lemma applyGlobalFilters_from_total (names : list string) (record : JsonlRecord) :
  exists tr b, Pipeline.applyGlobalFilters_from m names record = (tr, Ok b) /\ quiet tr.
Proof.
  induction names as [|n names IH]; simpl.
  - exists [], true. split; [done | constructor].
  - destruct IH as (tr & b & Hrun & Hq).
    destruct (Pipeline.filters m !! n) as [f|] eqn:Hf.
    + unfold Pipeline.call_filter. simpl.
      destruct (Pipeline.filter f record) as [[|]|t] eqn:Hres; simpl.
      * rewrite Hrun. exists (Pipeline.CallFilter Pipeline.Global n record :: tr), b.
        split; [done | by constructor].
      * eexists _, false. split; [done |]. by repeat constructor.
      * eexists _, false. split; [done |]. by repeat constructor.
    + rewrite Hrun. simpl. eexists _, b. split; [done |]. by constructor.
Qed.

(** A registered global filter that does not answer [true] (it answers
    [false] or throws) closes the gate, whatever the filters before it do. *)
Lemma global_gate_closed (names : list string) (record : JsonlRecord)
    (n : string) (f : Pipeline.FilterPlugin JsonlRecord) :
  n ∈ names -> Pipeline.filters m !! n = Some f -> Pipeline.filter f record <> Ok true ->
  exists tr, Pipeline.applyGlobalFilters_from m names record = (tr, Ok false) /\ quiet tr.
Proof.
  intros Hin Hf Hno.
  induction names as [|a names IH]; [by apply not_elem_of_nil in Hin |].
  simpl. destruct (Pipeline.filters m !! a) as [fa|] eqn:Hfa.
  - unfold Pipeline.call_filter. simpl.
    destruct (Pipeline.filter fa record) as [[|]|t] eqn:Hres; simpl.
    + apply elem_of_cons in Hin as [->|Hin]; [congruence |].
      destruct (IH Hin) as (tr & -> & Hq).
      eexists. split; [done | by constructor].
    + eexists. split; [done |]. by repeat constructor.
    + eexists. split; [done |]. by repeat constructor.
  - apply elem_of_cons in Hin as [->|Hin]; [congruence |].
    destruct (IH Hin) as (tr & -> & Hq). simpl.
    eexists. split; [done | by constructor].
Qed.

(** With the gate closed, [processRecord] reports the record as filtered
    and is done. *)
Lemma processRecord_gate_closed (record : JsonlRecord) (filePath : string) (lineNumber : nat)
    (n : string) (f : Pipeline.FilterPlugin JsonlRecord) :
  n ∈ Pipeline.globalFilters m -> Pipeline.filters m !! n = Some f ->
  Pipeline.filter f record <> Ok true ->
  exists tr,
    Pipeline.processRecord m record filePath lineNumber
    = (tr ++ [Pipeline.Emit_record_filtered_global record filePath lineNumber], Ok tt)
    /\ quiet tr.
Proof.
  intros Hin Hf Hno.
  destruct (global_gate_closed _ record _ _ Hin Hf Hno) as (tr & Hrun & Hq).
  exists tr. split; [| done].
  unfold Pipeline.processRecord, Pipeline.applyGlobalFilters. by rewrite Hrun.
Qed.
End GlobalGate.

Section GlobalRejection.
Context {JsonlRecord : Type}.
Variable m : Pipeline.ProcessingPipelineManager JsonlRecord.

Lemma quiet_not_behind_gate (tr : list (Pipeline.Event JsonlRecord)) :
  Forall (fun e => Observe.global_filter_action e = true) tr ->
  Forall (fun e => Observe.behind_gate e = false) tr.
Proof.
  intros Hq. eapply Forall_impl; [exact Hq |].
  intros [[]|[]|[]| | | | | | |]; simpl; congruence.
Qed.

(** C4. A record that a registered global filter answers [false] for is
    dropped at the gate: the run consists of global-filter activity (calls
    of global filters, console messages about them) followed by exactly one
    [record-filtered-global] event, and it ends normally.  Nothing behind
    the gate happens: no pipeline filter is called, no output of a
    pipeline or of the global list is called, and neither a pipeline
    event nor the [pipeline-results] report is emitted. *)
Theorem global_rejection_short_circuits
    (record : JsonlRecord) (filePath : string) (lineNumber : nat)
    (n : string) (f : Pipeline.FilterPlugin JsonlRecord) :
  n ∈ Pipeline.globalFilters m ->
  Pipeline.filters m !! n = Some f ->
  Pipeline.filter f record = Ok false ->
  exists tr,
    Pipeline.processRecord m record filePath lineNumber
    = (tr ++ [Pipeline.Emit_record_filtered_global record filePath lineNumber], Ok tt)
    /\ Forall (fun e => Observe.global_filter_action e = true) tr
    /\ Forall (fun e => Observe.behind_gate e = false)
         (Act.trace (Pipeline.processRecord m record filePath lineNumber)).
Proof.
  intros Hin Hf Hres.
  destruct (processRecord_gate_closed m record filePath lineNumber n f Hin Hf)
    as (tr & Hrun & Hq); [congruence |].
  exists tr. repeat split; [done | done |].
  rewrite Hrun. simpl. apply Forall_app. split.
  - by apply quiet_not_behind_gate.
  - by repeat constructor.
Qed.

(** C10. A registered global filter whose call throws (or whose promise
    rejects) closes the gate just as a [false] answer does: the run is
    global-filter activity followed by one [record-filtered-global] event,
    it ends normally, no pipeline is evaluated, no output is called, and
    no [pipeline-results] or [pipeline-error] report carries the error. *)
Theorem global_filter_failure_rejects
    (record : JsonlRecord) (filePath : string) (lineNumber : nat)
    (n : string) (f : Pipeline.FilterPlugin JsonlRecord) (t : Thrown) :
  n ∈ Pipeline.globalFilters m ->
  Pipeline.filters m !! n = Some f ->
  Pipeline.filter f record = Throw t ->
  exists tr,
    Pipeline.processRecord m record filePath lineNumber
    = (tr ++ [Pipeline.Emit_record_filtered_global record filePath lineNumber], Ok tt)
    /\ Forall (fun e => Observe.global_filter_action e = true) tr
    /\ Forall (fun e => Observe.behind_gate e = false)
         (Act.trace (Pipeline.processRecord m record filePath lineNumber)).
Proof.
  intros Hin Hf Hres.
  destruct (processRecord_gate_closed m record filePath lineNumber n f Hin Hf)
    as (tr & Hrun & Hq); [congruence |].
  exists tr. repeat split; [done | done |].
  rewrite Hrun. simpl. apply Forall_app. split.
  - by apply quiet_not_behind_gate.
  - by repeat constructor.
Qed.
End GlobalRejection.

(** The gate of C4 on a concrete manager: global filters ["B"] (accepts)
    and ["A"] (rejects). *)
Lemma global_rejection_witness :
  "A" ∈ Pipeline.globalFilters (Fixtures.gated_manager (Fixtures.reject_all "A"))
  /\ exists tr,
       Pipeline.processRecord (Fixtures.gated_manager (Fixtures.reject_all "A")) 7 Fixtures.log_file 1
       = (tr ++ [Pipeline.Emit_record_filtered_global 7 Fixtures.log_file 1], Ok tt)
       /\ Forall (fun e => Observe.global_filter_action e = true) tr
       /\ Forall (fun e => Observe.behind_gate e = false)
            (Act.trace (Pipeline.processRecord
                          (Fixtures.gated_manager (Fixtures.reject_all "A")) 7 Fixtures.log_file 1)).
Proof.
  assert (Hin : "A" ∈ Pipeline.globalFilters (Fixtures.gated_manager (Fixtures.reject_all "A"))).
  { apply elem_of_cons. right. apply elem_of_cons. by left. }
  split; [exact Hin |].
  apply (global_rejection_short_circuits _ 7 Fixtures.log_file 1 "A" (Fixtures.reject_all "A"));
    [exact Hin | reflexivity | reflexivity].
Defined.

(** The gate of C10 on a concrete manager: global filters ["B"] (accepts)
    and ["F"] (throws). *)
Lemma global_filter_failure_witness :
  "F" ∈ Pipeline.globalFilters (Fixtures.gated_manager (Fixtures.failing_filter "F"))
  /\ exists tr,
       Pipeline.processRecord (Fixtures.gated_manager (Fixtures.failing_filter "F")) 7 Fixtures.log_file 1
       = (tr ++ [Pipeline.Emit_record_filtered_global 7 Fixtures.log_file 1], Ok tt)
       /\ Forall (fun e => Observe.global_filter_action e = true) tr
       /\ Forall (fun e => Observe.behind_gate e = false)
            (Act.trace (Pipeline.processRecord
                          (Fixtures.gated_manager (Fixtures.failing_filter "F")) 7 Fixtures.log_file 1)).
Proof.
  assert (Hin : "F" ∈ Pipeline.globalFilters (Fixtures.gated_manager (Fixtures.failing_filter "F"))).
  { apply elem_of_cons. right. apply elem_of_cons. by left. }
  split; [exact Hin |].
  apply (global_filter_failure_rejects _ 7 Fixtures.log_file 1 "F" (Fixtures.failing_filter "F")
           (ErrorObj "filter failed"));
    [exact Hin | reflexivity | reflexivity].
Defined.

(** ** Pipelines and their outputs *)

(** A loop that runs a body which never throws over a list, collecting the
    values: its trace and values over [xs ++ ys] are those over [xs]
    followed by those over [ys]. *)
Section Loops.
Context {E X V : Type}.
Variable body : X -> Act.M E V.
Variable loop : list X -> Act.M E (list V).
Hypothesis loop_nil : loop [] = Act.ret [].
Hypothesis loop_cons : forall x xs,
  loop (x :: xs) = (v <- body x ;; vs <- loop xs ;; Act.ret (v :: vs)).
Hypothesis body_total : forall x, exists tr v, body x = (tr, Ok v).

Lemma loop_total (xs : list X) : exists tr vs, loop xs = (tr, Ok vs).
Proof.
  induction xs as [|x xs (tr' & vs & IH)].
  - rewrite loop_nil. by eexists _, _.
  - destruct (body_total x) as (tr & v & Hb).
    rewrite loop_cons, Hb, IH. simpl. by eexists _, _.
Qed.

Lemma loop_app (xs ys : list X) tx vx ty vy :
  loop xs = (tx, Ok vx) -> loop ys = (ty, Ok vy) ->
  loop (xs ++ ys) = (tx ++ ty, Ok (vx ++ vy)).
Proof.
  revert tx vx. induction xs as [|x xs IH]; intros tx vx Hx Hy.
  - rewrite loop_nil in Hx. inversion Hx; subst. done.
  - destruct (body_total x) as (tr & v & Hb).
    destruct (loop_total xs) as (tx' & vx' & Hxs).
    rewrite loop_cons, Hb, Hxs in Hx. simpl in Hx. inversion Hx; subst.
    simpl. rewrite loop_cons, Hb, (IH _ _ Hxs Hy). simpl.
    by rewrite !app_nil_r, app_assoc.
Qed.

Lemma loop_one (x : X) tr v :
  body x = (tr, Ok v) -> loop [x] = (tr, Ok [v]).
Proof. intros Hb. rewrite loop_cons, Hb, loop_nil. simpl. by rewrite app_nil_r. Qed.

(** The round for [x] sits between the rounds before and after it. *)
Lemma loop_around (xs ys : list X) (x : X) tr v :
  body x = (tr, Ok v) ->
  exists tx vx ty vy,
    loop xs = (tx, Ok vx) /\ loop ys = (ty, Ok vy)
    /\ loop (xs ++ x :: ys) = (tx ++ tr ++ ty, Ok (vx ++ [v] ++ vy)).
Proof.
  intros Hb.
  destruct (loop_total xs) as (tx & vx & Hx).
  destruct (loop_total ys) as (ty & vy & Hy).
  exists tx, vx, ty, vy. repeat split; [done | done |].
  apply loop_app; [done |].
  change (x :: ys) with ([x] ++ ys). apply loop_app; [| done].
  by apply loop_one.
Qed.
End Loops.

Section PipelineFacts.
Context {JsonlRecord : Type}.
Variable m : Pipeline.ProcessingPipelineManager JsonlRecord.
Variables (record : JsonlRecord) (filePath : string) (lineNumber : nat).

Local Abbreviation out_step pipeline n :=
  (Pipeline.pipelineOutput_step m pipeline n record filePath lineNumber).
Local Abbreviation out_loop pipeline names :=
  (Pipeline.pipelineOutputs_from m pipeline names record filePath lineNumber).
Local Abbreviation pipe_step pipeline :=
  (Pipeline.processPipelines_step m pipeline record filePath lineNumber).
Local Abbreviation pipe_loop ps :=
  (Pipeline.processPipelines_from m ps record filePath lineNumber).

Lemma pipelineOutput_step_total pipeline (n : string) :
  exists tr r, out_step pipeline n = (tr, Ok r).
Proof.
  unfold Pipeline.pipelineOutput_step, Pipeline.call_output.
  destruct (Pipeline.outputs m !! n) as [o|]; simpl; [| by eexists _, _].
  destruct (Pipeline.output o record) as [[]|t]; simpl; by eexists _, _.
Qed.

Lemma pipelineOutputs_from_total pipeline (names : list string) :
  exists tr rs, out_loop pipeline names = (tr, Ok rs).
Proof.
  apply (loop_total (fun n => out_step pipeline n) (fun ns => out_loop pipeline ns));
    [done | done |].
  apply pipelineOutput_step_total.
Qed.

Lemma pipelineOutputs_around pipeline (xs ys : list string) (n : string) tr r :
  out_step pipeline n = (tr, Ok r) ->
  exists tx rx ty ry,
    out_loop pipeline xs = (tx, Ok rx) /\ out_loop pipeline ys = (ty, Ok ry)
    /\ out_loop pipeline (xs ++ n :: ys) = (tx ++ tr ++ ty, Ok (rx ++ [r] ++ ry)).
Proof.
  apply (loop_around (fun n => out_step pipeline n) (fun ns => out_loop pipeline ns));
    [done | done |].
  apply pipelineOutput_step_total.
Qed.

(** Past its filter, [processPipeline] is the output loop. *)
Lemma processPipeline_passed pipeline tr rs :
  Observe.filter_passes m pipeline record ->
  out_loop pipeline (Pipeline.pl_outputs pipeline) = (tr, Ok rs) ->
  Pipeline.processPipeline m pipeline record filePath lineNumber
  = (Observe.filter_stage pipeline record ++ tr,
     Ok {| Pipeline.pipelineName := Pipeline.pl_name pipeline; Pipeline.success := true;
           Pipeline.filtered := Some false; Pipeline.error := None;
           Pipeline.outputResults := rs |}).
Proof.
  unfold Observe.filter_passes, Observe.filter_stage, Pipeline.processPipeline,
    Pipeline.pipelineOutputs.
  intros Hpass Hout.
  destruct (Pipeline.truthy (Pipeline.pl_filter pipeline)) as [fname|].
  - destruct Hpass as (f & -> & Hf). unfold Pipeline.call_filter. simpl.
    rewrite Hf. simpl. rewrite Hout. simpl. by rewrite app_nil_r.
  - rewrite Hout. simpl. by rewrite app_nil_r.
Qed.

Lemma processPipelines_step_total pipeline :
  exists tr r, pipe_step pipeline = (tr, Ok r).
Proof.
  unfold Pipeline.processPipelines_step.
  destruct (Pipeline.processPipeline m pipeline record filePath lineNumber) as [tr [r|t]];
    simpl; by eexists _, _.
Qed.

Lemma processPipelines_from_total (ps : list Pipeline.ProcessingPipeline) :
  exists tr rs, pipe_loop ps = (tr, Ok rs).
Proof.
  apply (loop_total (fun p => pipe_step p) (fun ps => pipe_loop ps)); [done | done |].
  apply processPipelines_step_total.
Qed.

Lemma processPipelines_around (xs ys : list Pipeline.ProcessingPipeline) pipeline tr r :
  pipe_step pipeline = (tr, Ok r) ->
  exists tx rx ty ry,
    pipe_loop xs = (tx, Ok rx) /\ pipe_loop ys = (ty, Ok ry)
    /\ pipe_loop (xs ++ pipeline :: ys) = (tx ++ tr ++ ty, Ok (rx ++ [r] ++ ry)).
Proof.
  apply (loop_around (fun p => pipe_step p) (fun ps => pipe_loop ps)); [done | done |].
  apply processPipelines_step_total.
Qed.

Lemma applyGlobalOutputs_from_total (names : list string) :
  exists tr, Pipeline.applyGlobalOutputs_from m names record filePath lineNumber = (tr, Ok tt).
Proof.
  induction names as [|n names (tr & IH)]; simpl; [by eexists |].
  destruct (Pipeline.outputs m !! n) as [o|]; simpl.
  - unfold Pipeline.call_output. simpl.
    destruct (Pipeline.output o record) as [[]|t]; simpl; rewrite IH; by eexists.
  - rewrite IH. by eexists.
Qed.

(** [processPipeline] reads the fields [name], [filter] and [outputs] of a
    pipeline and nothing else: the list [filters] has no influence. *)
Lemma processPipeline_ignores_filters (p q : Pipeline.ProcessingPipeline) :
  Pipeline.pl_name p = Pipeline.pl_name q ->
  Pipeline.pl_filter p = Pipeline.pl_filter q ->
  Pipeline.pl_outputs p = Pipeline.pl_outputs q ->
  Pipeline.processPipeline m p record filePath lineNumber
  = Pipeline.processPipeline m q record filePath lineNumber.
Proof.
  destruct p as [pn pf pfs po], q as [qn qf qfs qo]. simpl.
  intros -> -> ->.
  assert (Hloop : forall names,
    Pipeline.pipelineOutputs_from m (Pipeline.Build_ProcessingPipeline qn qf pfs qo)
      names record filePath lineNumber
    = Pipeline.pipelineOutputs_from m (Pipeline.Build_ProcessingPipeline qn qf qfs qo)
      names record filePath lineNumber).
  { induction names as [|n names IH]; [done |]. simpl. by rewrite IH. }
  unfold Pipeline.processPipeline, Pipeline.pipelineOutputs. simpl.
  rewrite Hloop. done.
Qed.
End PipelineFacts.

(** C1.  Evaluation of the engine on a pipeline that declares the filter
    list [["A"; "B"]]: although ["A"] is registered and answers [false] for
    the record, [processPipeline] calls no filter, calls the output ["X"],
    raises no [record-filtered-pipeline] event and reports the pipeline as
    not filtered.  The conjunction the claim describes is not applied. *)
Theorem conjunction_filter_list_not_applied :
  Pipeline.filters Fixtures.conjunction_manager !! "A" = Some (Fixtures.reject_all "A")
  /\ Pipeline.filter (Fixtures.reject_all "A") 7 = Ok false
  /\ Pipeline.processPipeline Fixtures.conjunction_manager Fixtures.conjunction_pipeline
       7 Fixtures.log_file 1
     = ([Pipeline.CallOutput (Pipeline.InPipeline "p") "X" 7;
         Pipeline.Emit_record_output_pipeline 7 "p" "X" Fixtures.log_file 1],
        Ok {| Pipeline.pipelineName := "p"; Pipeline.success := true;
              Pipeline.filtered := Some false; Pipeline.error := None;
              Pipeline.outputResults :=
                [{| Pipeline.outputName := "X"; Pipeline.o_success := true;
                    Pipeline.o_error := None |}] |}).
Proof. repeat split; vm_compute; reflexivity. Qed.

Section Isolation.
Context {JsonlRecord : Type}.
Variable m : Pipeline.ProcessingPipelineManager JsonlRecord.
Variables (record : JsonlRecord) (filePath : string) (lineNumber : nat).

(** C5.  Let the record pass the global filters and let [pipeline], one
    of the configured pipelines, let it through to its outputs [[X; Y]],
    where calling [X] throws [t] and calling [Y] succeeds.  Then [Y] is
    called after [X] for the same record, the pipelines before and after
    [pipeline] run exactly as they do on their own, and the one
    [pipeline-results] report lists, at [pipeline]'s place, [X] as failed
    and [Y] as succeeded.  The error text of [X]'s entry is the message of
    [t] when [t] is an [Error], and ["Unknown error"] otherwise. *)
Theorem output_failure_is_isolated
    (before after : list Pipeline.ProcessingPipeline) (pipeline : Pipeline.ProcessingPipeline)
    (X Y : string) (ox oy : Pipeline.OutputPlugin JsonlRecord) (t : Thrown) :
  Act.outcome (Pipeline.applyGlobalFilters m record) = Ok true ->
  Pipeline.pipelines m = before ++ pipeline :: after ->
  Observe.filter_passes m pipeline record ->
  Pipeline.pl_outputs pipeline = [X; Y] ->
  Pipeline.outputs m !! X = Some ox -> Pipeline.output ox record = Throw t ->
  Pipeline.outputs m !! Y = Some oy -> Pipeline.output oy record = Ok tt ->
  exists tg tb rb ta ra tgo,
    Pipeline.processPipelines_from m before record filePath lineNumber = (tb, Ok rb)
    /\ Pipeline.processPipelines_from m after record filePath lineNumber = (ta, Ok ra)
    /\ Pipeline.processRecord m record filePath lineNumber
       = (tg ++ tb
             ++ (Observe.filter_stage pipeline record
                 ++ [Pipeline.CallOutput (Pipeline.InPipeline (Pipeline.pl_name pipeline)) X record;
                     Pipeline.Error (Pipeline.PipelineOutputError (Pipeline.pl_name pipeline) X t);
                     Pipeline.CallOutput (Pipeline.InPipeline (Pipeline.pl_name pipeline)) Y record;
                     Pipeline.Emit_record_output_pipeline record (Pipeline.pl_name pipeline) Y
                       filePath lineNumber])
             ++ ta ++ tgo
             ++ [Pipeline.Emit_pipeline_results record filePath lineNumber
                   (rb ++ [{| Pipeline.pipelineName := Pipeline.pl_name pipeline;
                              Pipeline.success := true; Pipeline.filtered := Some false;
                              Pipeline.error := None;
                              Pipeline.outputResults :=
                                [{| Pipeline.outputName := X; Pipeline.o_success := false;
                                    Pipeline.o_error :=
                                      Some match t with
                                           | ErrorObj message => message
                                           | NonError => "Unknown error"
                                           end |};
                                 {| Pipeline.outputName := Y; Pipeline.o_success := true;
                                    Pipeline.o_error := None |}] |}] ++ ra)],
          Ok tt).
Proof.
  intros Hgate Hps Hpass Houts HX HtX HY HtY.
  (* the pipeline itself *)
  assert (Hloop : Pipeline.pipelineOutputs_from m pipeline [X; Y] record filePath lineNumber
    = ([Pipeline.CallOutput (Pipeline.InPipeline (Pipeline.pl_name pipeline)) X record;
        Pipeline.Error (Pipeline.PipelineOutputError (Pipeline.pl_name pipeline) X t);
        Pipeline.CallOutput (Pipeline.InPipeline (Pipeline.pl_name pipeline)) Y record;
        Pipeline.Emit_record_output_pipeline record (Pipeline.pl_name pipeline) Y
          filePath lineNumber],
       Ok [{| Pipeline.outputName := X; Pipeline.o_success := false;
              Pipeline.o_error :=
                Some match t with
                     | ErrorObj message => message
                     | NonError => "Unknown error"
                     end |};
           {| Pipeline.outputName := Y; Pipeline.o_success := true;
              Pipeline.o_error := None |}])).
  { simpl. unfold Pipeline.pipelineOutput_step, Pipeline.call_output.
    rewrite HX, HY. simpl. rewrite HtX, HtY. reflexivity. }
  rewrite <- Houts in Hloop.
  pose proof (processPipeline_passed m record filePath lineNumber pipeline _ _ Hpass Hloop)
    as Hpipe.
  assert (Hstep : Pipeline.processPipelines_step m pipeline record filePath lineNumber
                  = Pipeline.processPipeline m pipeline record filePath lineNumber).
  { unfold Pipeline.processPipelines_step. by rewrite Hpipe. }
  rewrite Hpipe in Hstep.
  destruct (processPipelines_around m record filePath lineNumber before after pipeline _ _ Hstep)
    as (tb & rb & ta & ra & Hb & Ha & Hall).
  (* the gate and the global outputs *)
  destruct (applyGlobalFilters_from_total m (Pipeline.globalFilters m) record)
    as (tg & b & Hg & _).
  unfold Pipeline.applyGlobalFilters in Hgate. rewrite Hg in Hgate. simpl in Hgate.
  injection Hgate as ->.
  destruct (applyGlobalOutputs_from_total m record filePath lineNumber (Pipeline.globalOutputs m))
    as (tgo & Hgo).
  exists tg, tb, rb, ta, ra,
    (if 0 <? length (Pipeline.globalOutputs m) then tgo else []).
  repeat split; [done | done |].
  unfold Pipeline.processRecord, Pipeline.applyGlobalFilters, Pipeline.processPipelines,
    Pipeline.applyGlobalOutputs.
  rewrite Hg, Hps, Hall. simpl.
  destruct (0 <? length (Pipeline.globalOutputs m)).
  - rewrite Hgo. simpl. by rewrite <- !app_assoc.
  - simpl. by rewrite <- !app_assoc.
Qed.

(** X28.  (1) A pipeline whose [filter] field names a plugin that is not
    registered yields a failed result carrying the error text, for that
    pipeline alone: the pipelines before and after it run exactly as they
    do on their own and their results surround the failed one.  (2) In a
    pipeline that reaches its outputs, an output name that is not
    registered yields a warning and a failed entry
    ['Output plugin not found']; the registered output [Y] that follows it
    is called for the record right after the warning and reported as
    succeeded, and the outputs before the missing one and after [Y] are
    processed exactly as they are on their own. *)
Theorem missing_registrations_are_local
    (before after : list Pipeline.ProcessingPipeline) (orphan : Pipeline.ProcessingPipeline)
    (filterName : string)
    (pipeline : Pipeline.ProcessingPipeline) (outs_before outs_after : list string)
    (outputName Y : string) (oy : Pipeline.OutputPlugin JsonlRecord) :
  (Pipeline.truthy (Pipeline.pl_filter orphan) = Some filterName ->
   Pipeline.filters m !! filterName = None ->
   exists tb rb ta ra,
     Pipeline.processPipelines_from m before record filePath lineNumber = (tb, Ok rb)
     /\ Pipeline.processPipelines_from m after record filePath lineNumber = (ta, Ok ra)
     /\ Pipeline.processPipelines_from m (before ++ orphan :: after) record filePath lineNumber
        = (tb ++ [Pipeline.Error
                    (Pipeline.PipelineError (Pipeline.pl_name orphan)
                       (ErrorObj ("フィルターが見つかりません: " +:+ filterName)))] ++ ta,
           Ok (rb ++ [{| Pipeline.pipelineName := Pipeline.pl_name orphan;
                         Pipeline.success := false; Pipeline.filtered := None;
                         Pipeline.error :=
                           Some ("フィルターが見つかりません: " +:+ filterName);
                         Pipeline.outputResults := [] |}] ++ ra)))
  /\
  (Observe.filter_passes m pipeline record ->
   Pipeline.pl_outputs pipeline = outs_before ++ outputName :: Y :: outs_after ->
   Pipeline.outputs m !! outputName = None ->
   Pipeline.outputs m !! Y = Some oy -> Pipeline.output oy record = Ok tt ->
   exists tb rb ta ra,
     Pipeline.pipelineOutputs_from m pipeline outs_before record filePath lineNumber = (tb, Ok rb)
     /\ Pipeline.pipelineOutputs_from m pipeline outs_after record filePath lineNumber = (ta, Ok ra)
     /\ Pipeline.processPipeline m pipeline record filePath lineNumber
        = (Observe.filter_stage pipeline record
             ++ tb
             ++ [Pipeline.Warn (Pipeline.OutputNotFound outputName);
                 Pipeline.CallOutput (Pipeline.InPipeline (Pipeline.pl_name pipeline)) Y record;
                 Pipeline.Emit_record_output_pipeline record (Pipeline.pl_name pipeline) Y
                   filePath lineNumber]
             ++ ta,
           Ok {| Pipeline.pipelineName := Pipeline.pl_name pipeline;
                 Pipeline.success := true; Pipeline.filtered := Some false;
                 Pipeline.error := None;
                 Pipeline.outputResults :=
                   rb ++ [{| Pipeline.outputName := outputName; Pipeline.o_success := false;
                             Pipeline.o_error := Some "Output plugin not found" |};
                          {| Pipeline.outputName := Y; Pipeline.o_success := true;
                             Pipeline.o_error := None |}] ++ ra |})).
Proof.
  split.
  - intros Hname Hmissing.
    apply processPipelines_around.
    unfold Pipeline.processPipelines_step, Pipeline.processPipeline.
    rewrite Hname, Hmissing. reflexivity.
  - intros Hpass Houts Hmissing HY HtY.
    assert (Hstep : Pipeline.pipelineOutput_step m pipeline outputName record filePath lineNumber
      = ([Pipeline.Warn (Pipeline.OutputNotFound outputName)],
         Ok {| Pipeline.outputName := outputName; Pipeline.o_success := false;
               Pipeline.o_error := Some "Output plugin not found" |})).
    { unfold Pipeline.pipelineOutput_step. by rewrite Hmissing. }
    assert (HstepY : Pipeline.pipelineOutput_step m pipeline Y record filePath lineNumber
      = ([Pipeline.CallOutput (Pipeline.InPipeline (Pipeline.pl_name pipeline)) Y record;
          Pipeline.Emit_record_output_pipeline record (Pipeline.pl_name pipeline) Y
            filePath lineNumber],
         Ok {| Pipeline.outputName := Y; Pipeline.o_success := true;
               Pipeline.o_error := None |})).
    { unfold Pipeline.pipelineOutput_step, Pipeline.call_output.
      rewrite HY. simpl. by rewrite HtY. }
    destruct (pipelineOutputs_around m record filePath lineNumber pipeline
                outs_before (Y :: outs_after) outputName _ _ Hstep)
      as (tb & rb & ty & ry & Hb & Hy & Hall).
    destruct (pipelineOutputs_around m record filePath lineNumber pipeline
                [] outs_after Y _ _ HstepY)
      as (t0 & r0 & ta & ra & H0 & Ha & HallY).
    simpl in H0. injection H0 as <- <-.
    rewrite app_nil_l in HallY. rewrite Hy in HallY. injection HallY as -> ->.
    exists tb, rb, ta, ra. repeat split; [done | done |].
    rewrite <- Houts in Hall.
    rewrite (processPipeline_passed m record filePath lineNumber pipeline _ _ Hpass Hall).
    simpl. reflexivity.
Qed.
End Isolation.

Section IsolationExamples.
Import Pipeline Fixtures.

(** C5 on [isolation_manager]: the first pipeline sends to ["X"] (throws)
    and ["Y"]; a second pipeline follows. *)
Lemma output_failure_witness :
  exists tg tb rb ta ra tgo,
    processPipelines_from isolation_manager [] 7 log_file 1 = (tb, Ok rb)
    /\ processPipelines_from isolation_manager [second_pipeline] 7 log_file 1 = (ta, Ok ra)
    /\ processRecord isolation_manager 7 log_file 1
       = (tg ++ tb
             ++ (Observe.filter_stage isolation_pipeline 7
                 ++ [CallOutput (InPipeline (pl_name isolation_pipeline)) "X" 7;
                     Error (PipelineOutputError (pl_name isolation_pipeline) "X"
                              (ErrorObj "write failed"));
                     CallOutput (InPipeline (pl_name isolation_pipeline)) "Y" 7;
                     Emit_record_output_pipeline 7 (pl_name isolation_pipeline) "Y" log_file 1])
             ++ ta ++ tgo
             ++ [Emit_pipeline_results 7 log_file 1
                   (rb ++ [{| pipelineName := pl_name isolation_pipeline;
                              success := true; filtered := Some false; error := None;
                              outputResults :=
                                [{| outputName := "X"; o_success := false;
                                    o_error := Some "write failed" |};
                                 {| outputName := "Y"; o_success := true;
                                    o_error := None |}] |}] ++ ra)],
          Ok tt).
Proof.
  apply (output_failure_is_isolated isolation_manager 7 log_file 1
           [] [second_pipeline] isolation_pipeline "X" "Y" (broken "X") (sink "Y")
           (ErrorObj "write failed"));
    [reflexivity | reflexivity | exact I | reflexivity
    | reflexivity | reflexivity | reflexivity | reflexivity].
Defined.

(** X28 on [lookup_manager]: the [filter] of [orphan_pipeline] names the
    unregistered plugin ["nowhere"]; [gap_pipeline] has the unregistered
    output ["missing"] between two calls of ["Y"]. *)
Lemma missing_registrations_witness :
  (exists tb rb ta ra,
     processPipelines_from lookup_manager [] 7 log_file 1 = (tb, Ok rb)
     /\ processPipelines_from lookup_manager [gap_pipeline] 7 log_file 1 = (ta, Ok ra)
     /\ processPipelines_from lookup_manager ([] ++ orphan_pipeline :: [gap_pipeline])
          7 log_file 1
        = (tb ++ [Error (PipelineError (pl_name orphan_pipeline)
                           (ErrorObj ("フィルターが見つかりません: " +:+ "nowhere")))] ++ ta,
           Ok (rb ++ [{| pipelineName := pl_name orphan_pipeline;
                         success := false; filtered := None;
                         error := Some ("フィルターが見つかりません: " +:+ "nowhere");
                         outputResults := [] |}] ++ ra)))
  /\
  (exists tb rb ta ra,
     pipelineOutputs_from lookup_manager gap_pipeline ["Y"] 7 log_file 1 = (tb, Ok rb)
     /\ pipelineOutputs_from lookup_manager gap_pipeline [] 7 log_file 1 = (ta, Ok ra)
     /\ processPipeline lookup_manager gap_pipeline 7 log_file 1
        = (Observe.filter_stage gap_pipeline 7
             ++ tb
             ++ [Warn (OutputNotFound "missing");
                 CallOutput (InPipeline (pl_name gap_pipeline)) "Y" 7;
                 Emit_record_output_pipeline 7 (pl_name gap_pipeline) "Y" log_file 1]
             ++ ta,
           Ok {| pipelineName := pl_name gap_pipeline;
                 success := true; filtered := Some false; error := None;
                 outputResults :=
                   rb ++ [{| outputName := "missing"; o_success := false;
                             o_error := Some "Output plugin not found" |};
                          {| outputName := "Y"; o_success := true;
                             o_error := None |}] ++ ra |})).
Proof.
  destruct (missing_registrations_are_local lookup_manager 7 log_file 1
              [] [gap_pipeline] orphan_pipeline "nowhere"
              gap_pipeline ["Y"] [] "missing" "Y" (sink "Y")) as [Hfilter Houtput].
  split.
  - apply Hfilter; reflexivity.
  - apply Houtput; [| reflexivity | reflexivity | reflexivity | reflexivity].
    exists (accept_all "B"). split; reflexivity.
Defined.

(** C6.  Evaluation of the engine on a pipeline that declares the filter
    list [["nowhere"]], where no filter ["nowhere"] is registered.  The
    missing filter goes unnoticed: no error is raised or logged, the
    output ["Y"] of the pipeline is called for the record, and the
    pipeline is reported as succeeded and not filtered, not as failed.
    (The pipeline after it runs as usual.)  The cause is the one of C1:
    [processPipeline] never consults the list [filters]. *)
Theorem missing_filter_in_list_goes_unnoticed :
  Pipeline.filters unlisted_manager !! "nowhere" = None
  /\ pl_filters unlisted_pipeline = Some ["nowhere"]
  /\ processPipelines unlisted_manager 7 log_file 1
     = ([CallOutput (InPipeline "unlisted") "Y" 7;
         Emit_record_output_pipeline 7 "unlisted" "Y" log_file 1;
         CallFilter (InPipeline "second") "B" 7;
         CallOutput (InPipeline "second") "Y" 7;
         Emit_record_output_pipeline 7 "second" "Y" log_file 1],
        Ok [{| pipelineName := "unlisted"; success := true; filtered := Some false;
               error := None;
               outputResults :=
                 [{| outputName := "Y"; o_success := true; o_error := None |}] |};
            {| pipelineName := "second"; success := true; filtered := Some false;
               error := None;
               outputResults :=
                 [{| outputName := "Y"; o_success := true; o_error := None |}] |}]).
Proof. repeat split; vm_compute; reflexivity. Qed.
End IsolationExamples.

(** ** Lines *)






(** ** A pass over a file that nobody writes meanwhile *)

Section QuietFile.
Context {JsonlRecord : Type}.
Variable JSON_parse : list byte -> Outcome JsonlRecord.
Variable trim_is_empty : list byte -> bool.

Lemma processFileWithBuffering_eq (p : Processor.JsonlStreamProcessor JsonlRecord)
    (fs : gmap string (list byte)) (filePath : string) :
  Processor.processFileWithBuffering JSON_parse trim_is_empty p fs filePath =
  match fs !! filePath with
  | None =>
      (p, Act.tell (Processor.Stat filePath) ;;;
          Act.throw (Processor.ENOENT "stat" filePath))
  | Some content =>
      let size := length content in
      let lastPosition := Processor.getFilePosition p filePath in
      if size <? lastPosition then
        let p' := Processor.set_filePosition filePath 0 p in
        (p', Act.tell (Processor.Stat filePath) ;;;
             Act.tell (Processor.Log (Processor.FileTruncated filePath)) ;;;
             Processor.processFileComplete JSON_parse trim_is_empty p' fs filePath)
      else if size =? lastPosition then
        (p, Act.tell (Processor.Stat filePath) ;;;
            Act.tell (Processor.Log (Processor.NoNewData filePath)))
      else
        let data := drop lastPosition content in
        let reading :=
          Act.tell (Processor.Stat filePath) ;;;
          Act.tell (Processor.Log (Processor.BufferedRead filePath lastPosition size)) ;;;
          Act.tell (Processor.ReadStream filePath lastPosition data) ;;;
          Processor.processLines JSON_parse trim_is_empty p filePath (readline data)
            (Processor.getLineNumberFromPosition filePath lastPosition) in
        match Act.outcome reading with
        | Ok _ => (Processor.set_filePosition filePath size p, reading)
        | Throw _ => (p, reading)
        end
  end.
Proof.
  unfold Processor.processFileWithBuffering, Processor.processFileWithBuffering_during.
  destruct (fs !! filePath); reflexivity.
Qed.

Lemma processFile_finish_eq (p : Processor.JsonlStreamProcessor JsonlRecord)
    (fs : gmap string (list byte)) (filePath : string) :
  Processor.processFile_finish JSON_parse trim_is_empty p fs filePath =
  let '(p1, reading) :=
    if Processor.enableBuffering p
    then Processor.processFileWithBuffering JSON_parse trim_is_empty p fs filePath
    else (p, Processor.processFileComplete JSON_parse trim_is_empty p fs filePath) in
  (Processor.set_isProcessing false p1,
   Act.try_catch
     (reading ;;; Act.tell (Processor.Emit_processing_complete filePath))
     (fun t =>
        Act.tell (Processor.Error (Processor.FileProcessingError filePath t)) ;;;
        Act.tell (Processor.Emit_processing_error filePath t))).
Proof. reflexivity. Qed.

Lemma processFile_eq (p : Processor.JsonlStreamProcessor JsonlRecord)
    (fs : gmap string (list byte)) (filePath : string) :
  Processor.processFile JSON_parse trim_is_empty p fs filePath =
  match Processor.processFile_begin p filePath with
  | (None, tr) => (p, (tr, Ok tt))
  | (Some p1, tr) =>
      let '(p2, (tr', o)) :=
        Processor.processFile_finish JSON_parse trim_is_empty p1 fs filePath in
      (p2, (tr ++ tr', o))
  end.
Proof. reflexivity. Qed.

End QuietFile.

(** ** One read pass *)

Section ReadPass.
Context {JsonlRecord : Type}.
Variable JSON_parse : list byte -> Outcome JsonlRecord.
Variable trim_is_empty : list byte -> bool.

Local Abbreviation nonblank := (fun line : list byte => negb (trim_is_empty line)).
Local Abbreviation run_file := (Processor.processFile JSON_parse trim_is_empty).

Lemma parsed_lines_app (tr1 tr2 : list (Processor.Event JsonlRecord)) :
  Observe.parsed_lines (tr1 ++ tr2) = Observe.parsed_lines tr1 ++ Observe.parsed_lines tr2.
Proof. apply flat_map_app. Qed.

Lemma stream_reads_app (tr1 tr2 : list (Processor.Event JsonlRecord)) :
  Observe.stream_reads (tr1 ++ tr2) = Observe.stream_reads tr1 ++ Observe.stream_reads tr2.
Proof. apply flat_map_app. Qed.

(** Handing a record to the manager never throws, parses nothing and reads
    nothing from disk. *)
Lemma processRecord_total (p : Processor.JsonlStreamProcessor JsonlRecord)
    (record : JsonlRecord) (filePath : string) (lineNumber : nat) :
  exists tr, Processor.processRecord p record filePath lineNumber = (tr, Ok tt)
             /\ Observe.parsed_lines tr = [] /\ Observe.stream_reads tr = [].
Proof.
  unfold Processor.processRecord.
  destruct (Pipeline.processRecord (Processor.pipelineManager p) record filePath lineNumber)
    as [inner [[]|t]]; simpl; by eexists.
Qed.

(** The line loop never throws; it hands exactly the non-blank lines to
    [JSON.parse], in order, and reads nothing from disk. *)
Lemma processLines_total (p : Processor.JsonlStreamProcessor JsonlRecord)
    (filePath : string) (lines : list (list byte)) (lineNumber : nat) :
  exists tr,
    Processor.processLines JSON_parse trim_is_empty p filePath lines lineNumber = (tr, Ok tt)
    /\ Observe.parsed_lines tr = List.filter nonblank lines
    /\ Observe.stream_reads tr = [].
Proof.
  revert lineNumber. induction lines as [|line lines IH]; intros n; simpl.
  - by exists [].
  - destruct (IH (S n)) as (tr & Hrun & Hparsed & Hreads).
    destruct (trim_is_empty line) eqn:Hblank; simpl.
    + by exists tr.
    + destruct (JSON_parse line) as [record|t]; simpl.
      * destruct (processRecord_total p record filePath (S n)) as (trr & -> & Hp & Hr).
        simpl. rewrite Hrun. simpl. eexists. split; [done |].
        rewrite ?app_nil_r. unfold Observe.parsed_lines, Observe.stream_reads in *. simpl.
        by rewrite !flat_map_app, Hp, Hr, Hparsed, Hreads.
      * rewrite Hrun. simpl. eexists. split; [done |].
        unfold Observe.parsed_lines, Observe.stream_reads in *. simpl.
        by rewrite Hparsed, Hreads.
Qed.

Lemma set_isProcessing_idle (p : Processor.JsonlStreamProcessor JsonlRecord)
    (filePath : string) (pos : nat) :
  Processor.isProcessing p = false ->
  Processor.set_isProcessing false
    (Processor.set_filePosition filePath pos (Processor.set_isProcessing true p))
  = Processor.set_filePosition filePath pos p.
Proof. destruct p; simpl; intros ->; reflexivity. Qed.

Lemma set_isProcessing_back (p : Processor.JsonlStreamProcessor JsonlRecord) :
  Processor.isProcessing p = false ->
  Processor.set_isProcessing false (Processor.set_isProcessing true p) = p.
Proof. destruct p; simpl; intros ->; reflexivity. Qed.

Lemma getFilePosition_set (p : Processor.JsonlStreamProcessor JsonlRecord)
    (filePath : string) (pos : nat) :
  Processor.getFilePosition (Processor.set_filePosition filePath pos p) filePath = pos.
Proof. unfold Processor.getFilePosition. simpl. by rewrite lookup_insert_eq. Qed.

Section Idle.
Variable p : Processor.JsonlStreamProcessor JsonlRecord.
Variable fs : gmap string (list byte).
Variable filePath : string.
Variable content : list byte.
Hypothesis idle : Processor.isProcessing p = false.
Hypothesis buffering : Processor.enableBuffering p = true.
Hypothesis on_disk : fs !! filePath = Some content.

(** New bytes beyond the stored offset: they are streamed from the offset
    to the end of the file, every non-blank line among them is parsed, and
    the offset becomes the size of the file. *)
Lemma processFile_new_data :
  Processor.getFilePosition p filePath < length content ->
  exists tr,
    run_file p fs filePath
    = (Processor.set_filePosition filePath (length content) p, (tr, Ok tt))
    /\ Observe.stream_reads tr
       = [(Processor.getFilePosition p filePath,
           drop (Processor.getFilePosition p filePath) content)]
    /\ Observe.parsed_lines tr
       = List.filter nonblank (readline (drop (Processor.getFilePosition p filePath) content)).
Proof.
  intros Hlt.
  rewrite processFile_eq; unfold Processor.processFile_begin; cbv beta zeta. rewrite idle.
  rewrite processFile_finish_eq; cbv beta zeta. simpl. rewrite buffering.
  rewrite processFileWithBuffering_eq; cbv beta zeta. rewrite on_disk.
  change (Processor.getFilePosition (Processor.set_isProcessing true p) filePath)
    with (Processor.getFilePosition p filePath).
  set (last := Processor.getFilePosition p filePath) in *.
  destruct (Nat.ltb_spec (length content) last) as [|_]; [lia |].
  destruct (Nat.eqb_spec (length content) last) as [|_]; [lia |].
  destruct (processLines_total (Processor.set_isProcessing true p) filePath
              (readline (drop last content))
              (Processor.getLineNumberFromPosition filePath last))
    as (tr & Hrun & Hparsed & Hreads).
  simpl. rewrite Hrun. simpl.
  rewrite set_isProcessing_idle by done.
  eexists. split; [done |].
  unfold Observe.parsed_lines, Observe.stream_reads in *. simpl.
  rewrite !flat_map_app, Hparsed, Hreads. simpl. by rewrite app_nil_r.
Qed.

(** Nothing new: no stream is opened, nothing is parsed, the state is
    unchanged. *)
Lemma processFile_no_new_data :
  Processor.getFilePosition p filePath = length content ->
  run_file p fs filePath
  = (p, ([Processor.Emit_processing_start filePath; Processor.Stat filePath;
          Processor.Log (Processor.NoNewData filePath);
          Processor.Emit_processing_complete filePath], Ok tt)).
Proof.
  intros Heq.
  rewrite processFile_eq; unfold Processor.processFile_begin; cbv beta zeta. rewrite idle.
  rewrite processFile_finish_eq; cbv beta zeta. simpl. rewrite buffering.
  rewrite processFileWithBuffering_eq; cbv beta zeta. rewrite on_disk.
  change (Processor.getFilePosition (Processor.set_isProcessing true p) filePath)
    with (Processor.getFilePosition p filePath).
  rewrite Heq, Nat.ltb_irrefl, Nat.eqb_refl. simpl.
  by rewrite set_isProcessing_back.
Qed.

(** The file is shorter than the stored offset: the offset is set to 0,
    the whole file is streamed from byte 0 and parsed.  The offset is not
    written again afterwards. *)
Lemma processFile_truncated :
  length content < Processor.getFilePosition p filePath ->
  exists tr,
    run_file p fs filePath = (Processor.set_filePosition filePath 0 p, (tr, Ok tt))
    /\ Observe.stream_reads tr = [(0, content)]
    /\ Observe.parsed_lines tr = List.filter nonblank (readline content).
Proof.
  intros Hlt.
  rewrite processFile_eq; unfold Processor.processFile_begin; cbv beta zeta. rewrite idle.
  rewrite processFile_finish_eq; cbv beta zeta. simpl. rewrite buffering.
  rewrite processFileWithBuffering_eq; cbv beta zeta. rewrite on_disk.
  change (Processor.getFilePosition (Processor.set_isProcessing true p) filePath)
    with (Processor.getFilePosition p filePath).
  destruct (Nat.ltb_spec (length content) (Processor.getFilePosition p filePath)) as [_|]; [| lia].
  unfold Processor.processFileComplete. rewrite on_disk.
  destruct (processLines_total
              (Processor.set_filePosition filePath 0 (Processor.set_isProcessing true p))
              filePath (readline content) 0)
    as (tr & Hrun & Hparsed & Hreads).
  simpl. rewrite Hrun. simpl.
  rewrite set_isProcessing_idle by done.
  eexists. split; [done |].
  unfold Observe.parsed_lines, Observe.stream_reads in *. simpl.
  rewrite !flat_map_app, Hparsed, Hreads. simpl. by rewrite app_nil_r.
Qed.
End Idle.
End ReadPass.

(** ** A growing file *)

Section Appends.
Context {JsonlRecord : Type}.
Variable JSON_parse : list byte -> Outcome JsonlRecord.
Variable trim_is_empty : list byte -> bool.
Variable filePath : string.

Local Abbreviation nonblank := (fun line : list byte => negb (trim_is_empty line)).
Local Abbreviation passes p fs content appends :=
  (Tail.reads_after_appends JSON_parse trim_is_empty p fs filePath content appends).
Local Abbreviation streamed obs :=
  (flat_map (fun o => Observe.stream_reads (Tail.actions o)) obs).

(** X27.  Buffering is enabled, no pass is in flight, and the stored offset
    of the file does not exceed its size (no truncation).  The file then
    grows by the chunks [appends], with one read after each and nothing
    written while a read runs.  For every read: the stored offset
    afterwards equals the file size the read found, and is not smaller
    than the offset before; when the size found equals the stored offset,
    the read consists of the [stat] call and a log message between the
    start and completion events (no stream is opened, no line is parsed,
    no record is dispatched) and the offset stays.  Across the reads: each
    finds the offset its predecessor left, the streamed byte ranges follow
    one another without overlap, put end to end they are exactly the bytes
    of the file from the initial offset on, and every parsed line is a
    line of the range streamed by its own read: no byte, hence no record,
    reaches the parser twice. *)
Theorem offsets_follow_appends
    (p : Processor.JsonlStreamProcessor JsonlRecord) (fs : gmap string (list byte))
    (content : list byte) (appends : list (list byte)) :
  Processor.isProcessing p = false ->
  Processor.enableBuffering p = true ->
  Processor.getFilePosition p filePath <= length content ->
  Forall (fun o => Tail.offset_after o = Tail.size_at_read o
                   /\ Tail.offset_before o <= Tail.offset_after o)
    (passes p fs content appends)
  /\ Forall (fun o => Tail.size_at_read o = Tail.offset_before o ->
                      Tail.actions o
                      = [Processor.Emit_processing_start filePath; Processor.Stat filePath;
                         Processor.Log (Processor.NoNewData filePath);
                         Processor.Emit_processing_complete filePath]
                      /\ Tail.offset_after o = Tail.offset_before o)
       (passes p fs content appends)
  /\ Tail.chained (Processor.getFilePosition p filePath) (passes p fs content appends)
  /\ Observe.tiles (Processor.getFilePosition p filePath) (streamed (passes p fs content appends))
  /\ concat (map snd (streamed (passes p fs content appends)))
     = match appends with
       | [] => []
       | _ => drop (Processor.getFilePosition p filePath) (content ++ concat appends)
       end
  /\ Forall (fun o => Observe.parsed_lines (Tail.actions o)
                      = flat_map (fun rd => List.filter nonblank (readline (snd rd)))
                          (Observe.stream_reads (Tail.actions o)))
       (passes p fs content appends).
Proof.
  revert p fs content.
  induction appends as [|chunk rest IH]; intros p fs content Hidle Hbuf Hle.
  { simpl. repeat split; constructor. }
  set (content' := content ++ chunk).
  set (fs' := <[filePath := content']> fs).
  set (last := Processor.getFilePosition p filePath) in *.
  assert (Hdisk : fs' !! filePath = Some content') by apply lookup_insert_eq.
  assert (Hlen : length content <= length content').
  { unfold content'. rewrite length_app. lia. }
  assert (Hcat : content ++ chunk ++ concat rest = content' ++ concat rest).
  { unfold content'. by rewrite app_assoc. }
  destruct (decide (last = length content')) as [Hsame|Hmore].
  - (* the chunk was empty and everything had been read *)
    pose proof (processFile_no_new_data JSON_parse trim_is_empty p fs' filePath content'
                  Hidle Hbuf Hdisk Hsame) as Hrun.
    destruct (IH p fs' content' Hidle Hbuf ltac:(fold last; lia))
      as (IH1 & IH2 & IH3 & IH4 & IH5 & IH6).
    cbn [Tail.reads_after_appends]. fold content' fs'. rewrite Hrun.
    cbn [flat_map map Tail.actions Tail.chained Tail.offset_before Tail.offset_after].
    fold last in IH3, IH4, IH5 |- *.
    repeat split.
    + constructor; [simpl; fold last; lia | done].
    + constructor; [simpl; by fold last | done].
    + done.
    + done.
    + simpl. rewrite IH5, Hcat. destruct rest; [| done].
      simpl. rewrite app_nil_r, Hsame. by rewrite drop_all.
    + constructor; [done | done].
  - (* new bytes *)
    assert (Hlt : last < length content') by (fold last in Hle; lia).
    destruct (processFile_new_data JSON_parse trim_is_empty p fs' filePath content'
                Hidle Hbuf Hdisk Hlt) as (tr & Hrun & Hreads & Hparsed).
    fold last in Hreads, Hparsed.
    set (p' := Processor.set_filePosition filePath (length content') p) in *.
    assert (Hpos : Processor.getFilePosition p' filePath = length content')
      by apply getFilePosition_set.
    destruct (IH p' fs' content') as (IH1 & IH2 & IH3 & IH4 & IH5 & IH6);
      [by destruct p | by destruct p | lia |].
    rewrite Hpos in IH3, IH4, IH5.
    cbn [Tail.reads_after_appends]. fold content' fs'. rewrite Hrun.
    cbn [flat_map map Tail.actions Tail.chained Tail.offset_before Tail.offset_after].
    fold last. rewrite Hpos, Hreads.
    repeat split.
    + constructor; [simpl; lia | done].
    + constructor; [| done]. simpl. intros Heq. lia.
    + done.
    + intros Hnil. apply (f_equal length) in Hnil. rewrite length_drop in Hnil.
      simpl in Hnil. lia.
    + simpl. rewrite length_drop.
      replace (last + (length content' - last)) with (length content') by lia. done.
    + simpl. rewrite IH5, Hcat. destruct rest as [|c rest].
      * simpl. by rewrite !app_nil_r.
      * rewrite drop_app_length. rewrite drop_app_le by lia. done.
    + constructor; [| done]. simpl. rewrite Hparsed, Hreads. simpl. by rewrite app_nil_r.
Qed.
End Appends.

Section AppendsExample.
Import Fixtures.

Local Abbreviation three_reads :=
  (Tail.reads_after_appends parse_number ascii_blank fresh ∅ log_file []
     [bytes "1" ++ [LF]; []; bytes "23" ++ [LF]]).
Local Abbreviation streamed obs :=
  (flat_map (fun o => Observe.stream_reads (Tail.actions o)) obs).

(** X27 on a file that starts empty and receives ["1" LF], nothing, and
    ["23" LF]. *)
Lemma offsets_follow_appends_witness :
  Processor.getFilePosition fresh log_file <= length (@nil byte)
  /\ Forall (fun o => Tail.offset_after o = Tail.size_at_read o
                      /\ Tail.offset_before o <= Tail.offset_after o) three_reads
  /\ Forall (fun o => Tail.size_at_read o = Tail.offset_before o ->
                      Tail.actions o
                      = [Processor.Emit_processing_start log_file; Processor.Stat log_file;
                         Processor.Log (Processor.NoNewData log_file);
                         Processor.Emit_processing_complete log_file]
                      /\ Tail.offset_after o = Tail.offset_before o) three_reads
  /\ Tail.chained (Processor.getFilePosition fresh log_file) three_reads
  /\ Observe.tiles (Processor.getFilePosition fresh log_file) (streamed three_reads)
  /\ concat (map snd (streamed three_reads))
     = drop (Processor.getFilePosition fresh log_file)
         ([] ++ concat [bytes "1" ++ [LF]; []; bytes "23" ++ [LF]])
  /\ Forall (fun o => Observe.parsed_lines (Tail.actions o)
                      = flat_map (fun rd => List.filter (fun line => negb (ascii_blank line))
                                              (readline (snd rd)))
                          (Observe.stream_reads (Tail.actions o))) three_reads.
Proof.
  assert (Hle : Processor.getFilePosition fresh log_file <= length (@nil byte))
    by (vm_compute; lia).
  split; [exact Hle |].
  apply (offsets_follow_appends parse_number ascii_blank log_file fresh ∅ []
           [bytes "1" ++ [LF]; []; bytes "23" ++ [LF]]);
    [reflexivity | reflexivity | exact Hle].
Defined.
End AppendsExample.

(** ** A file that grows while it is read *)

Section Overlap.
Context {JsonlRecord : Type}.
Variable JSON_parse : list byte -> Outcome JsonlRecord.
Variable trim_is_empty : list byte -> bool.

Local Abbreviation nonblank := (fun line : list byte => negb (trim_is_empty line)).

(** [stat] finds the file with the bytes [seen]; by the time the stream
    reaches the end of the file, [extra] has been appended.  The pass
    streams and parses [extra] as well, yet stores the size of [seen], so
    the next pass streams and parses [extra] again. *)
Lemma overlapping_read_repeats
    (p : Processor.JsonlStreamProcessor JsonlRecord) (at_stat at_read : gmap string (list byte))
    (filePath : string) (seen extra : list byte) :
  Processor.isProcessing p = false ->
  Processor.enableBuffering p = true ->
  at_stat !! filePath = Some seen ->
  at_read !! filePath = Some (seen ++ extra) ->
  Processor.getFilePosition p filePath < length seen ->
  extra <> [] ->
  exists tr1 tr2,
    Processor.processFile_during JSON_parse trim_is_empty p at_stat at_read filePath
    = (Processor.set_filePosition filePath (length seen) p, (tr1, Ok tt))
    /\ Observe.stream_reads tr1
       = [(Processor.getFilePosition p filePath,
           drop (Processor.getFilePosition p filePath) seen ++ extra)]
    /\ Observe.parsed_lines tr1
       = List.filter nonblank
           (readline (drop (Processor.getFilePosition p filePath) seen ++ extra))
    /\ Processor.processFile JSON_parse trim_is_empty
         (Processor.set_filePosition filePath (length seen) p) at_read filePath
       = (Processor.set_filePosition filePath (length (seen ++ extra))
            (Processor.set_filePosition filePath (length seen) p), (tr2, Ok tt))
    /\ Observe.stream_reads tr2 = [(length seen, extra)]
    /\ Observe.parsed_lines tr2 = List.filter nonblank (readline extra).
Proof.
  intros Hidle Hbuf Hstat Hread Hlt Hextra.
  set (p1 := Processor.set_filePosition filePath (length seen) p).
  assert (Hpos : Processor.getFilePosition p1 filePath = length seen)
    by apply getFilePosition_set.
  destruct (processFile_new_data JSON_parse trim_is_empty p1 at_read filePath (seen ++ extra))
    as (tr2 & Hrun2 & Hreads2 & Hparsed2).
  { by destruct p. }
  { by destruct p. }
  { done. }
  { rewrite Hpos, length_app. destruct extra; [done | simpl; lia]. }
  rewrite Hpos in Hreads2, Hparsed2. rewrite drop_app_length in Hreads2, Hparsed2.
  unfold Processor.processFile_during, Processor.processFile_begin. rewrite Hidle.
  unfold Processor.processFile_finish_during. simpl. rewrite Hbuf.
  unfold Processor.processFileWithBuffering_during. rewrite Hstat, Hread.
  change (Processor.getFilePosition (Processor.set_isProcessing true p) filePath)
    with (Processor.getFilePosition p filePath).
  set (last := Processor.getFilePosition p filePath) in *.
  destruct (Nat.ltb_spec (length seen) last) as [|_]; [lia |].
  destruct (Nat.eqb_spec (length seen) last) as [|_]; [lia |].
  rewrite drop_app_le by lia.
  destruct (processLines_total JSON_parse trim_is_empty
              (Processor.set_isProcessing true p) filePath
              (readline (drop last seen ++ extra))
              (Processor.getLineNumberFromPosition filePath last))
    as (tr & Hrun & Hparsed & Hreads).
  simpl. rewrite Hrun. simpl.
  rewrite set_isProcessing_idle by done.
  eexists _, tr2. split; [reflexivity |].
  repeat split; try done.
  - unfold Observe.stream_reads in *. simpl. rewrite !flat_map_app, Hreads. simpl.
    by rewrite ?app_nil_r.
  - unfold Observe.parsed_lines in *. simpl. rewrite !flat_map_app, Hparsed. simpl.
    by rewrite ?app_nil_r.
Qed.
End Overlap.

Section OverlapExample.
Import Fixtures.

(** C7.  Evaluation of the engine on a file to which a record is appended
    while it is read.  The file holds ["1" LF] (2 bytes) when [stat] looks
    at it, and ["2" LF] is appended before the stream, opened at byte 0,
    reaches the end of the file.  The pass logs the range 0 to 2, streams
    all 4 bytes, dispatches the records 1 and 2 and stores the offset 2,
    the size [stat] found.  The next pass, with the file unchanged, streams
    from byte 2 and dispatches the record 2 a second time. *)
Theorem append_during_read_is_parsed_twice :
  let at_stat : gmap string (list byte) := {[ log_file := first_record ]} in
  let at_read : gmap string (list byte) := {[ log_file := rewritten_content ]} in
  let '(p1, (tr1, _)) :=
    Processor.processFile_during parse_number ascii_blank fresh at_stat at_read log_file in
  let '(p2, (tr2, _)) := Processor.processFile parse_number ascii_blank p1 at_read log_file in
  rewritten_content = first_record ++ bytes "2" ++ [LF]
  /\ tr1 = [Processor.Emit_processing_start log_file; Processor.Stat log_file;
            Processor.Log (Processor.BufferedRead log_file 0 2);
            Processor.ReadStream log_file 0 rewritten_content;
            Processor.JsonParse (bytes "1");
            Processor.Dispatch 1 log_file 1 [Pipeline.Emit_pipeline_results 1 log_file 1 []];
            Processor.JsonParse (bytes "2");
            Processor.Dispatch 2 log_file 2 [Pipeline.Emit_pipeline_results 2 log_file 2 []];
            Processor.Emit_processing_complete log_file]
  /\ Processor.getFilePosition p1 log_file = 2
  /\ tr2 = [Processor.Emit_processing_start log_file; Processor.Stat log_file;
            Processor.Log (Processor.BufferedRead log_file 2 4);
            Processor.ReadStream log_file 2 (bytes "2" ++ [LF]);
            Processor.JsonParse (bytes "2");
            Processor.Dispatch 2 log_file 1 [Pipeline.Emit_pipeline_results 2 log_file 1 []];
            Processor.Emit_processing_complete log_file]
  /\ Processor.getFilePosition p2 log_file = 4
  /\ Observe.parsed_lines tr1 = [bytes "1"; bytes "2"]
  /\ Observe.parsed_lines tr2 = [bytes "2"].
Proof. vm_compute. repeat split; reflexivity. Qed.
End OverlapExample.

(** ** A line that is still being written *)

Section TornLine.
Context {JsonlRecord : Type}.
Variable JSON_parse : list byte -> Outcome JsonlRecord.
Variable trim_is_empty : list byte -> bool.

Local Abbreviation nonblank := (fun line : list byte => negb (trim_is_empty line)).
Local Abbreviation run_file := (Processor.processFile JSON_parse trim_is_empty).

End TornLine.

Section TornLineExamples.
Import Fixtures.


(** What happens instead: ["23"] is parsed as a record of its own, the
    offset becomes 4, and the next read delivers only ["4" LF]. *)
Lemma torn_line_run :
  let '(p1, (tr1, _)) :=
    Processor.processFile parse_number ascii_blank fresh {[ log_file := torn_content ]} log_file in
  let '(_, (tr2, _)) :=
    Processor.processFile parse_number ascii_blank p1
      {[ log_file := torn_content ++ bytes "4" ++ [LF] ]} log_file in
  Observe.parsed_lines tr1 = [bytes "1"; bytes "23"]
  /\ Processor.getFilePosition p1 log_file = 4
  /\ Observe.stream_reads tr2 = [(4, bytes "4" ++ [LF])]
  /\ Observe.parsed_lines tr2 = [bytes "4"].
Proof. vm_compute. done. Qed.

End TornLineExamples.

(** ** A file that was cut down *)

Section TruncationExample.
Import Fixtures.

(** C3.  Evaluation of the engine on a file read up to byte 20 and then
    rewritten as ["1" LF "2" LF] (4 bytes).  The next read sets the stored
    offset to 0 and streams the file from byte 0, dispatching the records 1
    and 2.  The offset is still 0 when that read is over, so the read after
    it, with the file unchanged, streams the file from byte 0 once more and
    dispatches both records a second time. *)
Theorem truncated_file_is_read_again :
  let fs : gmap string (list byte) := {[ log_file := rewritten_content ]} in
  let '(p1, (tr1, _)) := Processor.processFile parse_number ascii_blank at_20 fs log_file in
  let '(p2, (tr2, _)) := Processor.processFile parse_number ascii_blank p1 fs log_file in
  Processor.getFilePosition at_20 log_file = 20
  /\ length rewritten_content = 4
  /\ Observe.stream_reads tr1 = [(0, rewritten_content)]
  /\ Observe.parsed_lines tr1 = [bytes "1"; bytes "2"]
  /\ Processor.getFilePosition p1 log_file = 0
  /\ Observe.stream_reads tr2 = [(0, rewritten_content)]
  /\ Observe.parsed_lines tr2 = [bytes "1"; bytes "2"]
  /\ tr2 = [Processor.Emit_processing_start log_file; Processor.Stat log_file;
            Processor.Log (Processor.BufferedRead log_file 0 4);
            Processor.ReadStream log_file 0 rewritten_content;
            Processor.JsonParse (bytes "1");
            Processor.Dispatch 1 log_file 1 [Pipeline.Emit_pipeline_results 1 log_file 1 []];
            Processor.JsonParse (bytes "2");
            Processor.Dispatch 2 log_file 2 [Pipeline.Emit_pipeline_results 2 log_file 2 []];
            Processor.Emit_processing_complete log_file].
Proof. vm_compute. repeat split; reflexivity. Qed.
End TruncationExample.

Section Truncation.
Context {JsonlRecord : Type}.
Variable JSON_parse : list byte -> Outcome JsonlRecord.
Variable trim_is_empty : list byte -> bool.

(** The same in general: after the read that detects a truncation of a
    non-empty file, a further read of the unchanged file streams all of it
    again. *)
Lemma truncation_read_repeats
    (p : Processor.JsonlStreamProcessor JsonlRecord) (fs : gmap string (list byte))
    (filePath : string) (content : list byte) :
  Processor.isProcessing p = false ->
  Processor.enableBuffering p = true ->
  fs !! filePath = Some content ->
  content <> [] ->
  length content < Processor.getFilePosition p filePath ->
  exists p1 tr1 p2 tr2,
    Processor.processFile JSON_parse trim_is_empty p fs filePath = (p1, (tr1, Ok tt))
    /\ Processor.processFile JSON_parse trim_is_empty p1 fs filePath = (p2, (tr2, Ok tt))
    /\ Observe.stream_reads tr1 = [(0, content)]
    /\ Observe.stream_reads tr2 = [(0, content)]
    /\ Observe.parsed_lines tr2 = Observe.parsed_lines tr1.
Proof.
  intros Hidle Hbuf Hdisk Hne Hlt.
  destruct (processFile_truncated JSON_parse trim_is_empty p fs filePath content
              Hidle Hbuf Hdisk Hlt) as (tr1 & Hrun1 & Hreads1 & Hparsed1).
  set (p1 := Processor.set_filePosition filePath 0 p) in *.
  assert (Hpos : Processor.getFilePosition p1 filePath = 0) by apply getFilePosition_set.
  destruct (processFile_new_data JSON_parse trim_is_empty p1 fs filePath content)
    as (tr2 & Hrun2 & Hreads2 & Hparsed2).
  - by destruct p.
  - by destruct p.
  - done.
  - rewrite Hpos. destruct content; [done | simpl; lia].
  - rewrite Hpos in Hreads2, Hparsed2. rewrite drop_0 in Hreads2, Hparsed2.
    eexists p1, tr1, _, tr2. repeat split; try done. congruence.
Qed.
End Truncation.

(** ** The guard of [processFile] *)

Section GuardFacts.
Context {JsonlRecord : Type}.
Variable JSON_parse : list byte -> Outcome JsonlRecord.
Variable trim_is_empty : list byte -> bool.

Local Abbreviation step := (Guard.sys_step JSON_parse trim_is_empty).
Local Abbreviation run := (Guard.sys_run JSON_parse trim_is_empty).

Lemma processFile_finish_idle (p : Processor.JsonlStreamProcessor JsonlRecord)
    (fs : gmap string (list byte)) (filePath : string) :
  Processor.isProcessing
    (fst (Processor.processFile_finish JSON_parse trim_is_empty p fs filePath)) = false.
Proof.
  rewrite processFile_finish_eq; cbv beta zeta.
  by destruct (if Processor.enableBuffering p
               then Processor.processFileWithBuffering JSON_parse trim_is_empty p fs filePath
               else (p, Processor.processFileComplete JSON_parse trim_is_empty p fs filePath)).
Qed.

Lemma flag_counts_step (s : Guard.System JsonlRecord) (l : Guard.Label) :
  Guard.flag_counts s -> Guard.flag_counts (fst (step s l)).
Proof.
  unfold Guard.flag_counts. destruct s as [p fl], l as [filePath|fs]; simpl.
  - unfold Processor.processFile_begin.
    destruct (Processor.isProcessing p) eqn:Hflag; simpl; [by rewrite Hflag |].
    intros Hlen. rewrite length_app, Hlen. done.
  - destruct fl as [|filePath rest]; [done |]. simpl.
    pose proof (processFile_finish_idle p fs filePath) as Hidle.
    destruct (Processor.processFile_finish JSON_parse trim_is_empty p fs filePath)
      as [p2 [tr o]]. simpl in *. rewrite Hidle.
    destruct (Processor.isProcessing p); intros Hlen; [| done].
    destruct rest; [done | simpl in Hlen; lia].
Qed.

Lemma flag_counts_run (ls : list Guard.Label) (s : Guard.System JsonlRecord) :
  Guard.flag_counts s -> Guard.flag_counts (run s ls).
Proof.
  revert s. induction ls as [|l ls IH]; intros s Hs; [done |].
  simpl. apply IH. by apply flag_counts_step.
Qed.

(** C9.  Start from a processor with no pass in flight and let calls of
    [processFile] arrive and passes in flight finish in any order.  In
    every state reached, at most one pass is in flight.  Whenever one is, a
    further call, for any path, does nothing but warn: it opens no file,
    leaves the processor (offsets included) as it is, and adds nothing to
    the passes in flight, so it will never run later. *)
Theorem single_pass_in_flight
    (p0 : Processor.JsonlStreamProcessor JsonlRecord) (ls : list Guard.Label)
    (filePath : string) (fs : gmap string (list byte)) :
  Processor.isProcessing p0 = false ->
  length (Guard.inflight (run (Guard.idle p0) ls)) <= 1
  /\ (Guard.inflight (run (Guard.idle p0) ls) <> [] ->
      step (run (Guard.idle p0) ls) (Guard.Arrive filePath)
      = (run (Guard.idle p0) ls, [Processor.Warn (Processor.AlreadyProcessing filePath)])
      /\ Processor.processFile JSON_parse trim_is_empty
           (Guard.proc (run (Guard.idle p0) ls)) fs filePath
         = (Guard.proc (run (Guard.idle p0) ls),
            ([Processor.Warn (Processor.AlreadyProcessing filePath)], Ok tt))
      /\ Forall (fun e => Observe.touches_file e = false)
           (snd (step (run (Guard.idle p0) ls) (Guard.Arrive filePath)))).
Proof.
  intros Hidle.
  assert (Hinv : Guard.flag_counts (run (Guard.idle p0) ls)).
  { apply flag_counts_run. unfold Guard.flag_counts. simpl. by rewrite Hidle. }
  unfold Guard.flag_counts in Hinv.
  destruct (run (Guard.idle p0) ls) as [p fl]. simpl in *.
  split; [destruct (Processor.isProcessing p); lia |].
  intros Hbusy.
  destruct (Processor.isProcessing p) eqn:Hflag;
    [| destruct fl; [done | simpl in Hinv; lia]].
  rewrite processFile_eq; unfold Processor.processFile_begin; cbv beta zeta. rewrite Hflag. simpl.
  repeat split. by repeat constructor.
Qed.
End GuardFacts.

(** C9 with a first call for [log_file] and, while its pass is in flight,
    a second call for the same file. *)
Lemma single_pass_in_flight_witness :
  length (Guard.inflight
            (Guard.sys_run Fixtures.parse_number Fixtures.ascii_blank
               (Guard.idle Fixtures.fresh)
               [Guard.Arrive Fixtures.log_file; Guard.Arrive Fixtures.log_file])) <= 1
  /\ (Guard.inflight
        (Guard.sys_run Fixtures.parse_number Fixtures.ascii_blank
           (Guard.idle Fixtures.fresh)
           [Guard.Arrive Fixtures.log_file; Guard.Arrive Fixtures.log_file]) <> [] ->
      Guard.sys_step Fixtures.parse_number Fixtures.ascii_blank
        (Guard.sys_run Fixtures.parse_number Fixtures.ascii_blank
           (Guard.idle Fixtures.fresh)
           [Guard.Arrive Fixtures.log_file; Guard.Arrive Fixtures.log_file])
        (Guard.Arrive "b.jsonl")
      = (Guard.sys_run Fixtures.parse_number Fixtures.ascii_blank
           (Guard.idle Fixtures.fresh)
           [Guard.Arrive Fixtures.log_file; Guard.Arrive Fixtures.log_file],
         [Processor.Warn (Processor.AlreadyProcessing "b.jsonl")])
      /\ Processor.processFile Fixtures.parse_number Fixtures.ascii_blank
           (Guard.proc
              (Guard.sys_run Fixtures.parse_number Fixtures.ascii_blank
                 (Guard.idle Fixtures.fresh)
                 [Guard.Arrive Fixtures.log_file; Guard.Arrive Fixtures.log_file]))
           {[ "b.jsonl" := Fixtures.torn_content ]} "b.jsonl"
         = (Guard.proc
              (Guard.sys_run Fixtures.parse_number Fixtures.ascii_blank
                 (Guard.idle Fixtures.fresh)
                 [Guard.Arrive Fixtures.log_file; Guard.Arrive Fixtures.log_file]),
            ([Processor.Warn (Processor.AlreadyProcessing "b.jsonl")], Ok tt))
      /\ Forall (fun e => Observe.touches_file e = false)
           (snd (Guard.sys_step Fixtures.parse_number Fixtures.ascii_blank
                   (Guard.sys_run Fixtures.parse_number Fixtures.ascii_blank
                      (Guard.idle Fixtures.fresh)
                      [Guard.Arrive Fixtures.log_file; Guard.Arrive Fixtures.log_file])
                   (Guard.Arrive "b.jsonl")))).
Proof.
  apply (single_pass_in_flight Fixtures.parse_number Fixtures.ascii_blank Fixtures.fresh
           [Guard.Arrive Fixtures.log_file; Guard.Arrive Fixtures.log_file]
           "b.jsonl" {[ "b.jsonl" := Fixtures.torn_content ]}).
  reflexivity.
Defined.

(** ** The life cycle of the server *)

Section Lifecycle.
Variable existsSync : string -> bool.

Local Abbreviation start := (Server.start existsSync).

(** C8.  [start] takes a stopped server whose watch directory exists to
    [Running] and emits [started]; [stop] takes a running server to
    [Stopped] and emits [stopped].  [start] on a running server and [stop]
    on a stopped one leave the server as it is and only warn.  [start] on a
    stopped server whose watch directory does not exist throws an [Error]
    and leaves the server as it is, hence [Stopped]. *)
Theorem server_lifecycle (s : Server.JsonlStreamServer) :
  (Server.lifecycle s = Server.Stopped ->
   existsSync (Server.config_watchDirectory s) = true ->
   Server.lifecycle (fst (start s)) = Server.Running
   /\ Act.outcome (snd (start s)) = Ok tt
   /\ Server.Emit_started ∈ Act.trace (snd (start s)))
  /\ (Server.lifecycle s = Server.Running ->
      Server.lifecycle (fst (Server.stop s)) = Server.Stopped
      /\ Act.outcome (snd (Server.stop s)) = Ok tt
      /\ Server.Emit_stopped ∈ Act.trace (snd (Server.stop s)))
  /\ (Server.lifecycle s = Server.Running ->
      start s = (s, ([Server.Warn Server.ServerAlreadyRunning], Ok tt)))
  /\ (Server.lifecycle s = Server.Stopped ->
      Server.stop s = (s, ([Server.Warn Server.ServerNotRunning], Ok tt)))
  /\ (Server.lifecycle s = Server.Stopped ->
      existsSync (Server.config_watchDirectory s) = false ->
      start s
      = (s, ([Server.Log Server.ServerStarting;
              Server.Log (Server.WatchDirectory (Server.config_watchDirectory s))],
             Throw (ErrorObj ("監視ディレクトリが存在しません: "
                              +:+ Server.config_watchDirectory s))))
      /\ Server.lifecycle (fst (start s)) = Server.Stopped).
Proof.
  unfold Server.lifecycle, Server.isServerRunning, Server.start, Server.stop.
  destruct s as [dir w running]. simpl.
  destruct running; simpl.
  - split; [discriminate |]. split; [| split; [done |]; split; discriminate].
    intros _. destruct (Server.FileWatcher_stop w) as [w' tr]. simpl.
    split; [done |]. split; [done |].
    apply elem_of_cons. right. apply elem_of_app. right. apply elem_of_cons. by left.
  - split; [| split; [discriminate |]; split; [discriminate |]; split; [done |]].
    + intros _ ->. simpl.
      destruct (Server.FileWatcher_start existsSync w) as [w' tr]. simpl.
      split; [done |]. split; [done |].
      do 2 (apply elem_of_cons; right). apply elem_of_app. right. apply elem_of_cons. by left.
    + intros _ ->. simpl. done.
Qed.
End Lifecycle.

Section LifecycleExample.
Local Abbreviation on_disk := (String.eqb "/logs").
Local Abbreviation stopped_server := (Server.new (fun d => d) "/logs").
Local Abbreviation lost_server := (Server.new (fun d => d) "/gone").
Local Abbreviation running_server := (fst (Server.start on_disk stopped_server)).

(** C8 on a disk where only ["/logs"] exists: a server for ["/logs"],
    stopped and running, and a server for ["/gone"]. *)
Lemma server_lifecycle_witness :
  (Server.lifecycle (fst (Server.start on_disk stopped_server)) = Server.Running
   /\ Act.outcome (snd (Server.start on_disk stopped_server)) = Ok tt
   /\ Server.Emit_started ∈ Act.trace (snd (Server.start on_disk stopped_server)))
  /\ (Server.lifecycle (fst (Server.stop running_server)) = Server.Stopped
      /\ Act.outcome (snd (Server.stop running_server)) = Ok tt
      /\ Server.Emit_stopped ∈ Act.trace (snd (Server.stop running_server)))
  /\ Server.start on_disk running_server
     = (running_server, ([Server.Warn Server.ServerAlreadyRunning], Ok tt))
  /\ Server.stop stopped_server
     = (stopped_server, ([Server.Warn Server.ServerNotRunning], Ok tt))
  /\ (Server.start on_disk lost_server
      = (lost_server,
         ([Server.Log Server.ServerStarting;
           Server.Log (Server.WatchDirectory (Server.config_watchDirectory lost_server))],
          Throw (ErrorObj ("監視ディレクトリが存在しません: "
                           +:+ Server.config_watchDirectory lost_server))))
      /\ Server.lifecycle (fst (Server.start on_disk lost_server)) = Server.Stopped).
Proof.
  destruct (server_lifecycle on_disk stopped_server) as (Hstart & _ & _ & Hidle & _).
  destruct (server_lifecycle on_disk running_server) as (_ & Hstop & Hbusy & _ & _).
  destruct (server_lifecycle on_disk lost_server) as (_ & _ & _ & _ & Hlost).
  split; [apply Hstart; reflexivity |].
  split; [apply Hstop; reflexivity |].
  split; [apply Hbusy; reflexivity |].
  split; [apply Hidle; reflexivity |].
  apply Hlost; reflexivity.
Defined.
End LifecycleExample.

(** * Further properties *)

(** ** More on loops *)

Section LoopTraces.
Context {E X V : Type}.
Variable body : X -> Act.M E V.
Variable loop : list X -> Act.M E (list V).
Hypothesis loop_nil : loop [] = Act.ret [].
Hypothesis loop_cons : forall x xs,
  loop (x :: xs) = (v <- body x ;; vs <- loop xs ;; Act.ret (v :: vs)).
Hypothesis body_total : forall x, exists tr v, body x = (tr, Ok v).

(** A function of the trace that distributes over concatenation can be
    computed round by round. *)
Lemma loop_trace_flat_map {Y : Type} (obs : list E -> list Y) (xs : list X) :
  obs [] = [] -> (forall t1 t2, obs (t1 ++ t2) = obs t1 ++ obs t2) ->
  obs (Act.trace (loop xs)) = flat_map (fun x => obs (Act.trace (body x))) xs.
Proof.
  intros Hnil Happ. induction xs as [|x xs IH].
  - by rewrite loop_nil.
  - destruct (body_total x) as (tr & v & Hb).
    destruct (loop_total body loop loop_nil loop_cons body_total xs) as (tr' & vs & Hl).
    rewrite loop_cons, Hb, Hl. rewrite Hl in IH. simpl in *.
    rewrite Hb. simpl. by rewrite app_nil_r, Happ, IH.
Qed.

(** The values are those of the rounds, in order. *)
Lemma loop_values {Y : Type} (f : V -> Y) (g : X -> Y) (xs : list X) :
  (forall x tr v, body x = (tr, Ok v) -> f v = g x) ->
  exists tr vs, loop xs = (tr, Ok vs) /\ map f vs = map g xs.
Proof.
  intros Hfg. induction xs as [|x xs (tr' & vs & Hl & IH)].
  - rewrite loop_nil. by eexists _, _.
  - destruct (body_total x) as (tr & v & Hb).
    rewrite loop_cons, Hb, Hl. simpl. eexists _, _. split; [done |].
    simpl. by rewrite (Hfg _ _ _ Hb), IH.
Qed.

(** What holds of every action of every round holds of every action of the
    loop. *)
Lemma loop_trace_Forall (P : E -> Prop) (xs : list X) :
  (forall x, Forall P (Act.trace (body x))) -> Forall P (Act.trace (loop xs)).
Proof.
  intros HP. induction xs as [|x xs IH].
  - rewrite loop_nil. constructor.
  - specialize (HP x).
    destruct (body_total x) as (tr & v & Hb).
    destruct (loop_total body loop loop_nil loop_cons body_total xs) as (tr' & vs & Hl).
    rewrite loop_cons, Hb, Hl. rewrite Hl in IH. rewrite Hb in HP. simpl in *.
    rewrite app_nil_r. by apply Forall_app.
Qed.
End LoopTraces.

(** ** The gate in full *)

Section GateFacts.
Context {JsonlRecord : Type}.
Variable m : Pipeline.ProcessingPipelineManager JsonlRecord.
Variable record : JsonlRecord.

Lemma applyGlobalFilters_from_verdict (names : list string) :
  exists tr,
    Pipeline.applyGlobalFilters_from m names record
    = (tr, Ok (forallb (Calls.lets_through m record) names)).
Proof.
  induction names as [|n names (tr & IH)]; simpl; [by eexists |].
  unfold Calls.lets_through at 1.
  destruct (Pipeline.filters m !! n) as [f|]; simpl.
  - unfold Pipeline.call_filter. simpl.
    destruct (Pipeline.filter f record) as [[|]|t]; simpl; [rewrite IH | |]; by eexists.
  - rewrite IH. by eexists.
Qed.

(** X1.  The verdict of the global filters is the conjunction of the
    answers of the registered ones: the record passes exactly when every
    name of the list that is registered answers [true]; names that are not
    registered do not count, and a filter that throws counts as a refusal.
    Applying the global filters never throws. *)
Theorem gate_verdict :
  Act.outcome (Pipeline.applyGlobalFilters m record)
  = Ok (forallb (Calls.lets_through m record) (Pipeline.globalFilters m)).
Proof.
  unfold Pipeline.applyGlobalFilters.
  destruct (applyGlobalFilters_from_verdict (Pipeline.globalFilters m)) as (tr & ->). done.
Qed.

(** X2.  The global filters are consulted in list order and only up to the
    first refusal: when the registered filters among [before] all answer
    [true] and [n] is registered and does not, the filters called are the
    registered names of [before] followed by [n]; no filter of [after] is
    called. *)
Theorem gate_stops_at_first_refusal
    (before after : list string) (n : string) (f : Pipeline.FilterPlugin JsonlRecord) :
  forallb (Calls.lets_through m record) before = true ->
  Pipeline.filters m !! n = Some f ->
  Pipeline.filter f record <> Ok true ->
  Calls.filter_calls
    (Act.trace (Pipeline.applyGlobalFilters_from m (before ++ n :: after) record))
  = map (fun k => (Pipeline.Global, k))
      (List.filter (Calls.filter_registered m) before ++ [n]).
Proof.
  intros Hpre Hf Hno.
  induction before as [|k before IH]; simpl in *.
  - rewrite Hf. unfold Pipeline.call_filter. simpl.
    destruct (Pipeline.filter f record) as [[|]|t]; simpl; done.
  - apply andb_prop in Hpre as [Hk Hpre]. specialize (IH Hpre).
    unfold Calls.lets_through in Hk. unfold Calls.filter_registered at 1.
    destruct (Pipeline.filters m !! k) as [fk|]; simpl.
    + unfold Pipeline.call_filter. simpl.
      destruct (Pipeline.filter fk record) as [[|]|t]; try discriminate. simpl.
      destruct (Pipeline.applyGlobalFilters_from m (before ++ n :: after) record)
        as [tr o] eqn:Hrun. simpl in *. by rewrite IH.
    + destruct (Pipeline.applyGlobalFilters_from m (before ++ n :: after) record)
        as [tr o] eqn:Hrun. simpl in *. done.
Qed.
End GateFacts.

(** X2 on the global filter list [["ghost"; "B"; "A"; "B"]]: ["ghost"] is
    not registered, ["B"] accepts, ["A"] rejects. *)
Lemma gate_stops_at_first_refusal_witness :
  Calls.filter_calls
    (Act.trace (Pipeline.applyGlobalFilters_from
                  (Fixtures.gated_manager (Fixtures.reject_all "A"))
                  (["ghost"; "B"] ++ "A" :: ["B"]) 7))
  = map (fun k => (Pipeline.Global, k))
      (List.filter (Calls.filter_registered (Fixtures.gated_manager (Fixtures.reject_all "A")))
         ["ghost"; "B"] ++ ["A"]).
Proof.
  apply (gate_stops_at_first_refusal (Fixtures.gated_manager (Fixtures.reject_all "A")) 7
           ["ghost"; "B"] ["B"] "A" (Fixtures.reject_all "A"));
    [reflexivity | reflexivity | discriminate].
Defined.

(** ** The report of a record *)

Section ReportFacts.
Context {JsonlRecord : Type}.
Variable m : Pipeline.ProcessingPipelineManager JsonlRecord.
Variables (record : JsonlRecord) (filePath : string) (lineNumber : nat).

Local Abbreviation out_step pipeline n :=
  (Pipeline.pipelineOutput_step m pipeline n record filePath lineNumber).
Local Abbreviation out_loop pipeline names :=
  (Pipeline.pipelineOutputs_from m pipeline names record filePath lineNumber).
Local Abbreviation pipe_step pipeline :=
  (Pipeline.processPipelines_step m pipeline record filePath lineNumber).
Local Abbreviation pipe_loop ps :=
  (Pipeline.processPipelines_from m ps record filePath lineNumber).
Local Abbreviation gate := (forallb (Calls.lets_through m record) (Pipeline.globalFilters m)).

(** Neither a closing event nor a [pipeline-error], and no call of a
    global output. *)
Local Abbreviation inner e :=
  (Calls.is_report e = false /\ Calls.is_pipeline_error e = false
   /\ Calls.global_output_calls [e] = []).

Lemma pipelineOutput_step_inner pipeline (n : string) :
  Forall (fun e => inner e) (Act.trace (out_step pipeline n)).
Proof.
  unfold Pipeline.pipelineOutput_step, Pipeline.call_output.
  destruct (Pipeline.outputs m !! n) as [o|]; simpl; [| by repeat constructor].
  destruct (Pipeline.output o record) as [[]|t]; simpl; by repeat constructor.
Qed.

Lemma pipelineOutputs_from_inner pipeline (names : list string) :
  Forall (fun e => inner e) (Act.trace (out_loop pipeline names)).
Proof.
  apply (loop_trace_Forall (fun n => out_step pipeline n) (fun ns => out_loop pipeline ns));
    [done | done | apply pipelineOutput_step_total | apply pipelineOutput_step_inner].
Qed.

Lemma processPipelines_step_inner pipeline :
  Forall (fun e => inner e) (Act.trace (pipe_step pipeline)).
Proof.
  pose proof (pipelineOutputs_from_inner pipeline (Pipeline.pl_outputs pipeline)) as Hout.
  destruct (pipelineOutputs_from_total m record filePath lineNumber pipeline
              (Pipeline.pl_outputs pipeline)) as (to & ro & Ho).
  rewrite Ho in Hout. simpl in Hout.
  unfold Pipeline.processPipelines_step, Pipeline.processPipeline, Pipeline.pipelineOutputs.
  destruct (Pipeline.truthy (Pipeline.pl_filter pipeline)) as [fname|].
  - destruct (Pipeline.filters m !! fname) as [f|]; simpl; [| by repeat constructor].
    unfold Pipeline.call_filter. simpl.
    destruct (Pipeline.filter f record) as [[|]|t]; simpl.
    + rewrite Ho. simpl. rewrite app_nil_r. by constructor.
    + by repeat constructor.
    + by repeat constructor.
  - rewrite Ho. simpl. by rewrite app_nil_r.
Qed.

Lemma processPipelines_from_inner (ps : list Pipeline.ProcessingPipeline) :
  Forall (fun e => inner e) (Act.trace (pipe_loop ps)).
Proof.
  apply (loop_trace_Forall (fun p => pipe_step p) (fun qs => pipe_loop qs));
    [done | done | apply processPipelines_step_total | apply processPipelines_step_inner].
Qed.

Lemma processPipelines_step_name pipeline tr r :
  pipe_step pipeline = (tr, Ok r) -> Pipeline.pipelineName r = Pipeline.pl_name pipeline.
Proof.
  destruct (pipelineOutputs_from_total m record filePath lineNumber pipeline
              (Pipeline.pl_outputs pipeline)) as (to & ro & Ho).
  unfold Pipeline.processPipelines_step, Pipeline.processPipeline, Pipeline.pipelineOutputs.
  destruct (Pipeline.truthy (Pipeline.pl_filter pipeline)) as [fname|].
  - destruct (Pipeline.filters m !! fname) as [f|]; simpl; [| by intros [= <- <-]].
    unfold Pipeline.call_filter. simpl.
    destruct (Pipeline.filter f record) as [[|]|t]; simpl.
    + rewrite Ho. simpl. by intros [= <- <-].
    + by intros [= <- <-].
    + by intros [= <- <-].
  - rewrite Ho. simpl. by intros [= <- <-].
Qed.

Lemma global_filter_action_inner (tr : list (Pipeline.Event JsonlRecord)) :
  Forall (fun e => Observe.global_filter_action e = true) tr -> Forall (fun e => inner e) tr.
Proof.
  intros Hq. eapply Forall_impl; [exact Hq |].
  intros [[]|[]|[]| | | | | | |]; simpl; try discriminate; done.
Qed.

(** The calls of global outputs made by the loop of [applyGlobalOutputs]:
    every registered name, once, in order; nothing closes the record. *)
Lemma applyGlobalOutputs_from_calls (names : list string) :
  exists tr,
    Pipeline.applyGlobalOutputs_from m names record filePath lineNumber = (tr, Ok tt)
    /\ Calls.global_output_calls tr = List.filter (Calls.output_registered m) names
    /\ Forall (fun e => Calls.is_report e = false /\ Calls.is_pipeline_error e = false) tr.
Proof.
  induction names as [|n names (tr & IH & Hcalls & Hin)]; simpl.
  - eexists. by repeat split.
  - unfold Calls.output_registered at 1.
    destruct (Pipeline.outputs m !! n) as [o|]; simpl.
    + unfold Pipeline.call_output. simpl.
      destruct (Pipeline.output o record) as [[]|t]; simpl; rewrite IH; simpl;
        (eexists; split; [done |]); split.
      * unfold Calls.global_output_calls in *. simpl. by rewrite Hcalls.
      * by repeat constructor.
      * unfold Calls.global_output_calls in *. simpl. by rewrite Hcalls.
      * by repeat constructor.
    + rewrite IH. simpl. eexists. split; [done |]. split; [| by constructor].
      unfold Calls.global_output_calls in *. simpl. by rewrite Hcalls.
Qed.

Lemma global_output_calls_inner (tr : list (Pipeline.Event JsonlRecord)) :
  Forall (fun e => inner e) tr -> Calls.global_output_calls tr = [].
Proof.
  induction 1 as [|e tr (_ & _ & He) _ IH]; [done |].
  change (e :: tr) with ([e] ++ tr).
  unfold Calls.global_output_calls in *. by rewrite flat_map_app, He, IH.
Qed.

(** The anatomy of [processRecord]: the gate, then either the
    [record-filtered-global] event, or the pipelines, the global outputs
    and the [pipeline-results] event. *)
Lemma processRecord_anatomy :
  exists tg tp rs tgo,
    Pipeline.applyGlobalFilters_from m (Pipeline.globalFilters m) record = (tg, Ok gate)
    /\ pipe_loop (Pipeline.pipelines m) = (tp, Ok rs)
    /\ Pipeline.applyGlobalOutputs_from m (Pipeline.globalOutputs m) record filePath lineNumber
       = (tgo, Ok tt)
    /\ Pipeline.processRecord m record filePath lineNumber
       = (if gate
          then tg ++ tp ++ tgo ++ [Pipeline.Emit_pipeline_results record filePath lineNumber rs]
          else tg ++ [Pipeline.Emit_record_filtered_global record filePath lineNumber],
          Ok tt).
Proof.
  destruct (applyGlobalFilters_from_verdict m record (Pipeline.globalFilters m)) as (tg & Hg).
  destruct (processPipelines_from_total m record filePath lineNumber (Pipeline.pipelines m))
    as (tp & rs & Hp).
  destruct (applyGlobalOutputs_from_total m record filePath lineNumber (Pipeline.globalOutputs m))
    as (tgo & Hgo).
  exists tg, tp, rs, tgo. repeat split; [done | done | done |].
  unfold Pipeline.processRecord, Pipeline.applyGlobalFilters, Pipeline.processPipelines,
    Pipeline.applyGlobalOutputs.
  rewrite Hg. simpl. destruct gate; simpl; [| done].
  rewrite Hp. simpl.
  destruct (Pipeline.globalOutputs m) as [|n names] eqn:Hnames.
  - simpl in Hgo. injection Hgo as <-. simpl. by rewrite ?app_nil_r.
  - cbn [length Nat.ltb Nat.leb]. rewrite Hgo. simpl. by rewrite <- ?app_assoc.
Qed.

(** X3.  Whatever the plugins do, [processRecord] ends normally, and it
    never emits [pipeline-error] (nor the console message that goes with
    it): every failure of a plugin is dealt with where it occurs. *)
Theorem processRecord_never_fails :
  Act.outcome (Pipeline.processRecord m record filePath lineNumber) = Ok tt
  /\ Forall (fun e => Calls.is_pipeline_error e = false)
       (Act.trace (Pipeline.processRecord m record filePath lineNumber)).
Proof.
  destruct processRecord_anatomy as (tg & tp & rs & tgo & Hg & Hp & Hgo & ->).
  split; [done |]. simpl.
  destruct (applyGlobalFilters_from_total m (Pipeline.globalFilters m) record)
    as (tg' & b & Hg' & Hq). rewrite Hg in Hg'. injection Hg' as <- _.
  apply global_filter_action_inner in Hq.
  pose proof (processPipelines_from_inner (Pipeline.pipelines m)) as Hin.
  rewrite Hp in Hin. simpl in Hin.
  destruct (applyGlobalOutputs_from_calls (Pipeline.globalOutputs m)) as (tgo' & Hgo' & _ & Hout).
  rewrite Hgo in Hgo'. injection Hgo' as <-.
  destruct gate; rewrite ?Forall_app; repeat split;
    try (by repeat constructor);
    try (eapply Forall_impl; [eassumption |]; by intros e (? & ? & ?));
    try (eapply Forall_impl; [eassumption |]; by intros e (? & ?)).
Qed.

(** X4.  Every record is closed by exactly one event, the last of the run:
    [record-filtered-global] when the gate is closed, and otherwise
    [pipeline-results], whose entries are one per configured pipeline, in
    declaration order and under the pipelines' names (pipelines that share
    a name each have their entry). *)
Theorem one_report_per_record :
  exists tr results,
    Forall (fun e => Calls.is_report e = false) tr
    /\ map Pipeline.pipelineName results = map Pipeline.pl_name (Pipeline.pipelines m)
    /\ Pipeline.processRecord m record filePath lineNumber
       = (tr ++ [if gate
                 then Pipeline.Emit_pipeline_results record filePath lineNumber results
                 else Pipeline.Emit_record_filtered_global record filePath lineNumber],
          Ok tt).
Proof.
  destruct processRecord_anatomy as (tg & tp & rs & tgo & Hg & Hp & Hgo & ->).
  destruct (applyGlobalFilters_from_total m (Pipeline.globalFilters m) record)
    as (tg' & b & Hg' & Hq). rewrite Hg in Hg'. injection Hg' as <- _.
  apply global_filter_action_inner in Hq.
  pose proof (processPipelines_from_inner (Pipeline.pipelines m)) as Hin.
  rewrite Hp in Hin. simpl in Hin.
  destruct (applyGlobalOutputs_from_calls (Pipeline.globalOutputs m)) as (tgo' & Hgo' & _ & Hout).
  rewrite Hgo in Hgo'. injection Hgo' as <-.
  destruct (loop_values (fun p => pipe_step p) (fun qs => pipe_loop qs)
              ltac:(done) ltac:(done) (processPipelines_step_total m record filePath lineNumber)
              Pipeline.pipelineName Pipeline.pl_name (Pipeline.pipelines m)
              processPipelines_step_name) as (tp' & rs' & Hp' & Hnames).
  rewrite Hp in Hp'. injection Hp' as <- <-.
  exists (if gate then tg ++ tp ++ tgo else tg), rs.
  split; [| split; [done |]].
  - destruct gate; rewrite ?Forall_app; repeat split;
      try (eapply Forall_impl; [eassumption |]; by intros e (? & ? & ?));
      try (eapply Forall_impl; [eassumption |]; by intros e (? & ?)).
  - destruct gate; [| done]. by rewrite <- !app_assoc.
Qed.

(** X5.  Once the gate is open, every registered global output is called
    exactly once, in list order, whatever the pipelines did and whether or
    not an earlier global output threw; names that are not registered are
    skipped.  With the gate closed no global output is called. *)
Theorem global_outputs_all_called :
  Calls.global_output_calls (Act.trace (Pipeline.processRecord m record filePath lineNumber))
  = if gate then List.filter (Calls.output_registered m) (Pipeline.globalOutputs m) else [].
Proof.
  destruct processRecord_anatomy as (tg & tp & rs & tgo & Hg & Hp & Hgo & ->).
  destruct (applyGlobalFilters_from_total m (Pipeline.globalFilters m) record)
    as (tg' & b & Hg' & Hq). rewrite Hg in Hg'. injection Hg' as <- _.
  apply global_filter_action_inner, global_output_calls_inner in Hq.
  pose proof (processPipelines_from_inner (Pipeline.pipelines m)) as Hin.
  rewrite Hp in Hin. simpl in Hin. apply global_output_calls_inner in Hin.
  destruct (applyGlobalOutputs_from_calls (Pipeline.globalOutputs m)) as (tgo' & Hgo' & Hcalls & _).
  rewrite Hgo in Hgo'. injection Hgo' as <-.
  simpl. unfold Calls.global_output_calls in *.
  destruct gate; rewrite !flat_map_app, ?Hq, ?Hin, ?Hcalls; simpl; by rewrite ?app_nil_r.
Qed.
End ReportFacts.

(** ** A pipeline's own filter and its outputs *)

Section PipelineStages.
Context {JsonlRecord : Type}.
Variable m : Pipeline.ProcessingPipelineManager JsonlRecord.
Variables (record : JsonlRecord) (filePath : string) (lineNumber : nat).

Local Abbreviation out_step pipeline n :=
  (Pipeline.pipelineOutput_step m pipeline n record filePath lineNumber).
Local Abbreviation out_loop pipeline names :=
  (Pipeline.pipelineOutputs_from m pipeline names record filePath lineNumber).
Local Abbreviation pipe_loop ps :=
  (Pipeline.processPipelines_from m ps record filePath lineNumber).

(** X6.  A pipeline whose registered filter answers [false] is reported as
    filtered, not as failed: its filter is called, the
    [record-filtered-pipeline] event is emitted, none of its outputs is
    called, and its entry has [success], [filtered] and no output results.
    The pipelines before and after it run as they do on their own. *)
Theorem pipeline_filter_rejection
    (before after : list Pipeline.ProcessingPipeline) (pipeline : Pipeline.ProcessingPipeline)
    (n : string) (f : Pipeline.FilterPlugin JsonlRecord) :
  Pipeline.truthy (Pipeline.pl_filter pipeline) = Some n ->
  Pipeline.filters m !! n = Some f ->
  Pipeline.filter f record = Ok false ->
  exists tb rb ta ra,
    pipe_loop before = (tb, Ok rb) /\ pipe_loop after = (ta, Ok ra)
    /\ pipe_loop (before ++ pipeline :: after)
       = (tb ++ [Pipeline.CallFilter (Pipeline.InPipeline (Pipeline.pl_name pipeline)) n record;
                 Pipeline.Emit_record_filtered_pipeline record (Pipeline.pl_name pipeline) n
                   filePath lineNumber] ++ ta,
          Ok (rb ++ [{| Pipeline.pipelineName := Pipeline.pl_name pipeline;
                        Pipeline.success := true; Pipeline.filtered := Some true;
                        Pipeline.error := None; Pipeline.outputResults := [] |}] ++ ra)).
Proof.
  intros Hname Hf Hres.
  apply processPipelines_around.
  unfold Pipeline.processPipelines_step, Pipeline.processPipeline, Pipeline.call_filter.
  rewrite Hname, Hf. simpl. rewrite Hres. reflexivity.
Qed.

(** X7.  A pipeline whose registered filter throws is reported as failed,
    with the error text (the message of what was thrown when that is an
    [Error], ["Unknown error"] otherwise), and not as filtered: no
    [record-filtered-pipeline] event is emitted and none of its outputs is
    called.  (A global filter that throws, by contrast, counts as a
    rejection.)  The pipelines before and after it run as they do on their
    own. *)
Theorem pipeline_filter_failure
    (before after : list Pipeline.ProcessingPipeline) (pipeline : Pipeline.ProcessingPipeline)
    (n : string) (f : Pipeline.FilterPlugin JsonlRecord) (t : Thrown) :
  Pipeline.truthy (Pipeline.pl_filter pipeline) = Some n ->
  Pipeline.filters m !! n = Some f ->
  Pipeline.filter f record = Throw t ->
  exists tb rb ta ra,
    pipe_loop before = (tb, Ok rb) /\ pipe_loop after = (ta, Ok ra)
    /\ pipe_loop (before ++ pipeline :: after)
       = (tb ++ [Pipeline.CallFilter (Pipeline.InPipeline (Pipeline.pl_name pipeline)) n record;
                 Pipeline.Error (Pipeline.PipelineError (Pipeline.pl_name pipeline) t)] ++ ta,
          Ok (rb ++ [{| Pipeline.pipelineName := Pipeline.pl_name pipeline;
                        Pipeline.success := false; Pipeline.filtered := None;
                        Pipeline.error :=
                          Some match t with
                               | ErrorObj message => message
                               | NonError => "Unknown error"
                               end;
                        Pipeline.outputResults := [] |}] ++ ra)).
Proof.
  intros Hname Hf Hres.
  apply processPipelines_around.
  unfold Pipeline.processPipelines_step, Pipeline.processPipeline, Pipeline.call_filter.
  rewrite Hname, Hf. simpl. rewrite Hres. reflexivity.
Qed.

Lemma output_calls_app (t1 t2 : list (Pipeline.Event JsonlRecord)) :
  Calls.output_calls (t1 ++ t2) = Calls.output_calls t1 ++ Calls.output_calls t2.
Proof. apply flat_map_app. Qed.

Lemma filter_calls_app (t1 t2 : list (Pipeline.Event JsonlRecord)) :
  Calls.filter_calls (t1 ++ t2) = Calls.filter_calls t1 ++ Calls.filter_calls t2.
Proof. apply flat_map_app. Qed.

(** The output loop by itself: one entry per name, one call per
    registered name, success exactly for the calls that returned. *)
Lemma pipelineOutputs_from_entries pipeline (names : list string) :
  exists tr rs,
    out_loop pipeline names = (tr, Ok rs)
    /\ map Pipeline.outputName rs = names
    /\ Calls.output_calls tr
       = map (fun n => (Pipeline.InPipeline (Pipeline.pl_name pipeline), n))
           (List.filter (Calls.output_registered m) names)
    /\ Calls.filter_calls tr = []
    /\ Forall (fun r => Pipeline.o_success r = true <->
                        exists o, Pipeline.outputs m !! Pipeline.outputName r = Some o
                                  /\ Pipeline.output o record = Ok tt) rs.
Proof.
  induction names as [|n names (tr & rs & IH & Hnames & Hcalls & Hnone & Hok)].
  - eexists _, _. repeat split; constructor.
  - simpl. unfold Pipeline.pipelineOutput_step, Pipeline.call_output.
    unfold Calls.output_registered at 1.
    destruct (Pipeline.outputs m !! n) as [o|] eqn:Ho; simpl.
    + destruct (Pipeline.output o record) as [[]|t] eqn:Hres; simpl; rewrite IH; simpl.
      * eexists _, _. split; [done |]. rewrite app_nil_r.
        unfold Calls.output_calls, Calls.filter_calls in *. simpl.
        rewrite Hnames, Hcalls, Hnone. repeat split; try done.
        constructor; [| done]. simpl. split; [intros _ | done]. by exists o.
      * eexists _, _. split; [done |]. rewrite app_nil_r.
        unfold Calls.output_calls, Calls.filter_calls in *. simpl.
        rewrite Hnames, Hcalls, Hnone. repeat split; try done.
        constructor; [| done]. simpl. split; [done |].
        intros (o' & Ho' & Hres'). congruence.
    + rewrite IH. simpl. eexists _, _. split; [done |]. rewrite app_nil_r.
      unfold Calls.output_calls, Calls.filter_calls in *. simpl.
      rewrite Hnames, Hcalls, Hnone. repeat split; try done.
      constructor; [| done]. simpl. split; [done |].
      intros (o' & Ho' & _). congruence.
Qed.

(** X8.  A pipeline that lets the record through to its outputs reports
    one entry per declared output name, in declaration order (a name
    declared twice has two entries); it calls every registered output once
    per occurrence, in order, whatever the earlier outputs did; and an
    entry says [success] exactly when its output is registered and its call
    returned. *)
Theorem pipeline_output_entries (pipeline : Pipeline.ProcessingPipeline) :
  Observe.filter_passes m pipeline record ->
  exists tr rs,
    Pipeline.processPipeline m pipeline record filePath lineNumber
    = (Observe.filter_stage pipeline record ++ tr,
       Ok {| Pipeline.pipelineName := Pipeline.pl_name pipeline; Pipeline.success := true;
             Pipeline.filtered := Some false; Pipeline.error := None;
             Pipeline.outputResults := rs |})
    /\ map Pipeline.outputName rs = Pipeline.pl_outputs pipeline
    /\ Calls.output_calls tr
       = map (fun n => (Pipeline.InPipeline (Pipeline.pl_name pipeline), n))
           (List.filter (Calls.output_registered m) (Pipeline.pl_outputs pipeline))
    /\ Forall (fun r => Pipeline.o_success r = true <->
                        exists o, Pipeline.outputs m !! Pipeline.outputName r = Some o
                                  /\ Pipeline.output o record = Ok tt) rs.
Proof.
  intros Hpass.
  destruct (pipelineOutputs_from_entries pipeline (Pipeline.pl_outputs pipeline))
    as (tr & rs & Hrun & Hnames & Hcalls & _ & Hok).
  exists tr, rs. repeat split; try done.
  by apply processPipeline_passed.
Qed.

(** X9.  A pipeline whose [filter] is absent or the empty string has no
    filter: no filter is called for it, even if a filter is registered
    under the empty name, and the record always reaches its outputs. *)
Theorem falsy_filter_is_no_filter (pipeline : Pipeline.ProcessingPipeline) :
  Pipeline.pl_filter pipeline = None \/ Pipeline.pl_filter pipeline = Some "" ->
  Calls.filter_calls (Act.trace (Pipeline.processPipeline m pipeline record filePath lineNumber))
  = []
  /\ exists rs,
       Act.outcome (Pipeline.processPipeline m pipeline record filePath lineNumber)
       = Ok {| Pipeline.pipelineName := Pipeline.pl_name pipeline; Pipeline.success := true;
               Pipeline.filtered := Some false; Pipeline.error := None;
               Pipeline.outputResults := rs |}
       /\ map Pipeline.outputName rs = Pipeline.pl_outputs pipeline.
Proof.
  intros Hfalsy.
  assert (Htruthy : Pipeline.truthy (Pipeline.pl_filter pipeline) = None)
    by (destruct Hfalsy as [-> | ->]; reflexivity).
  destruct (pipelineOutputs_from_entries pipeline (Pipeline.pl_outputs pipeline))
    as (tr & rs & Hrun & Hnames & _ & Hnone & _).
  assert (Hpass : Observe.filter_passes m pipeline record)
    by (unfold Observe.filter_passes; by rewrite Htruthy).
  rewrite (processPipeline_passed m record filePath lineNumber pipeline tr rs Hpass Hrun).
  unfold Observe.filter_stage. rewrite Htruthy. simpl.
  split; [done |]. by exists rs.
Qed.
End PipelineStages.

Section PipelineStagesExamples.
Import Pipeline Fixtures Fixtures2.

(** X6 on [guarded_manager]: the pipeline guarded by ["A"]. *)
Lemma pipeline_filter_rejection_witness :
  exists tb rb ta ra,
    processPipelines_from guarded_manager [second_pipeline] 7 log_file 1 = (tb, Ok rb)
    /\ processPipelines_from guarded_manager [faulty_pipeline] 7 log_file 1 = (ta, Ok ra)
    /\ processPipelines_from guarded_manager
         ([second_pipeline] ++ rejected_pipeline :: [faulty_pipeline]) 7 log_file 1
       = (tb ++ [CallFilter (InPipeline (pl_name rejected_pipeline)) "A" 7;
                 Emit_record_filtered_pipeline 7 (pl_name rejected_pipeline) "A" log_file 1]
             ++ ta,
          Ok (rb ++ [{| pipelineName := pl_name rejected_pipeline; success := true;
                        filtered := Some true; error := None; outputResults := [] |}] ++ ra)).
Proof.
  apply (pipeline_filter_rejection guarded_manager 7 log_file 1
           [second_pipeline] [faulty_pipeline] rejected_pipeline "A" (reject_all "A"));
    reflexivity.
Defined.

(** X7 on [guarded_manager]: the pipeline guarded by ["F"]. *)
Lemma pipeline_filter_failure_witness :
  exists tb rb ta ra,
    processPipelines_from guarded_manager [second_pipeline; rejected_pipeline] 7 log_file 1
    = (tb, Ok rb)
    /\ processPipelines_from guarded_manager [] 7 log_file 1 = (ta, Ok ra)
    /\ processPipelines_from guarded_manager
         ([second_pipeline; rejected_pipeline] ++ faulty_pipeline :: []) 7 log_file 1
       = (tb ++ [CallFilter (InPipeline (pl_name faulty_pipeline)) "F" 7;
                 Error (PipelineError (pl_name faulty_pipeline) (ErrorObj "filter failed"))]
             ++ ta,
          Ok (rb ++ [{| pipelineName := pl_name faulty_pipeline; success := false;
                        filtered := None;
                        error := Some "filter failed";
                        outputResults := [] |}] ++ ra)).
Proof.
  apply (pipeline_filter_failure guarded_manager 7 log_file 1
           [second_pipeline; rejected_pipeline] [] faulty_pipeline "F" (failing_filter "F")
           (ErrorObj "filter failed"));
    reflexivity.
Defined.

(** X8 on [fanout_pipeline] in [guarded_manager]. *)
Lemma pipeline_output_entries_witness :
  exists tr rs,
    processPipeline guarded_manager fanout_pipeline 7 log_file 1
    = (Observe.filter_stage fanout_pipeline 7 ++ tr,
       Ok {| pipelineName := pl_name fanout_pipeline; success := true;
             filtered := Some false; error := None; outputResults := rs |})
    /\ map outputName rs = pl_outputs fanout_pipeline
    /\ Calls.output_calls tr
       = map (fun n => (InPipeline (pl_name fanout_pipeline), n))
           (List.filter (Calls.output_registered guarded_manager) (pl_outputs fanout_pipeline))
    /\ Forall (fun r => o_success r = true <->
                        exists o, outputs guarded_manager !! outputName r = Some o
                                  /\ output o 7 = Ok tt) rs.
Proof.
  apply (pipeline_output_entries guarded_manager 7 log_file 1 fanout_pipeline).
  exists (accept_all "B"). split; reflexivity.
Defined.

(** X9 on [unnamed_manager], where the filter registered under the empty
    name rejects every record. *)
Lemma falsy_filter_is_no_filter_witness :
  filters unnamed_manager !! "" = Some (reject_all "")
  /\ Calls.filter_calls (Act.trace (processPipeline unnamed_manager unnamed_pipeline 7 log_file 1))
     = []
  /\ exists rs,
       Act.outcome (processPipeline unnamed_manager unnamed_pipeline 7 log_file 1)
       = Ok {| pipelineName := pl_name unnamed_pipeline; success := true;
               filtered := Some false; error := None; outputResults := rs |}
       /\ map outputName rs = pl_outputs unnamed_pipeline.
Proof.
  split; [reflexivity |].
  apply (falsy_filter_is_no_filter unnamed_manager 7 log_file 1 unnamed_pipeline).
  right. reflexivity.
Defined.
End PipelineStagesExamples.

(** ** Lines and their numbers *)

Section LineFacts.
Context {JsonlRecord : Type}.
Variable JSON_parse : list byte -> Outcome JsonlRecord.
Variable trim_is_empty : list byte -> bool.

Local Abbreviation nonblank := (fun line : list byte => negb (trim_is_empty line)).
Local Abbreviation numbered := (Report.numbered_reports JSON_parse trim_is_empty).
Local Abbreviation run_file := (Processor.processFile JSON_parse trim_is_empty).
Local Abbreviation calm tr :=
  (Forall (fun e : Processor.Event JsonlRecord => Report.is_record_error e = false) tr).

Lemma numbered_reports_cons (base : nat) (line : list byte) (lines : list (list byte)) :
  numbered base (line :: lines)
  = (if trim_is_empty line then []
     else match JSON_parse line with
          | Ok record => [Report.Dispatched (S base) record]
          | Throw t => [Report.ParseFailed (S base) line t]
          end) ++ numbered (S base) lines.
Proof.
  unfold Report.numbered_reports. rewrite imap_cons. simpl.
  replace (base + 0 + 1) with (S base) by lia. f_equal. f_equal.
  apply imap_ext. intros i l _. simpl.
  by replace (base + S i + 1) with (S (base + i + 1)) by lia.
Qed.

(** Handing a record to the manager always comes back normally. *)
Lemma processRecord_exact (p : Processor.JsonlStreamProcessor JsonlRecord)
    (record : JsonlRecord) (filePath : string) (lineNumber : nat) :
  Processor.processRecord p record filePath lineNumber
  = ([Processor.Dispatch record filePath lineNumber
        (Act.trace (Pipeline.processRecord (Processor.pipelineManager p)
                      record filePath lineNumber))], Ok tt).
Proof.
  unfold Processor.processRecord.
  destruct (processRecord_anatomy (Processor.pipelineManager p) record filePath lineNumber)
    as (tg & tp & rs & tgo & _ & _ & _ & ->). done.
Qed.

Lemma processLines_reports (p : Processor.JsonlStreamProcessor JsonlRecord)
    (filePath : string) (lines : list (list byte)) (base : nat) :
  exists tr,
    Processor.processLines JSON_parse trim_is_empty p filePath lines base = (tr, Ok tt)
    /\ Report.line_reports tr = numbered base lines
    /\ calm tr
    /\ Observe.parsed_lines tr = List.filter nonblank lines
    /\ Observe.stream_reads tr = [].
Proof.
  revert base. induction lines as [|line lines IH]; intros base.
  - exists []. repeat split; constructor.
  - destruct (IH (S base)) as (tr & Hrun & Hrep & Hcalm & Hparsed & Hreads).
    rewrite numbered_reports_cons. simpl.
    destruct (trim_is_empty line) eqn:Hblank; simpl.
    + by exists tr.
    + destruct (JSON_parse line) as [record|t]; simpl.
      * rewrite processRecord_exact. simpl. rewrite Hrun. simpl.
        eexists. split; [done |].
        unfold Report.line_reports, Observe.parsed_lines, Observe.stream_reads in *. simpl.
        rewrite Hrep, Hparsed, Hreads. repeat split; try done. by repeat constructor.
      * rewrite Hrun. simpl. eexists. split; [done |].
        unfold Report.line_reports, Observe.parsed_lines, Observe.stream_reads in *. simpl.
        rewrite Hrep, Hparsed, Hreads. repeat split; try done. by repeat constructor.
Qed.

Section Idle.
Variable p : Processor.JsonlStreamProcessor JsonlRecord.
Variable fs : gmap string (list byte).
Variable filePath : string.
Hypothesis idle : Processor.isProcessing p = false.

(** X10.  With buffering disabled, a read of an existing file streams the
    whole file from byte 0, reports every non-blank line (dispatch or
    [parse-error]) under its number in the file, counted from 1 with blank
    lines included, and leaves the processor, offset table included, as it
    was; a line that fails to parse does not stop the lines after it.  So
    each such read processes the whole file again. *)
Theorem unbuffered_read_is_complete (content : list byte) :
  Processor.enableBuffering p = false ->
  fs !! filePath = Some content ->
  exists tr,
    run_file p fs filePath = (p, (tr, Ok tt))
    /\ Observe.stream_reads tr = [(0, content)]
    /\ Report.line_reports tr = numbered 0 (readline content).
Proof.
  intros Hbuf Hdisk.
  rewrite processFile_eq; unfold Processor.processFile_begin; cbv beta zeta. rewrite idle.
  rewrite processFile_finish_eq; cbv beta zeta. simpl. rewrite Hbuf.
  unfold Processor.processFileComplete. rewrite Hdisk.
  destruct (processLines_reports (Processor.set_isProcessing true p) filePath
              (readline content) 0) as (tr & Hrun & Hrep & _ & _ & Hreads).
  simpl. rewrite Hrun. simpl. rewrite set_isProcessing_back by done.
  eexists. split; [done |].
  unfold Report.line_reports, Observe.stream_reads in *. simpl.
  rewrite !flat_map_app, Hrep, Hreads. simpl. by rewrite app_nil_r.
Qed.

(** X11.  A buffered read of new bytes reports every non-blank line of
    the streamed range under a number that continues from an estimate of
    100 bytes per line: the first streamed line has the number
    [offset / 100 + 1] (and 1 when the offset is 0), whatever the number of
    lines read before.  A line that fails to parse is reported as
    [parse-error] and the lines after it are still processed. *)
Theorem buffered_line_numbers (content : list byte) :
  Processor.enableBuffering p = true ->
  fs !! filePath = Some content ->
  Processor.getFilePosition p filePath < length content ->
  exists tr,
    run_file p fs filePath
    = (Processor.set_filePosition filePath (length content) p, (tr, Ok tt))
    /\ Report.line_reports tr
       = numbered (Processor.getFilePosition p filePath / 100)
           (readline (drop (Processor.getFilePosition p filePath) content)).
Proof.
  intros Hbuf Hdisk Hlt.
  rewrite processFile_eq; unfold Processor.processFile_begin; cbv beta zeta. rewrite idle.
  rewrite processFile_finish_eq; cbv beta zeta. simpl. rewrite Hbuf.
  rewrite processFileWithBuffering_eq; cbv beta zeta. rewrite Hdisk.
  change (Processor.getFilePosition (Processor.set_isProcessing true p) filePath)
    with (Processor.getFilePosition p filePath).
  set (last := Processor.getFilePosition p filePath) in *.
  destruct (Nat.ltb_spec (length content) last) as [|_]; [lia |].
  destruct (Nat.eqb_spec (length content) last) as [|_]; [lia |].
  destruct (processLines_reports (Processor.set_isProcessing true p) filePath
              (readline (drop last content))
              (Processor.getLineNumberFromPosition filePath last))
    as (tr & Hrun & Hrep & _).
  simpl. rewrite Hrun. simpl. rewrite set_isProcessing_idle by done.
  eexists. split; [done |].
  unfold Report.line_reports in *. simpl. rewrite flat_map_app, Hrep. simpl.
  rewrite app_nil_r. f_equal.
  unfold Processor.getLineNumberFromPosition.
  destruct (Nat.eqb_spec last 0) as [Hz | _]; [by rewrite Hz | done].
Qed.

(** X12.  A buffered read of a file that does not exist is reported and
    changes nothing: [processing-start] is followed by the failing [stat]
    and the [processing-error] event, which carries the error of [stat]
    (message [ENOENT: no such file or directory, stat '<path>']); no
    [processing-complete] is emitted, no stream is opened, the call itself
    ends normally, and the processor is as before (offset table unchanged,
    ready for the next call). *)
Theorem missing_file_is_reported :
  Processor.enableBuffering p = true ->
  fs !! filePath = None ->
  Processor.processFile JSON_parse trim_is_empty p fs filePath
  = (p, ([Processor.Emit_processing_start filePath; Processor.Stat filePath;
          Processor.Error
            (Processor.FileProcessingError filePath
               (ErrorObj ("ENOENT: no such file or directory, stat '" +:+ filePath +:+ "'")));
          Processor.Emit_processing_error filePath
            (ErrorObj ("ENOENT: no such file or directory, stat '" +:+ filePath +:+ "'"))],
         Ok tt)).
Proof.
  intros Hbuf Hdisk.
  rewrite processFile_eq; unfold Processor.processFile_begin; cbv beta zeta. rewrite idle.
  rewrite processFile_finish_eq; cbv beta zeta. simpl. rewrite Hbuf.
  rewrite processFileWithBuffering_eq; cbv beta zeta. rewrite Hdisk. simpl.
  by rewrite set_isProcessing_back.
Qed.
End Idle.
End LineFacts.

Section LineExamples.
Import Fixtures.

(** X10 on a processor without buffering and the file ["1" LF LF "x" LF "2"]. *)
Lemma unbuffered_read_is_complete_witness :
  exists tr,
    Processor.processFile parse_number ascii_blank (Processor.setBuffering false fresh)
      {[ log_file := bytes "1" ++ [LF; LF] ++ bytes "x" ++ [LF] ++ bytes "2" ]} log_file
    = (Processor.setBuffering false fresh, (tr, Ok tt))
    /\ Observe.stream_reads tr = [(0, bytes "1" ++ [LF; LF] ++ bytes "x" ++ [LF] ++ bytes "2")]
    /\ Report.line_reports tr
       = Report.numbered_reports parse_number ascii_blank 0
           (readline (bytes "1" ++ [LF; LF] ++ bytes "x" ++ [LF] ++ bytes "2")).
Proof.
  apply (unbuffered_read_is_complete parse_number ascii_blank (Processor.setBuffering false fresh)
           {[ log_file := bytes "1" ++ [LF; LF] ++ bytes "x" ++ [LF] ++ bytes "2" ]} log_file);
    reflexivity.
Defined.

(** X11 on a file read up to byte 2 that now holds ["1" LF "23" LF]. *)
Lemma buffered_line_numbers_witness :
  Processor.getFilePosition (Processor.set_filePosition log_file 2 fresh) log_file
  < length (torn_content ++ [LF])
  /\ exists tr,
       Processor.processFile parse_number ascii_blank (Processor.set_filePosition log_file 2 fresh)
         {[ log_file := torn_content ++ [LF] ]} log_file
       = (Processor.set_filePosition log_file (length (torn_content ++ [LF]))
            (Processor.set_filePosition log_file 2 fresh), (tr, Ok tt))
       /\ Report.line_reports tr
          = Report.numbered_reports parse_number ascii_blank
              (Processor.getFilePosition (Processor.set_filePosition log_file 2 fresh) log_file
               / 100)
              (readline (drop (Processor.getFilePosition
                                 (Processor.set_filePosition log_file 2 fresh) log_file)
                           (torn_content ++ [LF]))).
Proof.
  assert (Hlt : Processor.getFilePosition (Processor.set_filePosition log_file 2 fresh) log_file
                < length (torn_content ++ [LF])) by (vm_compute; lia).
  split; [exact Hlt |].
  apply (buffered_line_numbers parse_number ascii_blank (Processor.set_filePosition log_file 2 fresh)
           {[ log_file := torn_content ++ [LF] ]} log_file);
    [reflexivity | reflexivity | reflexivity | exact Hlt].
Defined.

(** X12 on an empty file system. *)
Lemma missing_file_is_reported_witness :
  Processor.processFile parse_number ascii_blank at_20 ∅ log_file
  = (at_20, ([Processor.Emit_processing_start log_file; Processor.Stat log_file;
              Processor.Error
                (Processor.FileProcessingError log_file
                   (ErrorObj "ENOENT: no such file or directory, stat 'a.jsonl'"));
              Processor.Emit_processing_error log_file
                (ErrorObj "ENOENT: no such file or directory, stat 'a.jsonl'")], Ok tt)).
Proof.
  apply (missing_file_is_reported parse_number ascii_blank at_20 ∅ log_file); reflexivity.
Defined.
End LineExamples.

(** ** What a pass leaves behind *)

Section PassFacts.
Context {JsonlRecord : Type}.
Variable JSON_parse : list byte -> Outcome JsonlRecord.
Variable trim_is_empty : list byte -> bool.

Local Abbreviation nonblank := (fun line : list byte => negb (trim_is_empty line)).
Local Abbreviation run_file := (Processor.processFile JSON_parse trim_is_empty).
Local Abbreviation calm tr :=
  (Forall (fun e : Processor.Event JsonlRecord => Report.is_record_error e = false) tr).

Lemma processFileComplete_calm (p : Processor.JsonlStreamProcessor JsonlRecord)
    (fs : gmap string (list byte)) (filePath : string) :
  calm (Act.trace (Processor.processFileComplete JSON_parse trim_is_empty p fs filePath)).
Proof.
  unfold Processor.processFileComplete.
  destruct (fs !! filePath) as [content|]; simpl; [| constructor].
  destruct (processLines_reports JSON_parse trim_is_empty p filePath (readline content) 0)
    as (tr & -> & _ & Hcalm & _). simpl. by constructor.
Qed.

(** The state after [processFileWithBuffering] is the state before, up to
    the offset of the file that was read. *)
Lemma processFileWithBuffering_state (p : Processor.JsonlStreamProcessor JsonlRecord)
    (fs : gmap string (list byte)) (filePath : string) :
  (fst (Processor.processFileWithBuffering JSON_parse trim_is_empty p fs filePath) = p
   \/ exists k,
        fst (Processor.processFileWithBuffering JSON_parse trim_is_empty p fs filePath)
        = Processor.set_filePosition filePath k p)
  /\ calm (Act.trace (snd (Processor.processFileWithBuffering JSON_parse trim_is_empty
                             p fs filePath))).
Proof.
  rewrite processFileWithBuffering_eq; cbv beta zeta.
  destruct (fs !! filePath) as [content|] eqn:Hdisk; [| split; [by left | by repeat constructor]].
  destruct (length content <? Processor.getFilePosition p filePath).
  - split; [right; by eexists |]. simpl.
    pose proof (processFileComplete_calm (Processor.set_filePosition filePath 0 p) fs filePath)
      as Hcalm.
    destruct (Processor.processFileComplete JSON_parse trim_is_empty
                (Processor.set_filePosition filePath 0 p) fs filePath) as [tr o].
    simpl in *. by repeat constructor.
  - destruct (length content =? Processor.getFilePosition p filePath);
      [split; [by left | by repeat constructor] |].
    destruct (processLines_reports JSON_parse trim_is_empty p filePath
                (readline (drop (Processor.getFilePosition p filePath) content))
                (Processor.getLineNumberFromPosition filePath
                   (Processor.getFilePosition p filePath)))
      as (tr & Hrun & _ & Hcalm & _).
    simpl. rewrite Hrun. simpl. split; [right; by eexists |]. by repeat constructor.
Qed.

Lemma processFile_finish_ok (p : Processor.JsonlStreamProcessor JsonlRecord)
    (fs : gmap string (list byte)) (filePath : string) :
  exists p1 tr,
    Processor.processFile_finish JSON_parse trim_is_empty p fs filePath
    = (Processor.set_isProcessing false p1, (tr, Ok tt))
    /\ (p1 = p \/ exists k, p1 = Processor.set_filePosition filePath k p)
    /\ calm tr.
Proof.
  rewrite processFile_finish_eq; cbv beta zeta.
  destruct (Processor.enableBuffering p).
  - destruct (processFileWithBuffering_state p fs filePath) as (Hstate & Hcalm).
    destruct (Processor.processFileWithBuffering JSON_parse trim_is_empty p fs filePath)
      as [p1 [tr [[]|t]]]; simpl in *; eexists p1, _; (split; [done |]); split; try done;
      rewrite ?app_nil_r; apply Forall_app; split; try done; by repeat constructor.
  - pose proof (processFileComplete_calm p fs filePath) as Hcalm.
    destruct (Processor.processFileComplete JSON_parse trim_is_empty p fs filePath)
      as [tr [[]|t]]; simpl in *; eexists p, _; (split; [done |]); (split; [by left |]);
      rewrite ?app_nil_r; apply Forall_app; split; try done; by repeat constructor.
Qed.

(** X13.  [processFile] never fails and never emits [record-error]:
    whatever the file system, the file and the plugins do, the call ends
    normally, and every failure has been turned into a [parse-error] or
    [processing-error] event or into an entry of a pipeline report.  If no
    pass was in flight before the call, none is in flight after it. *)
Theorem processFile_never_fails (p : Processor.JsonlStreamProcessor JsonlRecord)
    (fs : gmap string (list byte)) (filePath : string) :
  Act.outcome (snd (run_file p fs filePath)) = Ok tt
  /\ Forall (fun e => Report.is_record_error e = false) (Act.trace (snd (run_file p fs filePath)))
  /\ Processor.isProcessing (fst (run_file p fs filePath)) = Processor.isProcessing p.
Proof.
  rewrite processFile_eq; unfold Processor.processFile_begin; cbv beta zeta.
  destruct (Processor.isProcessing p) eqn:Hflag; simpl.
  - repeat split; [by repeat constructor | done].
  - destruct (processFile_finish_ok (Processor.set_isProcessing true p) fs filePath)
      as (p1 & tr & -> & _ & Hcalm). simpl. repeat split. by constructor.
Qed.

(** X14.  [processFile] for one file touches nothing but the offset of
    that file: the offsets of all other files, the buffering mode and the
    pipeline manager are as before. *)
Theorem processFile_touches_one_offset (p : Processor.JsonlStreamProcessor JsonlRecord)
    (fs : gmap string (list byte)) (filePath other : string) :
  other <> filePath ->
  Processor.getFilePosition (fst (run_file p fs filePath)) other
  = Processor.getFilePosition p other
  /\ Processor.enableBuffering (fst (run_file p fs filePath)) = Processor.enableBuffering p
  /\ Processor.pipelineManager (fst (run_file p fs filePath)) = Processor.pipelineManager p.
Proof.
  intros Hother.
  rewrite processFile_eq; unfold Processor.processFile_begin; cbv beta zeta.
  destruct (Processor.isProcessing p) eqn:Hflag; simpl; [done |].
  destruct (processFile_finish_ok (Processor.set_isProcessing true p) fs filePath)
    as (p1 & tr & -> & [-> | [k ->]] & _); simpl; [done |].
  unfold Processor.getFilePosition. simpl. by rewrite lookup_insert_ne.
Qed.

(** X15.  After a buffered read of an existing file the stored offset
    does not exceed the size of the file, whatever it was before: it is the
    size when the file had grown or was unchanged, and 0 when the file had
    become shorter than the stored offset. *)
Theorem offset_within_file_after_read (p : Processor.JsonlStreamProcessor JsonlRecord)
    (fs : gmap string (list byte)) (filePath : string) (content : list byte) :
  Processor.isProcessing p = false ->
  Processor.enableBuffering p = true ->
  fs !! filePath = Some content ->
  Processor.getFilePosition (fst (run_file p fs filePath)) filePath
  = (if length content <? Processor.getFilePosition p filePath then 0 else length content)
  /\ Processor.getFilePosition (fst (run_file p fs filePath)) filePath <= length content.
Proof.
  intros Hidle Hbuf Hdisk.
  assert (Hfirst : Processor.getFilePosition (fst (run_file p fs filePath)) filePath
    = (if length content <? Processor.getFilePosition p filePath then 0 else length content)).
  { destruct (Nat.ltb_spec (length content) (Processor.getFilePosition p filePath)) as [Hlt|Hge].
    - destruct (processFile_truncated JSON_parse trim_is_empty p fs filePath content
                  Hidle Hbuf Hdisk Hlt) as (tr & -> & _). apply getFilePosition_set.
    - destruct (decide (Processor.getFilePosition p filePath = length content)) as [Heq|Hne].
      + by rewrite (processFile_no_new_data JSON_parse trim_is_empty p fs filePath content
                      Hidle Hbuf Hdisk Heq).
      + destruct (processFile_new_data JSON_parse trim_is_empty p fs filePath content
                    Hidle Hbuf Hdisk ltac:(lia)) as (tr & -> & _). apply getFilePosition_set. }
  split; [exact Hfirst |]. rewrite Hfirst.
  destruct (length content <? Processor.getFilePosition p filePath); lia.
Qed.

(** X16.  Tail-from-now: once [initializeFilePosition] has recorded the
    size of an existing file, a read of the unchanged file opens no stream
    and parses nothing, and after bytes have been appended a read streams
    exactly the appended bytes and parses their non-blank lines; what the
    file held at initialisation is never read. *)
Theorem initialize_then_tail (p : Processor.JsonlStreamProcessor JsonlRecord)
    (fs : gmap string (list byte)) (filePath : string) (content more : list byte) :
  Processor.isProcessing p = false ->
  Processor.enableBuffering p = true ->
  fs !! filePath = Some content ->
  more <> [] ->
  exists p1 tr0 tr,
    Offsets.initializeFilePosition p fs filePath = (p1, tr0)
    /\ Processor.getFilePosition p1 filePath = length content
    /\ run_file p1 fs filePath
       = (p1, ([Processor.Emit_processing_start filePath; Processor.Stat filePath;
                Processor.Log (Processor.NoNewData filePath);
                Processor.Emit_processing_complete filePath], Ok tt))
    /\ run_file p1 (<[filePath := content ++ more]> fs) filePath
       = (Processor.set_filePosition filePath (length (content ++ more)) p1, (tr, Ok tt))
    /\ Observe.stream_reads tr = [(length content, more)]
    /\ Observe.parsed_lines tr = List.filter nonblank (readline more).
Proof.
  intros Hidle Hbuf Hdisk Hmore.
  unfold Offsets.initializeFilePosition. rewrite Hdisk.
  set (p1 := Processor.set_filePosition filePath (length content) p).
  assert (Hpos : Processor.getFilePosition p1 filePath = length content)
    by apply getFilePosition_set.
  assert (Hidle1 : Processor.isProcessing p1 = false) by done.
  assert (Hbuf1 : Processor.enableBuffering p1 = true) by done.
  destruct (processFile_new_data JSON_parse trim_is_empty p1
              (<[filePath := content ++ more]> fs) filePath (content ++ more)
              Hidle1 Hbuf1 (lookup_insert_eq _ _ _))
    as (tr & Hrun & Hreads & Hparsed).
  { rewrite Hpos, length_app. destruct more; [done | simpl; lia]. }
  rewrite Hpos, drop_app_length in Hreads, Hparsed.
  eexists p1, _, tr. split; [done |]. split; [done |]. split; [| done].
  by apply (processFile_no_new_data JSON_parse trim_is_empty p1 fs filePath content).
Qed.
End PassFacts.

Section PassExamples.
Import Fixtures.

(** X14 for a read of [log_file] and the offset of ["b.jsonl"]. *)
Lemma processFile_touches_one_offset_witness :
  Processor.getFilePosition
    (fst (Processor.processFile parse_number ascii_blank
            (Processor.set_filePosition "b.jsonl" 7 fresh)
            {[ log_file := torn_content ]} log_file)) "b.jsonl"
  = Processor.getFilePosition (Processor.set_filePosition "b.jsonl" 7 fresh) "b.jsonl"
  /\ Processor.enableBuffering
       (fst (Processor.processFile parse_number ascii_blank
               (Processor.set_filePosition "b.jsonl" 7 fresh)
               {[ log_file := torn_content ]} log_file))
     = Processor.enableBuffering (Processor.set_filePosition "b.jsonl" 7 fresh)
  /\ Processor.pipelineManager
       (fst (Processor.processFile parse_number ascii_blank
               (Processor.set_filePosition "b.jsonl" 7 fresh)
               {[ log_file := torn_content ]} log_file))
     = Processor.pipelineManager (Processor.set_filePosition "b.jsonl" 7 fresh).
Proof.
  apply (processFile_touches_one_offset parse_number ascii_blank
           (Processor.set_filePosition "b.jsonl" 7 fresh)
           {[ log_file := torn_content ]} log_file "b.jsonl").
  discriminate.
Defined.

(** X15 on the file of 4 bytes and the stored offset 20. *)
Lemma offset_within_file_after_read_witness :
  Processor.getFilePosition
    (fst (Processor.processFile parse_number ascii_blank at_20
            {[ log_file := rewritten_content ]} log_file)) log_file
  = (if length rewritten_content <? Processor.getFilePosition at_20 log_file
     then 0 else length rewritten_content)
  /\ Processor.getFilePosition
       (fst (Processor.processFile parse_number ascii_blank at_20
               {[ log_file := rewritten_content ]} log_file)) log_file
     <= length rewritten_content.
Proof.
  apply (offset_within_file_after_read parse_number ascii_blank at_20
           {[ log_file := rewritten_content ]} log_file rewritten_content);
    reflexivity.
Defined.

(** X16 on a file that holds ["1" LF "23"] at start-up and then receives
    ["4" LF]. *)
Lemma initialize_then_tail_witness :
  exists p1 tr0 tr,
    Offsets.initializeFilePosition fresh {[ log_file := torn_content ]} log_file = (p1, tr0)
    /\ Processor.getFilePosition p1 log_file = length torn_content
    /\ Processor.processFile parse_number ascii_blank p1 {[ log_file := torn_content ]} log_file
       = (p1, ([Processor.Emit_processing_start log_file; Processor.Stat log_file;
                Processor.Log (Processor.NoNewData log_file);
                Processor.Emit_processing_complete log_file], Ok tt))
    /\ Processor.processFile parse_number ascii_blank p1
         (<[log_file := torn_content ++ (bytes "4" ++ [LF])]> {[ log_file := torn_content ]})
         log_file
       = (Processor.set_filePosition log_file (length (torn_content ++ (bytes "4" ++ [LF]))) p1,
          (tr, Ok tt))
    /\ Observe.stream_reads tr = [(length torn_content, bytes "4" ++ [LF])]
    /\ Observe.parsed_lines tr
       = List.filter (fun line => negb (ascii_blank line)) (readline (bytes "4" ++ [LF])).
Proof.
  apply (initialize_then_tail parse_number ascii_blank fresh {[ log_file := torn_content ]}
           log_file torn_content (bytes "4" ++ [LF]));
    [reflexivity | reflexivity | reflexivity | discriminate].
Defined.
End PassExamples.

(** ** File events and plugin loading *)

Section OrchestratorFacts.
Context {JsonlRecord : Type}.
Variable JSON_parse : list byte -> Outcome JsonlRecord.
Variable trim_is_empty : list byte -> bool.

Local Abbreviation nonblank := (fun line : list byte => negb (trim_is_empty line)).
Local Abbreviation handle := (Orchestrator.handleFileEvent JSON_parse trim_is_empty).


(** X18.  Handling a file event never fails, and the server's own
    [processing-error] is never emitted: a pass that goes wrong has already
    been reported by the processor.  An [add] or [change] event for a path
    that does not exist only warns: no pass is started and the processor is
    left as it is. *)
Theorem handleFileEvent_never_fails
    (p : Processor.JsonlStreamProcessor JsonlRecord) (fs : gmap string (list byte))
    (event : Orchestrator.FileWatchEvent) :
  Act.outcome (snd (handle p fs event)) = Ok tt
  /\ Forall (fun e => Orchestrator.is_failure e = false) (Act.trace (snd (handle p fs event)))
  /\ (Orchestrator.ev_type event <> Orchestrator.unlink ->
      fs !! Orchestrator.ev_path event = None ->
      handle p fs event
      = (p, ([Orchestrator.Warn (Orchestrator.FileMissing (Orchestrator.ev_path event))], Ok tt))).
Proof.
  assert (Hpass : forall q,
    exists q1 tr, Processor.processFile JSON_parse trim_is_empty q fs (Orchestrator.ev_path event)
                  = (q1, (tr, Ok tt))).
  { intros q. rewrite processFile_eq; unfold Processor.processFile_begin; cbv beta zeta.
    destruct (Processor.isProcessing q); [by eexists _, _ |].
    destruct (processFile_finish_ok JSON_parse trim_is_empty (Processor.set_isProcessing true q)
                fs (Orchestrator.ev_path event)) as (q1 & tr & -> & _). by eexists _, _. }
  destruct (Hpass p) as (q1 & tr & Hrun).
  unfold Orchestrator.handleFileEvent.
  destruct event as [[] path]; simpl in *;
    destruct (fs !! path) as [content|] eqn:Hdisk; rewrite ?Hrun; simpl;
    repeat split; try done; by repeat constructor.
Qed.

Lemma filters_foldl_addOutput (os : list (Pipeline.OutputPlugin JsonlRecord))
    (m : Pipeline.ProcessingPipelineManager JsonlRecord) :
  Pipeline.filters (foldl (fun acc o => Pipeline.addOutput o acc) m os) = Pipeline.filters m.
Proof. revert m. induction os as [|o os IH]; intros m; simpl; [done | by rewrite IH]. Qed.

Lemma outputs_foldl_addFilter (fl : list (Pipeline.FilterPlugin JsonlRecord))
    (m : Pipeline.ProcessingPipelineManager JsonlRecord) :
  Pipeline.outputs (foldl (fun acc f => Pipeline.addFilter f acc) m fl) = Pipeline.outputs m.
Proof. revert m. induction fl as [|f fl IH]; intros m; simpl; [done | by rewrite IH]. Qed.

Lemma filters_foldl_addFilter (fl : list (Pipeline.FilterPlugin JsonlRecord))
    (m : Pipeline.ProcessingPipelineManager JsonlRecord) (n : string) :
  Pipeline.filters (foldl (fun acc f => Pipeline.addFilter f acc) m fl) !! n
  = match List.find (fun f => String.eqb (Pipeline.f_name f) n) (rev fl) with
    | Some f => Some f
    | None => Pipeline.filters m !! n
    end.
Proof.
  induction fl as [|f fl IH] using rev_ind; [done |].
  rewrite foldl_app, rev_app_distr. simpl.
  destruct (String.eqb_spec (Pipeline.f_name f) n) as [-> | Hne].
  - by rewrite lookup_insert_eq.
  - by rewrite lookup_insert_ne.
Qed.

Lemma outputs_foldl_addOutput (os : list (Pipeline.OutputPlugin JsonlRecord))
    (m : Pipeline.ProcessingPipelineManager JsonlRecord) (n : string) :
  Pipeline.outputs (foldl (fun acc o => Pipeline.addOutput o acc) m os) !! n
  = match List.find (fun o => String.eqb (Pipeline.o_name o) n) (rev os) with
    | Some o => Some o
    | None => Pipeline.outputs m !! n
    end.
Proof.
  induction os as [|o os IH] using rev_ind; [done |].
  rewrite foldl_app, rev_app_distr. simpl.
  destruct (String.eqb_spec (Pipeline.o_name o) n) as [-> | Hne].
  - by rewrite lookup_insert_eq.
  - by rewrite lookup_insert_ne.
Qed.

(** X19.  Plugins are registered under their names in configuration
    order, and a later plugin replaces an earlier one of the same name: in
    the manager the constructor builds, a filter (an output) name resolves
    to the last plugin of the configuration that carries it, and to nothing
    if there is none.  The pipelines are those of the configuration, and
    the global lists are those of the configuration or empty when absent. *)
Theorem last_registration_wins (config : Orchestrator.ServerConfig JsonlRecord) (n : string) :
  let m := fst (Orchestrator.loadPlugins config Pipeline.empty_manager) in
  Pipeline.filters m !! n
  = List.find (fun f => String.eqb (Pipeline.f_name f) n) (rev (Orchestrator.cfg_filters config))
  /\ Pipeline.outputs m !! n
     = List.find (fun o => String.eqb (Pipeline.o_name o) n) (rev (Orchestrator.cfg_outputs config))
  /\ Pipeline.pipelines m = Orchestrator.cfg_pipelines config
  /\ Pipeline.globalFilters m = default [] (Orchestrator.cfg_globalFilters config)
  /\ Pipeline.globalOutputs m = default [] (Orchestrator.cfg_globalOutputs config).
Proof.
  unfold Orchestrator.loadPlugins.
  destruct config as [fl os ps gf go eb]. simpl.
  assert (Hf : forall n0, Pipeline.filters
      (foldl (fun acc o => Pipeline.addOutput o acc)
         (foldl (fun acc f => Pipeline.addFilter f acc) Pipeline.empty_manager fl) os) !! n0
    = List.find (fun f => String.eqb (Pipeline.f_name f) n0) (rev fl)).
  { intros n0. rewrite filters_foldl_addOutput, filters_foldl_addFilter.
    by destruct (List.find _ (rev fl)). }
  assert (Ho : forall n0, Pipeline.outputs
      (foldl (fun acc o => Pipeline.addOutput o acc)
         (foldl (fun acc f => Pipeline.addFilter f acc) Pipeline.empty_manager fl) os) !! n0
    = List.find (fun o => String.eqb (Pipeline.o_name o) n0) (rev os)).
  { intros n0. rewrite outputs_foldl_addOutput, outputs_foldl_addFilter.
    by destruct (List.find _ (rev os)). }
  assert (Hgf : forall fl0 os0 m0,
    Pipeline.globalFilters
      (foldl (fun acc o => Pipeline.addOutput o acc)
         (foldl (fun acc f => Pipeline.addFilter f acc) m0 fl0) os0)
    = Pipeline.globalFilters (m0 : Pipeline.ProcessingPipelineManager JsonlRecord)
    /\ Pipeline.globalOutputs
         (foldl (fun acc o => Pipeline.addOutput o acc)
            (foldl (fun acc f => Pipeline.addFilter f acc) m0 fl0) os0)
       = Pipeline.globalOutputs m0).
  { intros fl0 os0. revert fl0. induction os0 as [|o os0 IH] using rev_ind; intros fl0 m0.
    - simpl. revert m0. induction fl0 as [|f fl0 IHf]; intros m0; [done |].
      simpl. destruct (IHf (Pipeline.addFilter f m0)) as [-> ->]. done.
    - rewrite foldl_app. simpl. apply IH. }
  destruct (Hgf fl os Pipeline.empty_manager) as [Hgf1 Hgo1].
  destruct gf as [gf|], go as [go|]; simpl; rewrite ?Hf, ?Ho, ?Hgf1, ?Hgo1; done.
Qed.
End OrchestratorFacts.


(** X18 for a [change] event while the file system is empty. *)
Lemma handleFileEvent_never_fails_witness :
  Act.outcome
    (snd (Orchestrator.handleFileEvent Fixtures.parse_number Fixtures.ascii_blank Fixtures.at_20 ∅
            {| Orchestrator.ev_type := Orchestrator.change;
               Orchestrator.ev_path := Fixtures.log_file |})) = Ok tt
  /\ Forall (fun e => Orchestrator.is_failure e = false)
       (Act.trace
          (snd (Orchestrator.handleFileEvent Fixtures.parse_number Fixtures.ascii_blank
                  Fixtures.at_20 ∅
                  {| Orchestrator.ev_type := Orchestrator.change;
                     Orchestrator.ev_path := Fixtures.log_file |})))
  /\ Orchestrator.handleFileEvent Fixtures.parse_number Fixtures.ascii_blank Fixtures.at_20 ∅
       {| Orchestrator.ev_type := Orchestrator.change; Orchestrator.ev_path := Fixtures.log_file |}
     = (Fixtures.at_20,
        ([Orchestrator.Warn (Orchestrator.FileMissing Fixtures.log_file)], Ok tt)).
Proof.
  destruct (handleFileEvent_never_fails Fixtures.parse_number Fixtures.ascii_blank
              Fixtures.at_20 ∅
              {| Orchestrator.ev_type := Orchestrator.change;
                 Orchestrator.ev_path := Fixtures.log_file |}) as (Hok & Hquiet & Hmissing).
  split; [exact Hok |]. split; [exact Hquiet |].
  apply Hmissing; [discriminate | reflexivity].
Defined.

(** ** Debouncing *)

Section DebounceFacts.
Variable extname : string -> string.
Variable toLowerCase : string -> string.
Variable resolve : string -> string.

Local Abbreviation handle := (Debounce.handleFileEvent extname toLowerCase).
Local Abbreviation burst := (Debounce.raw_events extname toLowerCase).
Local Abbreviation silent tr := (Forall (fun e => Debounce.is_file_event e = false) tr).

Lemma raw_events_app (timers : gmap string Orchestrator.FileEventType)
    (xs ys : list (Orchestrator.FileEventType * string)) :
  burst timers (xs ++ ys)
  = (fst (burst (fst (burst timers xs)) ys),
     snd (burst timers xs) ++ snd (burst (fst (burst timers xs)) ys)).
Proof.
  revert timers. induction xs as [|[ty path] xs IH]; intros timers; simpl.
  - by destruct (burst timers ys).
  - destruct (handle timers ty path) as [t1 tr1]. rewrite IH.
    destruct (burst t1 xs) as [t2 tr2]. simpl. by rewrite app_assoc.
Qed.

Lemma handleFileEvent_silent (timers : gmap string Orchestrator.FileEventType)
    (ty : Orchestrator.FileEventType) (path : string) :
  silent (snd (handle timers ty path)).
Proof.
  unfold Debounce.handleFileEvent.
  destruct (negb (String.eqb (toLowerCase (extname path)) ".jsonl")); [constructor |].
  destruct (timers !! path); by repeat constructor.
Qed.

Lemma raw_events_silent (timers : gmap string Orchestrator.FileEventType)
    (evs : list (Orchestrator.FileEventType * string)) :
  silent (snd (burst timers evs)).
Proof.
  revert timers. induction evs as [|[ty path] evs IH]; intros timers; simpl; [constructor |].
  pose proof (handleFileEvent_silent timers ty path) as Hhead.
  destruct (handle timers ty path) as [t1 tr1].
  specialize (IH t1). destruct (burst t1 evs) as [t2 tr2].
  simpl in *. by apply Forall_app.
Qed.

(** Raw events for other paths leave the timer of [path] alone. *)
Lemma raw_events_other (timers : gmap string Orchestrator.FileEventType)
    (evs : list (Orchestrator.FileEventType * string)) (path : string) :
  Forall (fun ev => snd ev <> path) evs ->
  fst (burst timers evs) !! path = timers !! path.
Proof.
  intros Hother. revert timers.
  induction Hother as [|[ty q] evs Hq _ IH]; intros timers; simpl; [done |].
  unfold Debounce.handleFileEvent.
  destruct (negb (String.eqb (toLowerCase (extname q)) ".jsonl")).
  - specialize (IH timers). by destruct (burst timers evs).
  - specialize (IH (<[q := ty]> timers)). destruct (burst (<[q := ty]> timers) evs).
    simpl in *. by rewrite IH, lookup_insert_ne.
Qed.

(** X20.  Raw events are collapsed per path: after any run of raw events
    during which no timer expires, the timer of a [.jsonl] path delivers
    one [file-event], of the type of the last raw event for that path and
    with the resolved path, whatever came before it and whatever happened
    to other paths; no [file-event] is emitted while the raw events arrive,
    and once delivered the timer is gone, so it cannot fire again. *)
Theorem debounce_delivers_last_type
    (timers : gmap string Orchestrator.FileEventType)
    (before after : list (Orchestrator.FileEventType * string))
    (type : Orchestrator.FileEventType) (path : string) :
  toLowerCase (extname path) = ".jsonl" ->
  Forall (fun ev => snd ev <> path) after ->
  Forall (fun e => Debounce.is_file_event e = false)
    (snd (burst timers (before ++ (type, path) :: after)))
  /\ Debounce.timeout resolve (fst (burst timers (before ++ (type, path) :: after))) path
     = (delete path (fst (burst timers (before ++ (type, path) :: after))),
        [Debounce.Log (Debounce.FileEventLog type path);
         Debounce.Emit_file_event {| Orchestrator.ev_type := type;
                                     Orchestrator.ev_path := resolve path |}])
  /\ Debounce.timeout resolve
       (delete path (fst (burst timers (before ++ (type, path) :: after)))) path
     = (delete path (fst (burst timers (before ++ (type, path) :: after))), []).
Proof.
  intros Hjsonl Hafter. split; [apply raw_events_silent |].
  assert (Hpending : fst (burst timers (before ++ (type, path) :: after)) !! path = Some type).
  { rewrite raw_events_app. simpl. unfold Debounce.handleFileEvent at 1.
    rewrite Hjsonl. simpl.
    pose proof (raw_events_other (<[path := type]> (fst (burst timers before))) after path Hafter)
      as Hkeep.
    destruct (burst (<[path := type]> (fst (burst timers before))) after). simpl in *.
    by rewrite Hkeep, lookup_insert_eq. }
  unfold Debounce.timeout. rewrite Hpending, lookup_delete_eq. done.
Qed.

(** X21.  Files of other types never get a timer: whatever raw events
    arrive, starting with no timer pending, no [file-event] can be
    delivered for a path whose lower-cased extension is not [.jsonl]. *)
Theorem other_files_are_ignored
    (evs : list (Orchestrator.FileEventType * string)) (path : string) :
  toLowerCase (extname path) <> ".jsonl" ->
  fst (burst ∅ evs) !! path = None
  /\ Debounce.timeout resolve (fst (burst ∅ evs)) path = (fst (burst ∅ evs), []).
Proof.
  intros Hother.
  assert (Hnone : forall timers, timers !! path = None -> fst (burst timers evs) !! path = None).
  { induction evs as [|[ty q] evs' IH]; intros timers Hstart; simpl; [done |].
    unfold Debounce.handleFileEvent.
    destruct (String.eqb_spec (toLowerCase (extname q)) ".jsonl") as [Hq | Hq]; simpl.
    - specialize (IH (<[q := ty]> timers)). destruct (burst (<[q := ty]> timers) evs').
      simpl in *. apply IH. rewrite lookup_insert_ne; [done |]. by intros ->.
    - specialize (IH timers Hstart). by destruct (burst timers evs'). }
  assert (Hpath : fst (burst ∅ evs) !! path = None) by (apply Hnone; apply lookup_empty).
  split; [exact Hpath |]. unfold Debounce.timeout. by rewrite Hpath.
Qed.
End DebounceFacts.

Section DebounceExamples.
(** [extname] and [toLowerCase] on the three paths used here. *)
Local Abbreviation sample_ext :=
  (fun path : string => if String.eqb path "a.JSONL" then ".JSONL"
                        else if String.eqb path "b.jsonl" then ".jsonl" else ".txt").
Local Abbreviation sample_lower :=
  (fun ext : string => if String.eqb ext ".JSONL" then ".jsonl" else ext).
Local Abbreviation sample_burst :=
  (Debounce.raw_events sample_ext sample_lower ∅
     ([(Orchestrator.add, "a.JSONL"); (Orchestrator.change, "notes.txt")]
        ++ (Orchestrator.change, "a.JSONL") :: [(Orchestrator.add, "b.jsonl")])).

(** X20 for the raw events [add a.JSONL], [change notes.txt],
    [change a.JSONL], [add b.jsonl]. *)
Lemma debounce_delivers_last_type_witness :
  Forall (fun e => Debounce.is_file_event e = false) (snd sample_burst)
  /\ Debounce.timeout (fun path => "/logs/" +:+ path) (fst sample_burst) "a.JSONL"
     = (delete "a.JSONL" (fst sample_burst),
        [Debounce.Log (Debounce.FileEventLog Orchestrator.change "a.JSONL");
         Debounce.Emit_file_event {| Orchestrator.ev_type := Orchestrator.change;
                                     Orchestrator.ev_path := "/logs/" +:+ "a.JSONL" |}])
  /\ Debounce.timeout (fun path => "/logs/" +:+ path)
       (delete "a.JSONL" (fst sample_burst)) "a.JSONL"
     = (delete "a.JSONL" (fst sample_burst), []).
Proof.
  apply (debounce_delivers_last_type sample_ext sample_lower (fun path => "/logs/" +:+ path) ∅
           [(Orchestrator.add, "a.JSONL"); (Orchestrator.change, "notes.txt")]
           [(Orchestrator.add, "b.jsonl")] Orchestrator.change "a.JSONL").
  - reflexivity.
  - repeat constructor. discriminate.
Defined.

(** X21 for the same raw events and the path [notes.txt]. *)
Lemma other_files_are_ignored_witness :
  fst sample_burst !! "notes.txt" = None
  /\ Debounce.timeout (fun path => "/logs/" +:+ path) (fst sample_burst) "notes.txt"
     = (fst sample_burst, []).
Proof.
  apply (other_files_are_ignored sample_ext sample_lower (fun path => "/logs/" +:+ path)
           ([(Orchestrator.add, "a.JSONL"); (Orchestrator.change, "notes.txt")]
              ++ (Orchestrator.change, "a.JSONL") :: [(Orchestrator.add, "b.jsonl")])
           "notes.txt").
  discriminate.
Defined.
End DebounceExamples.

(** ** Command-line arguments *)

Section CliFacts.

Local Abbreviation no_config_flag args :=
  (forallb (fun arg => negb (Cli.is_config_flag arg)) args = true).

Lemma flag_not_positional (arg : string) :
  Cli.is_help_flag arg || Cli.is_version_flag arg = true ->
  Cli.startsWith_dash arg = true.
Proof.
  unfold Cli.is_help_flag, Cli.is_version_flag.
  intros H. repeat (apply orb_prop in H as [H|H]); apply String.eqb_eq in H; by subst.
Qed.

Lemma help_flag_not_version (arg : string) :
  Cli.is_help_flag arg = true -> Cli.is_version_flag arg = false.
Proof.
  unfold Cli.is_help_flag. intros H.
  apply orb_prop in H as [H|H]; apply String.eqb_eq in H; by subst.
Qed.

(** Arguments without a configuration flag are read one by one. *)
Lemma parseArgs_from_no_flag (args : list string) (o : Cli.CliOptions) :
  no_config_flag args ->
  Cli.parseArgs_from o args
  = {| Cli.config :=
         if Cli.config_unset o
         then match List.find Cli.positional args with
              | Some arg => Some arg
              | None => if existsb (fun arg => String.eqb arg "") args then Some ""
                        else Cli.config o
              end
         else Cli.config o;
       Cli.help := Cli.help o || existsb Cli.is_help_flag args;
       Cli.version := Cli.version o || existsb Cli.is_version_flag args |}.
Proof.
  revert o. induction args as [|arg args IH]; intros o Hno; simpl.
  - destruct o as [c h v]. simpl. rewrite !orb_false_r. by destruct (Cli.config_unset _).
  - simpl in Hno. apply andb_prop in Hno as [Harg Hno].
    apply negb_true_iff in Harg. rewrite Harg.
    destruct (Cli.is_help_flag arg) eqn:Hhelp.
    { rewrite (IH _ Hno). unfold Cli.positional, Cli.config_unset. simpl.
      rewrite (flag_not_positional arg) by (by rewrite Hhelp).
      assert (String.eqb arg "" = false) as ->.
      { apply String.eqb_neq. intros ->. by vm_compute in Hhelp. }
      simpl. by rewrite (help_flag_not_version arg Hhelp), orb_true_r. }
    destruct (Cli.is_version_flag arg) eqn:Hversion.
    { rewrite (IH _ Hno). unfold Cli.positional, Cli.config_unset. simpl.
      rewrite (flag_not_positional arg) by (by rewrite Hversion, orb_true_r).
      assert (String.eqb arg "" = false) as ->.
      { apply String.eqb_neq. intros ->. by vm_compute in Hversion. }
      simpl. by rewrite orb_true_r. }
    rewrite (IH _ Hno), (IH _ Hno). unfold Cli.positional. simpl.
    destruct (Cli.startsWith_dash arg) eqn:Hdash; simpl.
    + assert (String.eqb arg "" = false) as ->.
      { apply String.eqb_neq. intros ->. by vm_compute in Hdash. }
      done.
    + destruct (Cli.config_unset o) eqn:Hunset; simpl; [| done].
      unfold Cli.config_unset at 1. simpl.
      destruct (String.eqb_spec arg "") as [-> | Hne]; simpl.
      * destruct (List.find _ args); [done |].
        by destruct (existsb (fun arg => String.eqb arg "") args).
      * destruct arg; done.
Qed.

Lemma parseArgs_from_app (before rest : list string) (o : Cli.CliOptions) :
  no_config_flag before ->
  Cli.parseArgs_from o (before ++ rest) = Cli.parseArgs_from (Cli.parseArgs_from o before) rest.
Proof.
  revert o. induction before as [|arg before IH]; intros o Hno; [done |].
  simpl in Hno. apply andb_prop in Hno as [Harg Hno].
  apply negb_true_iff in Harg. simpl. rewrite Harg.
  destruct (Cli.is_help_flag arg); [by apply IH |].
  destruct (Cli.is_version_flag arg); [by apply IH |].
  destruct (negb (Cli.startsWith_dash arg) && Cli.config_unset o); by apply IH.
Qed.

(** X22.  Without a configuration flag among the arguments, the
    configuration path is the first argument that does not start with a
    dash and is not empty; if there is none it is the empty string when an
    empty argument was given and absent otherwise.  Help and version are
    requested exactly when one of their flags occurs; every other argument
    that starts with a dash is ignored. *)
Theorem parseArgs_without_config_flag (args : list string) :
  forallb (fun arg => negb (Cli.is_config_flag arg)) args = true ->
  Cli.config (Cli.parseArgs args)
  = match List.find Cli.positional args with
    | Some arg => Some arg
    | None => if existsb (fun arg => String.eqb arg "") args then Some "" else None
    end
  /\ Cli.help (Cli.parseArgs args) = existsb Cli.is_help_flag args
  /\ Cli.version (Cli.parseArgs args) = existsb Cli.is_version_flag args.
Proof.
  intros Hno. unfold Cli.parseArgs. rewrite (parseArgs_from_no_flag _ _ Hno). done.
Qed.

(** X23.  The arguments hold one configuration flag.  The flag takes the
    argument after it as it is, and that path wins over the positional
    arguments before it; it also wins over those after it, unless it is
    the empty string: then the first positional argument after it is the
    configuration path, and the empty string if there is none.  A
    configuration flag that comes last has no argument to take: the
    configuration path is then absent, even if a positional argument had
    set one. *)
Theorem explicit_config_flag_wins (before after : list string) (flag value : string) :
  forallb (fun arg => negb (Cli.is_config_flag arg)) before = true ->
  forallb (fun arg => negb (Cli.is_config_flag arg)) after = true ->
  Cli.is_config_flag flag = true ->
  Cli.config (Cli.parseArgs (before ++ flag :: value :: after))
  = match value, List.find Cli.positional after with
    | EmptyString, Some arg => Some arg
    | _, _ => Some value
    end
  /\ Cli.config (Cli.parseArgs (before ++ [flag])) = None.
Proof.
  intros Hbefore Hafter Hflag. unfold Cli.parseArgs.
  rewrite !parseArgs_from_app by done. simpl. rewrite Hflag.
  split; [| done].
  rewrite (parseArgs_from_no_flag _ _ Hafter). simpl.
  unfold Cli.config_unset. simpl.
  destruct value as [|c value]; [| done].
  destruct (List.find Cli.positional after); [done |].
  by destruct (existsb (fun arg => String.eqb arg EmptyString) after).
Qed.
End CliFacts.

(** X22 for [cctailpipe --verbose my.json -h other.json]. *)
Lemma parseArgs_without_config_flag_witness :
  Cli.config (Cli.parseArgs ["--verbose"; "my.json"; "-h"; "other.json"])
  = match List.find Cli.positional ["--verbose"; "my.json"; "-h"; "other.json"] with
    | Some arg => Some arg
    | None => if existsb (fun arg => String.eqb arg "")
                   ["--verbose"; "my.json"; "-h"; "other.json"]
              then Some "" else None
    end
  /\ Cli.help (Cli.parseArgs ["--verbose"; "my.json"; "-h"; "other.json"])
     = existsb Cli.is_help_flag ["--verbose"; "my.json"; "-h"; "other.json"]
  /\ Cli.version (Cli.parseArgs ["--verbose"; "my.json"; "-h"; "other.json"])
     = existsb Cli.is_version_flag ["--verbose"; "my.json"; "-h"; "other.json"].
Proof.
  apply (parseArgs_without_config_flag ["--verbose"; "my.json"; "-h"; "other.json"]).
  reflexivity.
Defined.

(** X23 for [cctailpipe a.json -c -v b.json] and [cctailpipe a.json -c],
    and for [cctailpipe -c '' y.json] and [cctailpipe -c]. *)
Lemma explicit_config_flag_wins_witness :
  (Cli.config (Cli.parseArgs (["a.json"] ++ "-c" :: "-v" :: ["b.json"])) = Some "-v"
   /\ Cli.config (Cli.parseArgs (["a.json"] ++ ["-c"])) = None)
  /\ (Cli.config (Cli.parseArgs ([] ++ "-c" :: EmptyString :: ["y.json"])) = Some "y.json"
      /\ Cli.config (Cli.parseArgs ([] ++ ["-c"])) = None).
Proof.
  split.
  - apply (explicit_config_flag_wins ["a.json"] ["b.json"] "-c" "-v"); reflexivity.
  - apply (explicit_config_flag_wins [] ["y.json"] "-c" EmptyString); reflexivity.
Defined.

(** ** A server started and stopped *)

Section RoundTrip.
Variable existsSync : string -> bool.

(** X25.  Starting and then stopping brings a server back to where it
    was: for a stopped server whose watcher is not active and has no
    pending timer, and whose watch directory exists, [start] followed by
    [stop] ends in the very same state, both calls end normally, and the
    events [started] and [stopped] are emitted in this order. *)
Theorem start_stop_round_trip (s : Server.JsonlStreamServer) :
  Server.isRunning s = false ->
  Server.watcher (Server.fileWatcher s) = false ->
  Server.debounceTimers (Server.fileWatcher s) = [] ->
  existsSync (Server.config_watchDirectory s) = true ->
  fst (Server.stop (fst (Server.start existsSync s))) = s
  /\ Act.outcome (snd (Server.start existsSync s)) = Ok tt
  /\ Act.outcome (snd (Server.stop (fst (Server.start existsSync s)))) = Ok tt
  /\ List.filter (fun e => match e with
                           | Server.Emit_started | Server.Emit_stopped => true
                           | _ => false
                           end)
       (Act.trace (snd (Server.start existsSync s))
        ++ Act.trace (snd (Server.stop (fst (Server.start existsSync s)))))
     = [Server.Emit_started; Server.Emit_stopped].
Proof.
  destruct s as [dir [active wdir timers] running]. simpl.
  intros -> -> -> Hdir.
  unfold Server.start, Server.stop, Server.FileWatcher_start, Server.FileWatcher_stop.
  simpl. rewrite Hdir. simpl.
  destruct (existsSync wdir); simpl; done.
Qed.
End RoundTrip.

(** X25 for a new server on a disk where only ["/logs"] exists. *)
Lemma start_stop_round_trip_witness :
  fst (Server.stop (fst (Server.start (String.eqb "/logs") (Server.new (fun d => d) "/logs"))))
  = Server.new (fun d => d) "/logs"
  /\ Act.outcome (snd (Server.start (String.eqb "/logs") (Server.new (fun d => d) "/logs")))
     = Ok tt
  /\ Act.outcome
       (snd (Server.stop (fst (Server.start (String.eqb "/logs")
                                 (Server.new (fun d => d) "/logs"))))) = Ok tt
  /\ List.filter (fun e => match e with
                           | Server.Emit_started | Server.Emit_stopped => true
                           | _ => false
                           end)
       (Act.trace (snd (Server.start (String.eqb "/logs") (Server.new (fun d => d) "/logs")))
        ++ Act.trace
             (snd (Server.stop (fst (Server.start (String.eqb "/logs")
                                       (Server.new (fun d => d) "/logs"))))))
     = [Server.Emit_started; Server.Emit_stopped].
Proof.
  apply (start_stop_round_trip (String.eqb "/logs") (Server.new (fun d => d) "/logs"));
    reflexivity.
Defined.

(** ** A server right after construction *)

Section Construction.
Context {JsonlRecord : Type}.
Variable JSON_parse : list byte -> Outcome JsonlRecord.
Variable trim_is_empty : list byte -> bool.

(** X26.  Unless the configuration says [enableBuffering: false], the
    processor of a newly constructed server works incrementally and starts
    with an empty offset table: its first read of an existing, non-empty
    file streams the file from byte 0 to its end and stores the size, and a
    second read of the unchanged file opens no stream. *)
Theorem first_read_after_construction
    (config : Orchestrator.ServerConfig JsonlRecord) (fs : gmap string (list byte))
    (filePath : string) (content : list byte) :
  Orchestrator.cfg_enableBuffering config <> Some false ->
  fs !! filePath = Some content ->
  content <> [] ->
  exists p1 tr,
    Processor.processFile JSON_parse trim_is_empty (Orchestrator.construct config) fs filePath
    = (p1, (tr, Ok tt))
    /\ Observe.stream_reads tr = [(0, content)]
    /\ Processor.getFilePosition p1 filePath = length content
    /\ Processor.processFile JSON_parse trim_is_empty p1 fs filePath
       = (p1, ([Processor.Emit_processing_start filePath; Processor.Stat filePath;
                Processor.Log (Processor.NoNewData filePath);
                Processor.Emit_processing_complete filePath], Ok tt)).
Proof.
  intros Hbuf Hdisk Hne.
  set (p := Orchestrator.construct config).
  assert (Hidle : Processor.isProcessing p = false) by done.
  assert (Hon : Processor.enableBuffering p = true).
  { unfold p, Orchestrator.construct, Orchestrator.buffering_of. simpl.
    destruct (Orchestrator.cfg_enableBuffering config) as [[|]|]; done. }
  assert (Hpos : Processor.getFilePosition p filePath = 0) by done.
  destruct (processFile_new_data JSON_parse trim_is_empty p fs filePath content
              Hidle Hon Hdisk) as (tr & Hrun & Hreads & _).
  { rewrite Hpos. destruct content; [done | simpl; lia]. }
  rewrite Hpos, drop_0 in Hreads.
  eexists _, tr. split; [exact Hrun |]. split; [exact Hreads |].
  split; [apply getFilePosition_set |].
  apply (processFile_no_new_data JSON_parse trim_is_empty _ fs filePath content);
    [done | done | done | apply getFilePosition_set].
Qed.
End Construction.

(** X26 for a configuration without plugins and without an
    [enableBuffering] option. *)
Lemma first_read_after_construction_witness :
  exists p1 tr,
    Processor.processFile Fixtures.parse_number Fixtures.ascii_blank
      (Orchestrator.construct
         (Orchestrator.Build_ServerConfig [] [] [] None None None))
      {[ Fixtures.log_file := Fixtures.rewritten_content ]} Fixtures.log_file
    = (p1, (tr, Ok tt))
    /\ Observe.stream_reads tr = [(0, Fixtures.rewritten_content)]
    /\ Processor.getFilePosition p1 Fixtures.log_file = length Fixtures.rewritten_content
    /\ Processor.processFile Fixtures.parse_number Fixtures.ascii_blank p1
         {[ Fixtures.log_file := Fixtures.rewritten_content ]} Fixtures.log_file
       = (p1, ([Processor.Emit_processing_start Fixtures.log_file;
                Processor.Stat Fixtures.log_file;
                Processor.Log (Processor.NoNewData Fixtures.log_file);
                Processor.Emit_processing_complete Fixtures.log_file], Ok tt)).
Proof.
  apply (first_read_after_construction Fixtures.parse_number Fixtures.ascii_blank
           (Orchestrator.Build_ServerConfig [] [] [] None None None)
           {[ Fixtures.log_file := Fixtures.rewritten_content ]} Fixtures.log_file
           Fixtures.rewritten_content);
    [discriminate | reflexivity | discriminate].
Defined.
